(** * hippostomp: decoding of the SG2/SG3 + .555 sprite format

    A shallow embedding of [src/image.py] (class [Image], the per-image
    reader) and [src/bitmap.py] (class [Bitmap], the eager collection reader),
    followed by the properties that the specification states about them.

    Conventions of the embedding
    - Python integers are [Z]; [bytes] objects are [list byte]; a Python list
      of RGBA tuples is a [list quad] that is updated by index.
    - Exceptions are values of [exn], carried by the [result] monad; a
      [while] loop is a fixpoint on a fuel that bounds its iterations.
    - Calls to [error(...)] of the logging library and the accesses to the
      companion [.555] file are recorded as [event]s, in program order. *)

From Stdlib Require Import ZArith Strings.Byte Lia Bool.
From Stdlib Require Strings.String.
From stdpp Require Import base list numbers.

Local Open Scope Z_scope.

(** ** Python primitives used by both source files *)

Module Py.

(** The exceptions that the modelled code can raise. *)
Inductive exn : Type :=
| ImageError   (* raise ImageError("Image verification failed") *)
| IndexError   (* out-of-range subscript on bytes / list *)
| OSError      (* seek() to a negative absolute position *)
| ValueError   (* raise ValueError(f"Unknown type: ...") *)
| TypeError    (* range() over a float *)
| OverflowError        (* int.to_bytes() of a value that does not fit *)
| UnboundLocalError    (* use of a local variable that was never assigned *)
| UnicodeDecodeError.  (* bytes.decode("ascii") of a byte above 127 *)

(** Outcome of a piece of code: a value, an exception, or no outcome at
    all because a [while] loop never exits ([Hang]). *)
Inductive result (A : Type) : Type :=
| Ok (a : A)
| Raise (e : exn)
| Hang.
Arguments Ok {A} a.
Arguments Raise {A} e.
Arguments Hang {A}.

Definition bind {A B} (m : result A) (f : A -> result B) : result B :=
  match m with
  | Ok a => f a
  | Raise e => Raise e
  | Hang => Hang
  end.

Definition byte_val (b : byte) : Z := Z.of_N (Byte.to_N b).

(** Subscript normalisation of Python sequences: [s[k]] is valid for
    [-len <= k < len], a negative [k] counting from the end. *)
Definition norm_index (len : nat) (k : Z) : option nat :=
  if 0 <=? k then
    if k <? Z.of_nat len then Some (Z.to_nat k) else None
  else
    if - Z.of_nat len <=? k then Some (Z.to_nat (Z.of_nat len + k)) else None.

(** [s[k]] *)
Definition getitem {A} (s : list A) (k : Z) : result A :=
  match norm_index (length s) k with
  | Some n =>
      match s !! n with
      | Some a => Ok a
      | None => Raise IndexError
      end
  | None => Raise IndexError
  end.

(** [s[k] = v] on a list (in place; the updated list is returned). *)
Definition setitem {A} (s : list A) (k : Z) (v : A) : result (list A) :=
  match norm_index (length s) k with
  | Some n => Ok (<[n := v]> s)
  | None => Raise IndexError
  end.

(** [s[k:]] *)
Definition slice_from {A} (s : list A) (k : Z) : list A :=
  if 0 <=? k then drop (Z.to_nat k) s
  else drop (Z.to_nat (Z.of_nat (length s) + k)) s.

(** [range(n)] and [range(a, b)] *)
Definition range (n : Z) : list Z :=
  map Z.of_nat (seq 0 (Z.to_nat n)).

Definition range2 (a b : Z) : list Z :=
  map (fun k => a + Z.of_nat k) (seq 0 (Z.to_nat (b - a))).

(** [l * n] on a list *)
Definition list_mul {A} (l : list A) (n : Z) : list A :=
  concat (replicate (Z.to_nat n) l).

(** [for v in vs: st = body(v, st)], stopping at the first exception. *)
Fixpoint for_each {A S} (vs : list A) (body : A -> S -> result S) (st : S)
  : result S :=
  match vs with
  | [] => Ok st
  | v :: vs' => bind (body v st) (for_each vs' body)
  end.

(** [int.from_bytes(bs, byteorder="little")] *)
Fixpoint int_from_bytes (bs : list byte) : Z :=
  match bs with
  | [] => 0
  | b :: bs' => byte_val b + 256 * int_from_bytes bs'
  end.

(** [int.from_bytes(bs, byteorder="little", signed=True)] *)
Definition int_from_bytes_signed (bs : list byte) : Z :=
  let u := int_from_bytes bs in
  let bits := 8 * Z.of_nat (length bs) in
  if (bits =? 0) then 0
  else if u <? 2 ^ (bits - 1) then u else u - 2 ^ bits.

(** A binary file opened for reading: the content and the position. *)
Record file : Type := File { f_data : list byte; f_pos : Z }.

Definition fopen (data : list byte) : file := File data 0.

(** [f.read(n)]: at most [n] bytes, fewer at end of file; every byte to
    the end of file when [n] is negative. *)
Definition fread (f : file) (n : Z) : list byte * file :=
  let rest := drop (Z.to_nat (f_pos f)) (f_data f) in
  let got := if n <? 0 then rest else take (Z.to_nat n) rest in
  (got, File (f_data f) (f_pos f + Z.of_nat (length got))).

(** [f.seek(pos)]: absolute; a negative position is an [OSError].  The
    model covers the positions that fit a file offset: a position of
    [2 ^ 63] or more, which CPython refuses with a [ValueError] before any
    system call, and the limits of a file system lie outside it.  The
    positions that the readers compute are sums of 32-bit fields or lie in
    the file; where a position is the caller's, the statements bound it. *)
Definition fseek (f : file) (pos : Z) : result file :=
  if pos <? 0 then Raise OSError else Ok (File (f_data f) pos).

(** [f.seek(k, 1)]: relative to the current position. *)
Definition fseek_cur (f : file) (k : Z) : result file :=
  fseek f (f_pos f + k).

(** [f.read(n)] fed to [int.from_bytes]. *)
Definition read_int (f : file) (n : Z) : Z * file :=
  let '(bs, f) := fread f n in (int_from_bytes bs, f).

Definition read_int_signed (f : file) (n : Z) : Z * file :=
  let '(bs, f) := fread f n in (int_from_bytes_signed bs, f).

Definition byte_of (v : Z) : byte :=
  match Byte.of_N (Z.to_N (v mod 256)) with
  | Some b => b
  | None => x00
  end.

Fixpoint le_bytes (n : nat) (v : Z) : list byte :=
  match n with
  | O => []
  | S n' => byte_of v :: le_bytes n' (v / 256)
  end.

(** [v.to_bytes(n, "little")] *)
Definition to_bytes (n : nat) (v : Z) : result (list byte) :=
  if (0 <=? v) && (v <? 256 ^ Z.of_nat n) then Ok (le_bytes n v)
  else Raise OverflowError.

End Py.

Import Py.

(** [result] is used through stdpp's monad notation [x ← m; k]. *)
#[global] Instance result_ret : MRet result := @Ok.
#[global] Instance result_bind : MBind result := fun A B f m => bind m f.

(** An RGBA tuple [(r, g, b, a)]. *)
Definition quad : Type := (Z * Z * Z * Z)%type.

(** [(pixel & 255, (pixel & 255 << 8) >> 8, (pixel & 255 << 16) >> 16,
      pixel >> 24)]; in Python [<<] binds tighter than [&]. *)
Definition rgba_tuple (pixel : Z) : quad :=
  (Z.land pixel 255,
   Z.shiftr (Z.land pixel (Z.shiftl 255 8)) 8,
   Z.shiftr (Z.land pixel (Z.shiftl 255 16)) 16,
   Z.shiftr pixel 24).

(** The three [rgba |= ...] lines shared by both [set555Pixel] methods. *)
Definition expand555 (colour : Z) : Z :=
  let rgba := 0xff000000 in
  (* Red: 11-15 -> 4-8 | 13-15 -> 1-3 *)
  let rgba := Z.lor rgba
    (Z.lor (Z.shiftr (Z.land colour 0x7c00) 7)
           (Z.shiftr (Z.land colour 0x7000) 12)) in
  (* Green: 6-10 -> 12-16 | 8-10 -> 9-11 *)
  let rgba := Z.lor rgba
    (Z.lor (Z.shiftl (Z.land colour 0x3e0) 6)
           (Z.shiftl (Z.land colour 0x380) 1)) in
  (* Blue: 1-5 -> 20-24 | 3-5 -> 17-19 *)
  let rgba := Z.lor rgba
    (Z.lor (Z.shiftl (Z.land colour 0x1f) 19)
           (Z.shiftl (Z.land colour 0x1c) 14)) in
  rgba.

(** [set555Pixel(self, colour, width)], identical in [Image] and [Bitmap];
    the [width] argument is not used by the body. *)
Definition set555Pixel (colour width : Z) : Z :=
  let rgba := 0xff000000 in
  if colour =? 0xf81f then rgba
  else expand555 colour.

(** [buffer[i] | (buffer[i + 1] << 8)] *)
Definition sample16 (lo hi : byte) : Z :=
  Z.lor (byte_val lo) (Z.shiftl (byte_val hi) 8).

(** [while (x >= width): y += 1; x -= width], the row wrap after a skip run
    (the same loop in both files).  With [fuel] above [x] the fuel runs out
    only when the Python loop does not exit, which needs [width <= 0]. *)
Fixpoint wrap_rows (fuel : nat) (width x y : Z) : result (Z * Z) :=
  if width <=? x then
    match fuel with
    | O => Hang
    | S fuel' => wrap_rows fuel' width (x - width) (y + 1)
    end
  else Ok (x, y).

(** What the code reports through [error(...)], and what it does with the
    companion [.555] file. *)
Inductive error_msg : Type :=
| UnknownType (imgType : Z)                  (* "Unknown type: ..." *)
| InvalidDimensions (width height : Z)       (* "Invalid image dimensions: ..." *)
| NoImageData (length : Z)                   (* "No image data available: ..." *)
| UnknownIsometricTileSize (height : Z)      (* "Unknown isometric tile size: ..." *)
| UnknownTileSize (height width size : Z)    (* "Unknown tile size..." *)
| FootprintMismatch (footprint actual : Z)   (* "Data length doesn't match footprint size..." *)
| DataLengthInvalid (data_length : Z)        (* "Data length invalid: ..." *)
| TileSizeUnknown                            (* "Unknown tile size" *)
| FootprintSizeMismatch.                     (* "Data length doesn't match footprint size" *)

Inductive event : Type :=
| Error (m : error_msg)
| Seek555 (pos : Z)
| Read555 (n : Z).

(** ** src/image.py *)

Module ImagePy.

Inductive ImgType : Type := unknown | plain | isometric | sprite.

#[global] Instance ImgType_eq_dec : EqDecision ImgType.
Proof. solve_decision. Defined.

(** The module-level table [types]; a dict iterates in insertion order. *)
Definition types : list (ImgType * list Z) :=
  [ (plain, [0; 1; 10; 12; 13]);
    (isometric, [30]);
    (sprite, [256; 257; 276]) ].

(** [get_img_type(imgType)] with the errors it logs. *)
Definition get_img_type (imgType : Z) : ImgType * list event :=
  match find (fun kv => existsb (Z.eqb imgType) (snd kv)) types with
  | Some kv => (fst kv, [])
  | None =>
      (* raise ValueError(f"Unknown type: {imgType}")   -- commented out *)
      (unknown, [Error (UnknownType imgType)])
  end.

Definition isometricTileWidth : Z := 58.
Definition isometricTileHeight : Z := 30.
Definition isometricTileBytes : Z := 1800.
Definition isometricLargeTileWidth : Z := 78.
Definition isometricLargeTileHeight : Z := 40.
Definition isometricLargeTileBytes : Z := 3200.

(** The attributes of an [Image] object after [read_header]; [length_] is
    [self.length]. *)
Record Image : Type := {
  includeAlpha : bool;
  imgNum : Z;
  bitmapID : Z;
  offset555 : Z;
  length_ : Z;
  uncompressedLength : Z;
  invertOffset : Z;
  width : Z;
  height : Z;
  xOffset : Z;
  yOffset : Z;
  imgType : ImgType;
  flags : list byte;
  alphaOffset : Z;
  alphaLength : Z;
  offset : Z
}.

(** [Image.__init__] followed by [read_header]: [sg] is the content of the
    metadata file, [offset] the position of the record in it. *)
Definition read_header (sg : list byte) (offset : Z) (includeAlpha : bool)
    (imgNum : Z) : list event * result Image :=
  match fseek (fopen sg) offset with
  | Raise e => ([], Raise e)
  | Hang => ([], Hang)
  | Ok f =>
    let '(bitmapID, f) := read_int f 1 in
    match fseek_cur f 7 with
    | Raise e => ([], Raise e)
    | Hang => ([], Hang)
    | Ok f =>
      let '(offset555, f) := read_int f 4 in
      let '(length, f) := read_int f 4 in
      let '(uncompressedLength, f) := read_int f 4 in
      match fseek_cur f 4 with
      | Raise e => ([], Raise e)
      | Hang => ([], Hang)
      | Ok f =>
        let '(invertOffset, f) := read_int_signed f 4 in
        let '(width, f) := read_int_signed f 2 in
        let '(height, f) := read_int_signed f 2 in
        let '(xOffset, f) := read_int f 2 in
        let '(yOffset, f) := read_int f 2 in
        match fseek_cur f 22 with
        | Raise e => ([], Raise e)
        | Hang => ([], Hang)
        | Ok f =>
          let '(code, f) := read_int f 2 in
          let '(imgType, log) := get_img_type code in
          let '(flags, f) := fread f 4 in
          let '(alphaOffset, alphaLength, f) :=
            if includeAlpha then
              let '(alphaOffset, f) := read_int f 4 in
              let '(alphaLength, f) := read_int f 4 in
              (alphaOffset, alphaLength, f)
            else (0, 0, f) in
          (log,
           Ok {| includeAlpha := includeAlpha; imgNum := imgNum;
                 bitmapID := bitmapID; offset555 := offset555;
                 length_ := length; uncompressedLength := uncompressedLength;
                 invertOffset := invertOffset; width := width;
                 height := height; xOffset := xOffset; yOffset := yOffset;
                 imgType := imgType; flags := flags;
                 alphaOffset := alphaOffset; alphaLength := alphaLength;
                 offset := f_pos f |})
        end
      end
    end
  end.

(** [verify(self)]: the verdict and the errors it logs. *)
Definition verify (self : Image) : bool * list event :=
  if (width self <=? 0) || (height self <=? 0) then
    (false, [Error (InvalidDimensions (width self) (height self))])
  else if length_ self <=? 0 then
    (false, [Error (NoImageData (length_ self))])
  else (true, []).

(** *** The run-length decoder, [writeTransparentImage] *)

(** The loop state: the read index [i], the cursor [(x, y)], the pixel
    list, and (ghost) the list of pixel writes made so far, oldest first,
    as pairs of list index and value. *)
Record rle_state : Type := RleState {
  rs_i : Z;
  rs_x : Z;
  rs_y : Z;
  rs_image : list quad;
  rs_writes : list (Z * quad)
}.

(** Body of [for j in range(c)]. *)
Definition rle_pixel (width : Z) (buffer : list byte) (s : rle_state)
  : result rle_state :=
  lo ← getitem buffer (rs_i s);
  hi ← getitem buffer (rs_i s + 1);
  let pixel := set555Pixel (sample16 lo hi) width in
  let pos := rs_y s * width + rs_x s in
  image ← setitem (rs_image s) pos (rgba_tuple pixel);
  let x := rs_x s + 1 in
  let '(x, y) := if width <=? x then (0, rs_y s + 1) else (x, rs_y s) in
  Ok (RleState (rs_i s + 2) x y image
               (rs_writes s ++ [(pos, rgba_tuple pixel)])).

(** Body of [while i < length]. *)
Definition rle_step (width : Z) (buffer : list byte) (s : rle_state)
  : result rle_state :=
  c ← getitem buffer (rs_i s);
  let i := rs_i s + 1 in
  if byte_val c =? 255 then
    (* The next byte is the number of pixels to skip *)
    n ← getitem buffer i;
    let x := rs_x s + byte_val n in
    let i := i + 1 in
    xy ← wrap_rows (S (Z.to_nat x)) width x (rs_y s);
    Ok (RleState i (fst xy) (snd xy) (rs_image s) (rs_writes s))
  else
    (* c is the number of image data bytes *)
    for_each (range (byte_val c)) (fun _ => rle_pixel width buffer)
             (RleState i (rs_x s) (rs_y s) (rs_image s) (rs_writes s)).

Fixpoint rle_loop (fuel : nat) (width : Z) (buffer : list byte) (length : Z)
    (s : rle_state) : result rle_state :=
  if rs_i s <? length then
    match fuel with
    | O => Hang
    | S fuel' =>
        s' ← rle_step width buffer s;
        rle_loop fuel' width buffer length s'
    end
  else Ok s.

(** The whole loop, entered with [i, x, y = i0, 0, 0].  Every iteration
    advances [i], so [length - i0] iterations are never exceeded. *)
Definition rle_run (width : Z) (buffer : list byte) (length i0 : Z)
    (image : list quad) : result rle_state :=
  rle_loop (Z.to_nat (length - i0)) width buffer length
           (RleState i0 0 0 image []).

(** [writeTransparentImage(self, image, buffer, length)]: the updated
    [image]. *)
Definition writeTransparentImage (self : Image) (image : list quad)
    (buffer : list byte) (length : Z) : result (list quad) :=
  s ← rle_run (width self) buffer length 0 image;
  Ok (rs_image s).

(** *** The plain decoder (lines 135-140 of [read_image]) *)

Definition plain_pixel (self : Image) (buffer : list byte) (y x : Z)
    (st : Z * list quad) : result (Z * list quad) :=
  let '(i, image) := st in
  lo ← getitem buffer i;
  hi ← getitem buffer (i + 1);
  let pixel := set555Pixel (sample16 lo hi) (width self) in
  image ← setitem image (y * width self + x) (rgba_tuple pixel);
  Ok (i + 2, image).

Definition read_plain (self : Image) (buffer : list byte)
    (image : list quad) : result (Z * list quad) :=
  for_each (range (height self))
    (fun y => for_each (range (width self)) (plain_pixel self buffer y))
    (0, image).

(** *** The isometric decoder *)

(** The pixel assignment shared by the two loops of [writeIsometricTile]. *)
Definition tile_pixel (self : Image) (buffer : list byte)
    (xOffset yOffset y x : Z) (st : Z * list quad)
  : result (Z * list quad) :=
  let '(i, image) := st in
  hi ← getitem buffer (i + 1);
  lo ← getitem buffer i;
  let pixel :=
    set555Pixel (Z.lor (Z.shiftl (byte_val hi) 8) (byte_val lo)) y in
  image ← setitem image ((y + yOffset) * width self + xOffset + x)
                  (rgba_tuple pixel);
  Ok (i + 2, image).

(** [writeIsometricTile(self, image, buffer, xOffset, yOffset, tileWidth,
    tileHeight)]: the updated [image]. *)
Definition writeIsometricTile (self : Image) (image : list quad)
    (buffer : list byte) (xOffset yOffset tileWidth tileHeight : Z)
  : result (list quad) :=
  let halfHeight := Z.quot tileHeight 2 in
  st ← for_each (range halfHeight)
        (fun y =>
           let start := tileHeight - 2 * (y + 1) in
           let end_ := tileWidth - start in
           for_each (range2 start end_)
                    (tile_pixel self buffer xOffset yOffset y))
        (0, image);
  st ← for_each (range2 halfHeight tileHeight)
        (fun y =>
           let start := 2 * y - tileHeight in
           let end_ := tileWidth - start in
           for_each (range2 start end_)
                    (tile_pixel self buffer xOffset yOffset y))
        st;
  Ok (snd st).

(** Lines 145-154: the tile count [size], derived from the footprint
    height when [flags[3]] is zero, and the error logged when that fails. *)
Definition derive_size (size baseHeight : Z) : Z * list event :=
  if size =? 0 then
    let size :=
      if baseHeight mod isometricTileHeight =? 0 then
        Z.quot baseHeight isometricTileHeight
      else if baseHeight mod isometricLargeTileHeight =? 0 then
        Z.quot baseHeight isometricLargeTileHeight
      else size in
    (size,
     if size =? 0 then [Error (UnknownIsometricTileSize baseHeight)] else [])
  else (size, []).

(** Lines 157-167: [(tileBytes, tileHeight, tileWidth)] of the selected
    profile, or [None] where the code logs "Unknown tile size". *)
Definition tile_profile (size baseHeight : Z) : option (Z * Z * Z) :=
  if isometricTileHeight * size =? baseHeight then
    Some (isometricTileBytes, isometricTileHeight, isometricTileWidth)
  else if isometricLargeTileHeight * size =? baseHeight then
    Some (isometricLargeTileBytes, isometricLargeTileHeight,
          isometricLargeTileWidth)
  else None.

(** Lines 174-183: the base mosaic.  The state of the outer loop is
    [(i, yOffset, image)], that of the inner loop [(i, xOffset, image)]. *)
Definition mosaic_row (self : Image) (buffer : list byte)
    (size tileBytes tileHeight tileWidth : Z) (y : Z)
    (st : Z * Z * list quad) : result (Z * Z * list quad) :=
  let '(i, yOffset, image) := st in
  let xOffset := if y <? size then size - y - 1 else y - size + 1 in
  let xOffset := xOffset * tileHeight in
  let wd := if y <? size then y + 1 else 2 * size - y - 1 in
  st ← for_each (range wd)
        (fun _ (st : Z * Z * list quad) =>
           let '(i, xOffset, image) := st in
           image ← writeIsometricTile self image
                     (slice_from buffer (i * tileBytes))
                     xOffset yOffset tileWidth tileHeight;
           Ok (i + 1, xOffset + (tileWidth + 2), image))
        (i, xOffset, image);
  let '(i, _, image) := st in
  Ok (i, yOffset + Z.quot tileHeight 2, image).

Definition base_mosaic (self : Image) (buffer : list byte)
    (size tileBytes tileHeight tileWidth yOffset : Z) (image : list quad)
  : result (list quad) :=
  st ← for_each (range (size + (size - 1)))
        (mosaic_row self buffer size tileBytes tileHeight tileWidth)
        (0, yOffset, image);
  Ok (snd st).

(** Lines 184-205: the overlay.  [writeTransparentImage] is called on the
    tail of the buffer; the loop that follows the call in the source is the
    same loop once more, entered at [i = uncompressedLength] on the whole
    buffer and bounded by [length - uncompressedLength]. *)
Definition overlay (self : Image) (buffer : list byte) (image : list quad)
  : result (list quad) :=
  image ← writeTransparentImage self image
            (slice_from buffer (uncompressedLength self))
            (length_ self - uncompressedLength self);
  s ← rle_run (width self) buffer
        (length_ self - uncompressedLength self) (uncompressedLength self)
        image;
  Ok (rs_image s).

(** The [elif self.imgType == ImgType.isometric] branch; [Ok None] is the
    early [return None]. *)
Definition read_isometric (self : Image) (buffer : list byte)
    (image : list quad) : list event * result (option (list quad)) :=
  match getitem (flags self) 3 with
  | Raise e => ([], Raise e)
  | Hang => ([], Hang)
  | Ok f3 =>
    let size := byte_val f3 in
    let baseHeight := Z.quot (width self + 2) 2 in (* 58 -> 30, 118 -> 60, etc. *)
    let yOffset := height self - baseHeight in
    let '(size, log) := derive_size size baseHeight in
    (* Determine whether we should use the regular or large (emperor) tiles *)
    match tile_profile size baseHeight with
    | None =>
        (log ++ [Error (UnknownTileSize baseHeight (width self) size)],
         Ok None)
    | Some (tileBytes, tileHeight, tileWidth) =>
      (* Check if buffer length is enough *)
      if negb ((width self + 2) * baseHeight =? uncompressedLength self) then
        (log ++ [Error (FootprintMismatch ((width self + 2) * baseHeight)
                                          (uncompressedLength self))],
         Ok None)
      else
        (log,
         image ← base_mosaic self buffer size tileBytes tileHeight tileWidth
                   yOffset image;
         image ← overlay self buffer image;
         Ok (Some image))
    end
  end.

(** *** [read_image] *)

(** What a call of [read_image] leaves behind: the events in program
    order, the exception that escaped (if any), and the pixel data of
    [self.image] (if the attribute was assigned). *)
Record outcome : Type := Outcome {
  out_events : list event;
  out_raised : option exn;
  out_hangs : bool;
  out_image : option (list quad)
}.

(** Lines 134-207: the dispatch on [self.imgType]. *)
Definition decode (self : Image) (buffer : list byte) (image : list quad)
  : list event * result (option (list quad)) :=
  match imgType self with
  | plain => ([], st ← read_plain self buffer image; Ok (Some (snd st)))
  | isometric => read_isometric self buffer image
  | sprite =>
      ([], image ← writeTransparentImage self image buffer (length_ self);
           Ok (Some image))
  | unknown => ([], Ok (Some image))
  end.

(** [read_image(self)]; [f555] is the content of the companion file. *)
Definition read_image (self : Image) (f555 : list byte) : outcome :=
  let '(ok, vlog) := verify self in
  if negb ok then
    Outcome vlog (Some ImageError) false None
  else
    let image := list_mul (list_mul [(0, 0, 0, 0)] (width self)) (height self) in
    let dataLength := length_ self + alphaLength self in
    match getitem (flags self) 0 with
    | Raise e => Outcome vlog (Some e) false None
    | Hang => Outcome vlog None true None
    | Ok f0 =>
      let pos := offset555 self - byte_val f0 in
      match fseek (fopen f555) pos with
      | Raise e => Outcome (vlog ++ [Seek555 pos]) (Some e) false None
      | Hang => Outcome (vlog ++ [Seek555 pos]) None true None
      | Ok f2 =>
        let '(buffer, _) := fread f2 dataLength in
        let io := vlog ++ [Seek555 pos; Read555 dataLength] in
        (* self.image = PILImage.new("RGBA", (self.width, self.height)) *)
        let blank := replicate (Z.to_nat (width self * height self))
                               (0, 0, 0, 0) in
        match decode self buffer image with
        | (log, Raise e) => Outcome (io ++ log) (Some e) false (Some blank)
        | (log, Hang) => Outcome (io ++ log) None true (Some blank)
        | (log, Ok None) => Outcome (io ++ log) None false (Some blank)
        | (log, Ok (Some image)) =>
            (* self.image.putdata(image) *)
            Outcome (io ++ log) None false (Some image)
        end
      end
    end.

End ImagePy.

(** ** src/bitmap.py *)

Module BitmapPy.

Definition headerSize : Z := 680.
Definition bitmapRecordSize : Z := 200.
Definition isometricTileWidth : Z := 58.
Definition isometricTileHeight : Z := 30.
Definition isometricTileBytes : Z := 1800.
Definition isometricLargeTileWidth : Z := 78.
Definition isometricLargeTileHeight : Z := 40.
Definition isometricLargeTileBytes : Z := 3200.

(** A Python number as the isometric branch handles it: [/] yields a float
    even where the quotient is whole; [PFloat z] is the float of value [z]. *)
Inductive pynum : Type :=
| PInt (z : Z)
| PFloat (z : Z).

Definition num_val (n : pynum) : Z :=
  match n with PInt z | PFloat z => z end.

(** [range(n)]: a float is a [TypeError]. *)
Definition range_num (n : pynum) : result (list Z) :=
  match n with
  | PInt z => Ok (range z)
  | PFloat _ => Raise TypeError
  end.

(** The locals that one iteration of [read_images] reads from the metadata
    file. *)
Record record_header : Type := {
  r_offset : Z;
  r_length : Z;
  r_uncompressed_length : Z;
  r_invert_offset : Z;
  r_width : Z;
  r_height : Z;
  r_imgType : Z;
  r_flags : list byte;
  r_bitmap_id : Z;
  r_alpha_length : Z
}.

(** Lines 61-80: the header of one record, read at the current position of
    [f]; [debug(flags[3])] is a subscript and can raise. *)
Definition read_record (f : file) (includeAlpha : bool)
  : result (record_header * file) :=
  let '(offset, f) := read_int f 4 in
  let '(length, f) := read_int f 4 in
  let '(uncompressed_length, f) := read_int f 4 in
  f ← fseek_cur f 4;
  let '(invert_offset, f) := read_int_signed f 4 in
  let '(width, f) := read_int_signed f 2 in
  let '(height, f) := read_int_signed f 2 in
  f ← fseek_cur f 26;
  let '(imgType, f) := read_int f 2 in
  let '(flags, f) := fread f 4 in
  _ ← getitem flags 3;
  let '(bitmap_id, f) := read_int f 1 in
  f ← fseek_cur f 7;
  let '(alpha_length, f) :=
    if includeAlpha then
      let '(_, f) := read_int f 4 in
      read_int f 4
    else (0, f) in
  Ok ({| r_offset := offset; r_length := length;
         r_uncompressed_length := uncompressed_length;
         r_invert_offset := invert_offset; r_width := width;
         r_height := height; r_imgType := imgType; r_flags := flags;
         r_bitmap_id := bitmap_id; r_alpha_length := alpha_length |}, f).

(** [for byte in range(data_length): buffer += f2.read(1)] *)
Definition read_bytewise (f2 : file) (data_length : Z) : list byte :=
  fst (fold_left
         (fun (st : list byte * file) (_ : Z) =>
            let '(b, f2) := fread (snd st) 1 in (fst st ++ b, f2))
         (range data_length) ([], f2)).

(** Lines 99-107: the slice of the companion file; [Ok None] is the
    [continue] after "Data length invalid". *)
Definition read_buffer (r : record_header) (f555 : list byte)
  : list event * result (option (list byte)) :=
  let data_length := r_length r + r_alpha_length r in
  if data_length <=? 0 then
    ([Error (DataLengthInvalid data_length)], Ok None)
  else
    match getitem (r_flags r) 0 with
    | Raise e => ([], Raise e)
    | Hang => ([], Hang)
    | Ok f0 =>
      let pos := r_offset r - byte_val f0 in
      match fseek (fopen f555) pos with
      | Raise e => ([Seek555 pos], Raise e)
      | Hang => ([Seek555 pos], Hang)
      | Ok f2 =>
          (Seek555 pos :: replicate (Z.to_nat data_length) (Read555 1),
           Ok (Some (read_bytewise f2 data_length)))
      end
    end.

Section WithPIL.

(** [PIL.Image.frombuffer("RGBA", (width, height), data, "raw")] is outside
    this repository: any function will do. *)
Variable pil : Type.
Variable frombuffer : Z -> Z -> list byte -> result pil.

(** What [self.images] holds: images built by PIL, or the raw [bytes] that
    the isometric branch would append. *)
Inductive entry : Type :=
| Built (p : pil)
| RawBytes (b : list byte).

(** Lines 121-128. *)
Definition plain_pixel (buffer : list byte) (width : Z)
    (st : Z * list byte) : result (Z * list byte) :=
  let '(i, image) := st in
  lo ← getitem buffer i;
  hi ← getitem buffer (i + 1);
  let pixel := set555Pixel (sample16 lo hi) width in
  bs ← to_bytes 4 pixel;
  Ok (i + 2, image ++ bs).

Definition read_plain (r : record_header) (buffer : list byte)
  : result entry :=
  st ← for_each (range (r_width r))
        (fun _ => for_each (range (r_height r))
                           (fun _ => plain_pixel buffer (r_width r)))
        (0, []);
  p ← frombuffer (r_width r) (r_height r) (snd st);
  Ok (Built p).

(** Lines 133-189.  Once both checks pass the loops are entered; the first
    thing the innermost body does is [range(halfHeight)] on the float
    [tileHeight / 2]; [y_offset] is read without ever being assigned. *)
Definition derive_size (flags3 height : Z) : pynum :=
  if flags3 =? 0 then
    if height mod isometricTileHeight =? 0 then
      PFloat (height / isometricTileHeight)
    else if height mod isometricLargeTileHeight =? 0 then
      PFloat (height / isometricLargeTileHeight)
    else PInt flags3
  else PInt flags3.

Definition tile_profile (size : pynum) (height : Z) : option (Z * Z * Z) :=
  if isometricTileHeight * num_val size =? height then
    Some (isometricTileBytes, isometricTileHeight, isometricTileWidth)
  else if isometricLargeTileHeight * num_val size =? height then
    Some (isometricLargeTileBytes, isometricLargeTileHeight,
          isometricLargeTileWidth)
  else None.

Definition read_isometric (r : record_header) (buffer : list byte)
  : list event * result (option entry) :=
  match getitem (r_flags r) 3 with
  | Raise e => ([], Raise e)
  | Hang => ([], Hang)
  | Ok f3 =>
    let size := derive_size (byte_val f3) (r_height r) in
    match tile_profile size (r_height r) with
    | None => ([Error TileSizeUnknown], Ok None)
    | Some (tileBytes, tileHeight, tileWidth) =>
      if negb ((r_width r + 2) * r_height r =? r_uncompressed_length r) then
        ([Error FootprintSizeMismatch], Ok None)
      else
        ([],
         ys ← range_num (match size with
                         | PInt z => PInt (z + (z - 1))
                         | PFloat z => PFloat (z + (z - 1))
                         end);
         _ ← for_each ys
               (fun y (_ : unit) =>
                  let wd := if y <? num_val size then y + 1
                            else 2 * num_val size - y - 1 in
                  _ ← for_each (range wd)
                        (fun _ (_ : unit) =>
                           (* halfHeight = tileHeight / 2 *)
                           _ ← range_num (PFloat (tileHeight / 2));
                           Ok tt)
                        tt;
                  (* y_offset += tileHeight / 2 *)
                  Raise UnboundLocalError)
               tt;
         Ok (Some (RawBytes [])))
    end
  end.

(** Lines 193-217. *)
Record sprite_state : Type := SpriteState {
  ss_i : Z;
  ss_x : Z;
  ss_y : Z;
  ss_image : list byte
}.

Definition sprite_pixel (buffer : list byte) (width : Z) (s : sprite_state)
  : result sprite_state :=
  lo ← getitem buffer (ss_i s);
  hi ← getitem buffer (ss_i s + 1);
  let pixel := set555Pixel (sample16 lo hi) width in
  bs ← to_bytes 4 pixel;
  let x := ss_x s + 1 in
  let '(x, y) := if width <=? x then (0, ss_y s + 1) else (x, ss_y s) in
  Ok (SpriteState (ss_i s + 2) x y (ss_image s ++ bs)).

Definition sprite_step (buffer : list byte) (width : Z) (s : sprite_state)
  : result sprite_state :=
  c ← getitem buffer (ss_i s);
  let i := ss_i s + 1 in
  if byte_val c =? 255 then
    n ← getitem buffer i;
    let x := ss_x s + byte_val n in
    zero ← to_bytes 4 0;
    let image :=
      fold_left (fun im (_ : Z) => im ++ zero) (range (byte_val n))
                (ss_image s) in
    let i := i + 1 in
    xy ← wrap_rows (S (Z.to_nat x)) width x (ss_y s);
    Ok (SpriteState i (fst xy) (snd xy) image)
  else
    for_each (range (byte_val c)) (fun _ => sprite_pixel buffer width)
             (SpriteState i (ss_x s) (ss_y s) (ss_image s)).

Fixpoint sprite_loop (fuel : nat) (buffer : list byte) (width length : Z)
    (s : sprite_state) : result sprite_state :=
  if ss_i s <? length then
    match fuel with
    | O => Hang
    | S fuel' =>
        s' ← sprite_step buffer width s;
        sprite_loop fuel' buffer width length s'
    end
  else Ok s.

Definition read_sprite (r : record_header) (buffer : list byte)
  : result entry :=
  s ← sprite_loop (Z.to_nat (r_length r)) buffer (r_width r) (r_length r)
        (SpriteState 0 0 0 []);
  p ← frombuffer (r_width r) (r_height r) (ss_image s);
  Ok (Built p).

(** Lines 118-219: the dispatch; [Ok None] is a [continue], [Ok (Some e)]
    is [self.images.append(e)]. *)
Definition decode (r : record_header) (buffer : list byte)
  : list event * result (option entry) :=
  if existsb (Z.eqb (r_imgType r)) [0; 1; 10; 12; 13] then
    ([], e ← read_plain r buffer; Ok (Some e))
  else if r_imgType r =? 30 then
    read_isometric r buffer
  else if existsb (Z.eqb (r_imgType r)) [256; 257; 276] then
    ([], e ← read_sprite r buffer; Ok (Some e))
  else
    ([], Raise ValueError).

(** The part of a [Bitmap] object that [read_images] uses, and what it does
    with the files. *)
Record Bitmap : Type := {
  offset : Z;
  numImages : Z;
  images : list entry;
  events : list event
}.

(** How one iteration ends. *)
Inductive flow : Type :=
| Next          (* the end of the body, or [continue] *)
| Raised (e : exn)
| Hung.

Definition flow_of {A} (r : result A) : flow :=
  match r with
  | Ok _ => Next
  | Raise e => Raised e
  | Hang => Hung
  end.

(** The body of [for record in range(self.numImages)]; [f] is the metadata
    file. *)
Definition read_images_body (includeAlpha : bool) (f555 : list byte)
    (record : Z) (st : Bitmap * file) : Bitmap * file * flow :=
  let '(self, f) := st in
  match read_record f includeAlpha with
  | Raise e => (self, f, Raised e)
  | Hang => (self, f, Hung)
  | Ok (r, f) =>
    let self := {| offset := f_pos f; numImages := numImages self;
                   images := images self; events := events self |} in
    if record =? 0 then
      (self, f, Next)   (* First one is always a dummy record *)
    else
      let '(ev, got) := read_buffer r f555 in
      let self := {| offset := offset self; numImages := numImages self;
                     images := images self; events := events self ++ ev |} in
      match got with
      | Raise e => (self, f, Raised e)
      | Hang => (self, f, Hung)
      | Ok None => (self, f, Next)
      | Ok (Some buffer) =>
        let '(ev, res) := decode r buffer in
        let self := {| offset := offset self; numImages := numImages self;
                       images := images self; events := events self ++ ev |} in
        match res with
        | Ok (Some e) =>
            ({| offset := offset self; numImages := numImages self;
                images := images self ++ [e]; events := events self |},
             f, Next)
        | other => (self, f, flow_of other)
        end
      end
  end.

Fixpoint read_images_loop (includeAlpha : bool) (f555 : list byte)
    (records : list Z) (st : Bitmap * file) : Bitmap * file * flow :=
  match records with
  | [] => (st, Next)
  | record :: records' =>
      match read_images_body includeAlpha f555 record st with
      | (st', Next) => read_images_loop includeAlpha f555 records' st'
      | stopped => stopped
      end
  end.

(** [read_images(self, includeAlpha)]: the object afterwards and how the
    call ended; [sg] and [f555] are the contents of the two files. *)
Definition read_images (self : Bitmap) (sg f555 : list byte)
    (includeAlpha : bool) : Bitmap * flow :=
  match fseek (fopen sg) (offset self) with
  | Raise e => (self, Raised e)
  | Hang => (self, Hung)
  | Ok f =>
      let '(self', _, fl) :=
        read_images_loop includeAlpha f555 (range (numImages self)) (self, f)
      in (self', fl)
  end.

End WithPIL.

Arguments Built {pil} p.
Arguments RawBytes {pil} b.
Arguments offset {pil} _.
Arguments numImages {pil} _.
Arguments images {pil} _.
Arguments events {pil} _.

(** *** [Bitmap.__init__] and [Bitmap.read_header] *)

Fixpoint lstrip_nul (bs : list byte) : list byte :=
  match bs with
  | b :: bs' => if Byte.eqb b x00 then lstrip_nul bs' else bs
  | [] => []
  end.

(** [bs.rstrip(b"\x00")] *)
Definition rstrip_nul (bs : list byte) : list byte :=
  rev (lstrip_nul (rev bs)).

(** [bs.decode("ascii")] *)
Definition decode_ascii (bs : list byte) : result String.string :=
  if forallb (fun b => byte_val b <? 128) bs
  then Ok (String.string_of_list_byte bs)
  else Raise UnicodeDecodeError.

(** The attributes that [read_header] sets; [h_offset] is [self.offset]
    afterwards. *)
Record bitmap_header : Type := {
  h_filename : String.string;
  h_comment : String.string;
  h_width : Z;
  h_height : Z;
  h_numImages : Z;
  h_startIndex : Z;
  h_endIndex : Z;
  h_offset : Z
}.

(** Lines 29-42; [sg] is the content of the file, [offset] the argument of
    [__init__]. *)
Definition read_header (sg : list byte) (offset : Z) : result bitmap_header :=
  f ← fseek (fopen sg) offset;
  let '(name, f) := fread f 65 in
  filename ← decode_ascii (rstrip_nul name);
  let '(text, f) := fread f 51 in
  comment ← decode_ascii (rstrip_nul text);
  let '(width, f) := read_int f 4 in
  let '(height, f) := read_int f 4 in
  let '(numImages, f) := read_int f 4 in
  let '(startIndex, f) := read_int f 4 in
  let '(endIndex, f) := read_int f 4 in
  f ← fseek_cur f 64;
  Ok {| h_filename := filename; h_comment := comment; h_width := width;
        h_height := height; h_numImages := numImages;
        h_startIndex := startIndex; h_endIndex := endIndex;
        h_offset := f_pos f |}.

End BitmapPy.

(** ** Sample inputs *)

Module Samples.

(** A record of the metadata file as [Image.read_header] expects it,
    without the alpha fields. *)
Definition header (offset555 length uncompressedLength width height
    imgType : Z) (flags : list byte) : list byte :=
  [x01] ++ replicate 7 x00 ++ le_bytes 4 offset555 ++ le_bytes 4 length
  ++ le_bytes 4 uncompressedLength ++ replicate 4 x00 ++ le_bytes 4 0
  ++ le_bytes 2 width ++ le_bytes 2 height ++ le_bytes 2 0 ++ le_bytes 2 0
  ++ replicate 22 x00 ++ le_bytes 2 imgType ++ flags.

(** The [Image] that [read_header] builds from such a record at offset 0
    of the companion file. *)
Definition image_of (ty : ImagePy.ImgType) (length uncompressedLength
    width height : Z) (flags : list byte) : ImagePy.Image :=
  {| ImagePy.includeAlpha := false; ImagePy.imgNum := 0;
     ImagePy.bitmapID := 1; ImagePy.offset555 := 0;
     ImagePy.length_ := length;
     ImagePy.uncompressedLength := uncompressedLength;
     ImagePy.invertOffset := 0; ImagePy.width := width;
     ImagePy.height := height; ImagePy.xOffset := 0; ImagePy.yOffset := 0;
     ImagePy.imgType := ty; ImagePy.flags := flags;
     ImagePy.alphaOffset := 0; ImagePy.alphaLength := 0;
     ImagePy.offset := 64 |}.

Definition no_flags : list byte := [x00; x00; x00; x00].

(** A record of the metadata file as [Bitmap.read_images] expects it,
    without the alpha fields (64 bytes). *)
Definition eager_record (offset length uncompressed_length width height
    imgType : Z) (flags : list byte) : list byte :=
  le_bytes 4 offset ++ le_bytes 4 length ++ le_bytes 4 uncompressed_length
  ++ replicate 4 x00 ++ le_bytes 4 0 ++ le_bytes 2 width ++ le_bytes 2 height
  ++ replicate 26 x00 ++ le_bytes 2 imgType ++ flags ++ [x01]
  ++ replicate 7 x00.

(** A stand-in for PIL that keeps the raw data. *)
Definition keep_data (width height : Z) (data : list byte)
  : result (list byte) := Ok data.

End Samples.

(** ** Predicates used by the statements and their proofs *)

Import ImagePy.

(** The pixel that sample number [k] of the buffer decodes to. *)
Definition decoded_at (self : Image) (buffer : list byte) (k : Z) (q : quad)
  : Prop :=
  exists lo hi,
    buffer !! Z.to_nat (2 * k) = Some lo /\
    buffer !! Z.to_nat (2 * k + 1) = Some hi /\
    q = rgba_tuple (set555Pixel (sample16 lo hi) (width self)).

(** State of the two loops once [k] samples are consumed. *)
Definition plain_inv (self : Image) (buffer : list byte) (k : Z)
    (st : Z * list quad) : Prop :=
  fst st = 2 * k /\
  length (snd st) = Z.to_nat (width self * height self) /\
  forall j, 0 <= j < k ->
    exists q, snd st !! Z.to_nat j = Some q /\ decoded_at self buffer j q.

(** Predicates on the loop state. *)
Definition with_image (s : rle_state) (J : list quad) (W : list (Z * quad))
  : rle_state :=
  RleState (rs_i s) (rs_x s) (rs_y s) J W.

Definition cursor_ok (w : Z) (s : rle_state) : Prop :=
  0 <= rs_i s /\ 0 <= rs_x s < w /\ 0 <= rs_y s.

(** The cursor as a list index. *)
Definition lin (w : Z) (s : rle_state) : Z := rs_y s * w + rs_x s.

(** [J] already holds every pixel that [ws] writes. *)
Definition agree (J : list quad) (ws : list (Z * quad)) : Prop :=
  forall p v, (p, v) ∈ ws -> J !! Z.to_nat p = Some v.

(** The loop invariant relative to the grid [B] the decoder was started on:
    the writes lie strictly behind the cursor, the grid holds them, and every
    other cell is as in [B]. *)
Definition rle_inv (w : Z) (B : list quad) (s : rle_state) : Prop :=
  cursor_ok w s /\
  length (rs_image s) = length B /\
  (forall p v, (p, v) ∈ rs_writes s -> 0 <= p < lin w s) /\
  agree (rs_image s) (rs_writes s) /\
  (forall n : nat, (forall v, (Z.of_nat n, v) ∉ rs_writes s) ->
                   rs_image s !! n = B !! n).

(** [s1] is reached from [s]: the write list only grows at its end. *)
Definition extends (s s1 : rle_state) : Prop :=
  (exists ws, rs_writes s1 = rs_writes s ++ ws) /\ rs_i s <= rs_i s1.

(** Running the same code from the cursor of [s] on a grid [J] that already
    holds the writes leaves [J] as it is. *)
Definition reruns (s s1 : rle_state)
    (f : rle_state -> result rle_state) : Prop :=
  forall J W, agree J (rs_writes s1) ->
    exists W1, f (with_image s J W) = Ok (with_image s1 J W1).

(** The state with its read index moved by [k]. *)
Definition shift (k : Z) (s : rle_state) : rle_state :=
  RleState (rs_i s + k) (rs_x s) (rs_y s) (rs_image s) (rs_writes s).

Definition result_map {A B} (f : A -> B) (r : result A) : result B :=
  match r with
  | Ok a => Ok (f a)
  | Raise e => Raise e
  | Hang => Hang
  end.

(** The bytes that the plain branch of [Bitmap.read_images] has appended to
    [image] once [k] samples are consumed. *)
Fixpoint eager_plain_bytes (buffer : list byte) (width : Z) (k : nat)
  : list byte :=
  match k with
  | O => []
  | S k' =>
      eager_plain_bytes buffer width k' ++
      le_bytes 4 (set555Pixel (sample16 (nth (2 * k') buffer x00)
                                        (nth (2 * k' + 1) buffer x00)) width)
  end.

Definition eager_plain_inv (buffer : list byte) (width : Z) (k : Z)
    (st : Z * list byte) : Prop :=
  st = (2 * k, eager_plain_bytes buffer width (Z.to_nat k)).

(** The 8-bit value that a 5-bit colour field expands to: the field in the
    top five bits, its top three bits repeated below. *)
Definition expand5 (v : Z) : Z := 8 * v + v / 4.

(** The channels of a 555 sample: red in bits 10-14, green in bits 5-9,
    blue in bits 0-4, each expanded to eight bits; alpha 255. *)
Definition channels555 (c : Z) : quad :=
  (expand5 ((c / 1024) mod 32), expand5 ((c / 32) mod 32),
   expand5 (c mod 32), 255).

Definition quad_eqb (p q : quad) : bool :=
  let '(r1, g1, b1, a1) := p in
  let '(r2, g2, b2, a2) := q in
  (r1 =? r2) && (g1 =? g2) && (b1 =? b2) && (a1 =? a2).

(** [f] holds at every integer whose binary notation is that of [base]
    followed by [n] more bits. *)
Fixpoint all_below (n : nat) (f : Z -> bool) (base : Z) : bool :=
  match n with
  | O => f base
  | S n' => all_below n' f (2 * base) && all_below n' f (2 * base + 1)
  end.

(** The writes of a pass, oldest first, go to strictly increasing list
    indices. *)
Definition increasing (ws : list (Z * quad)) : Prop :=
  forall (i j : nat) (a b : Z * quad),
    (i < j)%nat -> ws !! i = Some a -> ws !! j = Some b -> fst a < fst b.

(** Every write of a pass stores an opaque pixel. *)
Definition opaque_writes (ws : list (Z * quad)) : Prop :=
  forall p v, (p, v) ∈ ws -> snd v = 255.

(** The invariant of a pass together with the shape of its writes. *)
Definition writes_inv (w : Z) (B : list quad) (s : rle_state) : Prop :=
  rle_inv w B s /\ increasing (rs_writes s) /\ opaque_writes (rs_writes s).

(** A grid of [n] pixels, each fully transparent or opaque. *)
Definition tidy (n : nat) (image : list quad) : Prop :=
  length image = n /\
  forall q, q ∈ image -> q = (0, 0, 0, 0) \/ snd q = 255.

(** An outcome that is a value or an [IndexError]. *)
Definition only_index_error {A} (r : result A) : Prop :=
  match r with
  | Ok _ => True
  | Raise e => e = IndexError
  | Hang => False
  end.

(** A computation that can only fail on a subscript and, when it returns a
    grid, returns a tidy one. *)
Definition grid_safe (n : nat) (r : result (list quad)) : Prop :=
  only_index_error r /\ forall image, r = Ok image -> tidy n image.

(** The number of samples that the two loops of [writeIsometricTile] read
    for a tile of the given size. *)
Definition tile_samples (tileWidth tileHeight : Z) : nat :=
  sum_list
    ((fun y => length (range2 (tileHeight - 2 * (y + 1))
                              (tileWidth - (tileHeight - 2 * (y + 1)))))
       <$> range (Z.quot tileHeight 2)) +
  sum_list
    ((fun y => length (range2 (2 * y - tileHeight)
                              (tileWidth - (2 * y - tileHeight))))
       <$> range2 (Z.quot tileHeight 2) tileHeight).

(** [k] samples are consumed and the buffer holds them. *)
Definition consumed (buffer : list byte) (k : nat) (st : Z * list quad)
  : Prop :=
  fst st = 2 * Z.of_nat k /\ 2 * Z.of_nat k <= Z.of_nat (length buffer).

(** Where the base mosaic stands when it enters row [y] of the diamond:
    the number [i] of tiles read so far, all of them held by the buffer. *)
Definition mosaic_inv (buffer : list byte) (size tileBytes : Z) (y : Z)
    (st : Z * Z * list quad) : Prop :=
  let i := fst (fst st) in
  0 <= i /\ i * tileBytes <= Z.of_nat (length buffer) /\
  (y <= size -> 2 * i = y * (y + 1)) /\
  (size <= y -> 2 * i = 2 * size * size - (2 * size - 1 - y) * (2 * size - y)).

(** [sg[pos : pos + n]] *)
Definition bytes_at (sg : list byte) (pos n : Z) : list byte :=
  take (Z.to_nat n) (drop (Z.to_nat pos) sg).

(** The four bytes of an RGBA pixel in PIL's raw layout: red, green, blue,
    alpha. *)
Definition quad_bytes (q : quad) : list byte :=
  let '(r, g, b, a) := q in [byte_of r; byte_of g; byte_of b; byte_of a].

(** A byte string that [decode("ascii")] accepts. *)
Definition is_ascii (bs : list byte) : bool :=
  forallb (fun b => byte_val b <? 128) bs.

(** The pixel at list index [p] of a raster, fully transparent outside the
    list. *)
Definition cell (image : list quad) (p : nat) : quad :=
  default ((0, 0, 0, 0) : quad) (image !! p).

(** The first [n] pixels of a raster, padded with transparent pixels. *)
Definition raster_prefix (image : list quad) (n : nat) : list quad :=
  map (cell image) (seq 0 n).

(** The state of the sprite loop of [Bitmap.read_images] next to the state
    of [writeTransparentImage] on the same stream: the same read index and
    cursor, the bytes appended so far are the raster up to the cursor, and
    the raster is still transparent from the cursor on. *)
Definition sprite_sim (w : Z) (s : rle_state) (t : BitmapPy.sprite_state)
  : Prop :=
  BitmapPy.ss_i t = rs_i s /\ BitmapPy.ss_x t = rs_x s /\
  BitmapPy.ss_y t = rs_y s /\
  0 <= rs_x s < w /\ 0 <= rs_y s /\
  BitmapPy.ss_image t
  = concat (map quad_bytes
              (raster_prefix (rs_image s) (Z.to_nat (lin w s)))) /\
  (forall n : nat, (Z.to_nat (lin w s) <= n)%nat ->
                   cell (rs_image s) n = (0, 0, 0, 0)).

(** What the sprite loop of [Bitmap.read_images] keeps true once the read
    index has passed [i0]: the cursor column is not negative and the bytes
    appended so far are whole pixels. *)
Definition sprite_ok (i0 : Z) (s : BitmapPy.sprite_state) : Prop :=
  i0 <= BitmapPy.ss_i s /\ 0 <= BitmapPy.ss_x s /\
  Nat.divide 4 (length (BitmapPy.ss_image s)).

(** *** The sprite decoder as the specification words it

    The stream is a sequence of records, read from byte [i] for as long as
    [i] is below [length].  A control byte 255 is followed by a count [n]:
    the cursor moves on by [n] positions and nothing is written.  Any other
    control byte [c] is followed by [c] samples of two bytes, low byte
    first: each is decoded by the pixel decoder and written at the cursor,
    which then moves on by one.  The cursor is kept as the number [p] of
    positions passed since [(0, 0)]: with the row wrap it stands at column
    [p mod width] of row [p / width], which is list index [p] of the
    row-major grid.  The result is the list of the writes, in stream order,
    each a position and a pixel; [None] when the stream ends inside a
    record. *)

Definition spec_sample (lo hi : byte) : Z := byte_val lo + 256 * byte_val hi.

Fixpoint spec_opaque_run (width : Z) (stream : list byte) (i c : nat) (p : Z)
  : option (list (Z * quad)) :=
  match c with
  | O => Some []
  | S c' =>
      lo ← stream !! i;
      hi ← stream !! S i;
      rest ← spec_opaque_run width stream (S (S i)) c' (p + 1);
      Some ((p, rgba_tuple (set555Pixel (spec_sample lo hi) width)) :: rest)
  end.

Fixpoint spec_writes (fuel : nat) (width : Z) (stream : list byte)
    (length i p : Z) : option (list (Z * quad)) :=
  if length <=? i then Some []
  else
    match fuel with
    | O => None
    | S fuel' =>
        c ← stream !! Z.to_nat i;
        if byte_val c =? 255 then
          n ← stream !! Z.to_nat (i + 1);
          spec_writes fuel' width stream length (i + 2) (p + byte_val n)
        else
          ws ← spec_opaque_run width stream (Z.to_nat (i + 1))
                 (Z.to_nat (byte_val c)) p;
          rest ← spec_writes fuel' width stream length
                   (i + 1 + 2 * byte_val c) (p + byte_val c);
          Some (ws ++ rest)
    end.

(** Writing the pixels into a grid, each at its position; [None] when a
    position lies outside the grid. *)
Fixpoint spec_paint (grid : list quad) (ws : list (Z * quad))
  : option (list quad) :=
  match ws with
  | [] => Some grid
  | (p, v) :: ws' =>
      if (0 <=? p) && (p <? Z.of_nat (length grid))
      then spec_paint (<[Z.to_nat p := v]> grid) ws'
      else None
  end.

(** The decoder of the specification run on the first [length] bytes of
    [stream], anchored at cursor [(0, 0)], over [grid].  Every record
    takes at least one byte, so [length] records are never exceeded. *)
Definition spec_sprite (width : Z) (stream : list byte) (length : Z)
    (grid : list quad) : result (list quad) :=
  match spec_writes (Z.to_nat length) width stream length 0 0
        ≫= spec_paint grid with
  | Some grid' => Ok grid'
  | None => Raise IndexError
  end.

(** What a piece of the code's loop has to do with the writes [spec] that
    the specification lists for the same piece: an [Ok] ends on the grid
    painted with them, at read index [i'] and cursor position [p']; an
    exception is an [IndexError], and then the specification does not paint
    them either. *)
Definition matches_spec (w : Z) (s : rle_state) (r : result rle_state)
    (spec : option (list (Z * quad))) (i' p' : Z) : Prop :=
  match r with
  | Ok s' =>
      exists ws, spec = Some ws /\
                 spec_paint (rs_image s) ws = Some (rs_image s') /\
                 rs_writes s' = rs_writes s ++ ws /\
                 rs_i s' = i' /\ lin w s' = p' /\ cursor_ok w s'
  | Raise e =>
      e = IndexError /\
      forall ws, spec = Some ws -> spec_paint (rs_image s) ws = None
  | Hang => False
  end.

(** * Properties *)

(** ** Pixel decoder *)

Section PixelDecoder.

(** A masked source field moved by [k] bits stays below bit 24 when the
    mask does. *)
Lemma masked_field_below_alpha (c m k : Z) :
  0 <= m -> Z.log2 m + k < 24 ->
  Z.shiftr (Z.shiftl (Z.land c m) k) 24 = 0.
Proof.
  intros Hm Hk. apply Z.bits_inj'. intros n Hn.
  rewrite Z.shiftr_spec, Z.shiftl_spec, Z.land_spec, Z.bits_0 by lia.
  rewrite (Z.bits_above_log2 m) by lia.
  apply andb_false_r.
Qed.

Lemma expand555_alpha (c : Z) : Z.shiftr (expand555 c) 24 = 255.
Proof.
  unfold expand555. rewrite !Z.shiftr_lor.
  change (Z.shiftr (Z.land c 0x7c00) 7) with (Z.shiftl (Z.land c 0x7c00) (-7)).
  change (Z.shiftr (Z.land c 0x7000) 12) with (Z.shiftl (Z.land c 0x7000) (-12)).
  rewrite !masked_field_below_alpha by (cbn; lia).
  reflexivity.
Qed.

(** Every decoded pixel is opaque. *)
Lemma set555Pixel_opaque (colour w : Z) :
  snd (rgba_tuple (set555Pixel colour w)) = 255.
Proof.
  unfold set555Pixel, rgba_tuple. cbn [snd].
  destruct (colour =? 0xf81f); [reflexivity | apply expand555_alpha].
Qed.

End PixelDecoder.

(** C2 (as the code has it).  Sample [0x0000] decodes to [(0,0,0,255)];
    sample [0x7FFF] decodes to [(255,255,255,255)]: the low three bits of
    every channel are filled from the top three bits of its field. *)
Theorem set555Pixel_documented_samples (w : Z) :
  rgba_tuple (set555Pixel 0x0000 w) = (0, 0, 0, 255) /\
  rgba_tuple (set555Pixel 0x7FFF w) = (255, 255, 255, 255).
Proof. split; reflexivity. Qed.

(** C2, refuted as stated: the decode of [0x7FFF] is not
    [(248,248,248,255)]. *)
Lemma set555Pixel_7fff_not_248 :
  ~ (rgba_tuple (set555Pixel 0x0000 0) = (0, 0, 0, 255) /\
     rgba_tuple (set555Pixel 0x7FFF 0) = (248, 248, 248, 255)).
Proof. intros [_ H]. vm_compute in H. discriminate H. Qed.

(** C9.  The sample [0xF81F] decodes to opaque black [(0,0,0,255)] for any
    [width] argument; the value comes from the early return and not from the
    shift table, which would give another colour at this sample. *)
Theorem set555Pixel_key_colour (w : Z) :
  set555Pixel 0xF81F w = 0xff000000 /\
  rgba_tuple (set555Pixel 0xF81F w) = (0, 0, 0, 255) /\
  rgba_tuple (expand555 0xF81F) <> (0, 0, 0, 255).
Proof. repeat split. vm_compute. discriminate. Qed.

(** ** Python primitives *)

Section PyFacts.
Context {A : Type}.
Implicit Types (s : list A) (k : Z) (v : A).

Lemma norm_index_nonneg (len : nat) k :
  0 <= k < Z.of_nat len -> norm_index len k = Some (Z.to_nat k).
Proof.
  intros H. unfold norm_index.
  destruct (Z.leb_spec 0 k); [|lia].
  destruct (Z.ltb_spec k (Z.of_nat len)); [reflexivity|lia].
Qed.

Lemma norm_index_overflow (len : nat) k :
  Z.of_nat len <= k -> norm_index len k = None.
Proof.
  intros H. unfold norm_index.
  destruct (Z.leb_spec 0 k); [|lia].
  destruct (Z.ltb_spec k (Z.of_nat len)); [lia|reflexivity].
Qed.

Lemma getitem_lookup s k v :
  0 <= k -> s !! Z.to_nat k = Some v -> getitem s k = Ok v.
Proof.
  intros Hk Hs. unfold getitem.
  apply lookup_lt_Some in Hs as Hlt.
  rewrite norm_index_nonneg by lia. by rewrite Hs.
Qed.

Lemma getitem_Ok_inv s k v :
  0 <= k -> getitem s k = Ok v -> s !! Z.to_nat k = Some v.
Proof.
  intros Hk. unfold getitem.
  destruct (Z.lt_ge_cases k (Z.of_nat (length s))).
  - rewrite norm_index_nonneg by lia.
    destruct (s !! Z.to_nat k); [congruence|discriminate].
  - by rewrite norm_index_overflow.
Qed.

Lemma getitem_not_Hang s k : getitem s k <> Hang.
Proof.
  unfold getitem. destruct (norm_index _ _); [|discriminate].
  destruct (s !! _); discriminate.
Qed.

Lemma setitem_nonneg s k v :
  0 <= k < Z.of_nat (length s) ->
  setitem s k v = Ok (<[Z.to_nat k := v]> s).
Proof. intros H. unfold setitem. by rewrite norm_index_nonneg. Qed.

Lemma setitem_Ok_inv s k v s' :
  0 <= k -> setitem s k v = Ok s' ->
  k < Z.of_nat (length s) /\ s' = <[Z.to_nat k := v]> s.
Proof.
  intros Hk. unfold setitem.
  destruct (Z.lt_ge_cases k (Z.of_nat (length s))).
  - rewrite norm_index_nonneg by lia. intros [= <-]. done.
  - by rewrite norm_index_overflow.
Qed.

Lemma setitem_not_Hang s k v : setitem s k v <> Hang.
Proof. unfold setitem. destruct (norm_index _ _); discriminate. Qed.

Lemma getitem_drop s (n : nat) k :
  0 <= k -> getitem (drop n s) k = getitem s (Z.of_nat n + k).
Proof.
  intros Hk. unfold getitem. rewrite length_drop.
  destruct (Z.lt_ge_cases (Z.of_nat n + k) (Z.of_nat (length s))).
  - rewrite !norm_index_nonneg by lia.
    rewrite lookup_drop. by replace (n + Z.to_nat k)%nat
      with (Z.to_nat (Z.of_nat n + k)) by lia.
  - by rewrite !norm_index_overflow by lia.
Qed.

Lemma list_mul_singleton v (n m : Z) :
  list_mul (list_mul [v] n) m = replicate (Z.to_nat n * Z.to_nat m) v.
Proof.
  unfold list_mul.
  assert (Hn : forall j, concat (replicate j [v]) = replicate j v).
  { induction j as [|j IH]; [done|]. cbn. by rewrite IH. }
  rewrite Hn. generalize (Z.to_nat n) as a, (Z.to_nat m) as b.
  intros a b. induction b as [|b IH]; cbn.
  - by rewrite Nat.mul_0_r.
  - rewrite IH, <- replicate_add. f_equal. lia.
Qed.

Lemma range_length (n : Z) : length (range n) = Z.to_nat n.
Proof. unfold range. by rewrite length_map, length_seq. Qed.

End PyFacts.

(** The list that [read_image] starts from is the blank raster. *)
Lemma blank_list (w h : Z) :
  0 < w -> 0 < h ->
  list_mul (list_mul [(0, 0, 0, 0)] w) h =
  replicate (Z.to_nat (w * h)) ((0, 0, 0, 0) : quad).
Proof. intros Hw Hh. rewrite list_mul_singleton. f_equal. nia. Qed.

(** ** Verification and dispatch in [read_image] *)

Lemma verify_true_iff (self : Image) :
  fst (verify self) = true <->
  0 < width self /\ 0 < height self /\ 0 < length_ self.
Proof.
  unfold verify.
  destruct (Z.leb_spec (width self) 0), (Z.leb_spec (height self) 0),
    (Z.leb_spec (length_ self) 0); cbn; split; intros; try lia; try done.
Qed.

Lemma verify_true_log (self : Image) :
  fst (verify self) = true -> verify self = (true, []).
Proof.
  unfold verify.
  destruct ((width self <=? 0) || (height self <=? 0)); [done|].
  destruct (length_ self <=? 0); done.
Qed.

(** C8.  A record with [width <= 0], [height <= 0] or [length <= 0] makes
    [read_image] raise [ImageError]: the only event is the error that
    [verify] logs, so the companion file is neither positioned nor read,
    no decoder runs, and [self.image] is never assigned; the content of the
    companion file does not matter. *)
Theorem read_image_rejects_unverified (self : Image) (f555 : list byte) :
  width self <= 0 \/ height self <= 0 \/ length_ self <= 0 ->
  exists m, read_image self f555 = Outcome [Error m] (Some ImageError) false None.
Proof.
  intros H. unfold read_image, verify.
  destruct (Z.leb_spec (width self) 0), (Z.leb_spec (height self) 0);
    cbn; eauto.
  destruct (Z.leb_spec (length_ self) 0); cbn; [eauto | lia].
Qed.

Lemma read_image_rejects_unverified_witness :
  (2 <= 0 \/ 1 <= 0 \/ 0 <= 0) /\
  exists m,
    read_image (Samples.image_of plain 0 0 2 1 Samples.no_flags) [x00; x00]
    = Outcome [Error m] (Some ImageError) false None.
Proof.
  split; [lia|].
  apply (read_image_rejects_unverified
           (Samples.image_of plain 0 0 2 1 Samples.no_flags) [x00; x00]).
  cbn. lia.
Defined.

(** The part of [read_image] that precedes the dispatch, for a record that
    passes [verify] and whose slice can be addressed. *)
Lemma read_image_verified (self : Image) (f555 : list byte) (f0 : byte) :
  fst (verify self) = true ->
  flags self !! 0%nat = Some f0 ->
  byte_val f0 <= offset555 self ->
  let pos := offset555 self - byte_val f0 in
  let dataLength := length_ self + alphaLength self in
  let buffer := fst (fread (File f555 pos) dataLength) in
  let blank := replicate (Z.to_nat (width self * height self)) (0, 0, 0, 0) in
  let io := [Seek555 pos; Read555 dataLength] in
  read_image self f555 =
    match decode self buffer blank with
    | (log, Raise e) => Outcome (io ++ log) (Some e) false (Some blank)
    | (log, Hang) => Outcome (io ++ log) None true (Some blank)
    | (log, Ok None) => Outcome (io ++ log) None false (Some blank)
    | (log, Ok (Some image)) => Outcome (io ++ log) None false (Some image)
    end.
Proof.
  intros Hv Hf0 Hpos. cbv zeta.
  pose proof (proj1 (verify_true_iff self) Hv) as (Hw & Hh & Hl).
  unfold read_image. rewrite (verify_true_log self Hv). cbn [negb].
  rewrite (getitem_lookup (flags self) 0 f0) by (done || lia).
  unfold fseek, fopen. cbn [f_data].
  destruct (Z.ltb_spec (offset555 self - byte_val f0) 0); [lia|].
  rewrite blank_list by lia.
  destruct (fread _ _) as [buffer f'] eqn:Hrd. cbn [fst app].
  reflexivity.
Qed.

(** A code outside the table is reported and mapped to [unknown]. *)
Lemma get_img_type_unknown (code : Z) :
  ~ In code [0; 1; 10; 12; 13; 30; 256; 257; 276] ->
  get_img_type code = (unknown, [Error (UnknownType code)]).
Proof.
  intros H. unfold get_img_type, types. cbn.
  repeat match goal with
  | |- context [code =? ?k] =>
      destruct (Z.eqb_spec code k); [exfalso; apply H; subst; cbn; tauto|]
  end.
  reflexivity.
Qed.

(** C1 (as the code has it).  A type code outside the table
    [{0,1,10,12,13,30,256,257,276}] is logged as an error and becomes
    [ImgType.unknown]; [read_image] of such a record, once it passes
    [verify] and its slice is read, raises nothing, runs no decoder and
    leaves the all-transparent [width * height] raster in [self.image]. *)
Theorem unknown_type_yields_blank_image
    (code : Z) (self : Image) (f555 : list byte) (f0 : byte) :
  ~ In code [0; 1; 10; 12; 13; 30; 256; 257; 276] ->
  imgType self = fst (get_img_type code) ->
  fst (verify self) = true ->
  flags self !! 0%nat = Some f0 ->
  byte_val f0 <= offset555 self ->
  get_img_type code = (unknown, [Error (UnknownType code)]) /\
  read_image self f555 =
    Outcome [Seek555 (offset555 self - byte_val f0);
             Read555 (length_ self + alphaLength self)]
            None false
            (Some (replicate (Z.to_nat (width self * height self))
                             (0, 0, 0, 0))).
Proof.
  intros Hcode Hty Hv Hf0 Hpos.
  pose proof (get_img_type_unknown code Hcode) as Hg.
  split; [exact Hg|].
  rewrite (read_image_verified self f555 f0 Hv Hf0 Hpos).
  unfold decode. rewrite Hty, Hg. reflexivity.
Qed.

Lemma unknown_type_yields_blank_image_witness :
  get_img_type 2 = (unknown, [Error (UnknownType 2)]) /\
  read_image (Samples.image_of unknown 2 0 1 1 Samples.no_flags) [x00; x00]
  = Outcome [Seek555 0; Read555 2] None false (Some [(0, 0, 0, 0)]).
Proof.
  apply (unknown_type_yields_blank_image 2
           (Samples.image_of unknown 2 0 1 1 Samples.no_flags)
           [x00; x00] x00).
  - cbn. lia.
  - reflexivity.
  - reflexivity.
  - reflexivity.
  - cbn. lia.
Defined.

(** C1, refuted as stated: the record with type code 2 (not in the table),
    read from its header bytes, is decoded without any exception and the
    stored image is the blank 1x1 raster. *)
Lemma unknown_type_is_not_raised :
  match read_header (Samples.header 0 2 0 1 1 2 Samples.no_flags) 0 false 0
  with
  | (log, Ok self) =>
      log = [Error (UnknownType 2)] /\
      imgType self = unknown /\
      out_raised (read_image self [x00; x00]) = None /\
      out_image (read_image self [x00; x00]) = Some [(0, 0, 0, 0)]
  | _ => False
  end.
Proof. vm_compute. repeat split. Qed.

(** ** Tile geometry of the isometric decoder *)




(** The isometric branch returns early, with an error logged, whenever the
    footprint does not match the declared base length. *)
Lemma read_isometric_mismatch (self : Image) (f3 : byte) buffer image :
  flags self !! 3%nat = Some f3 ->
  (width self + 2) * Z.quot (width self + 2) 2 <> uncompressedLength self ->
  exists log m,
    read_isometric self buffer image = (log ++ [Error m], Ok None) /\
    match m with
    | UnknownTileSize _ _ _ | FootprintMismatch _ _ => True
    | _ => False
    end.
Proof.
  intros Hf3 Hne. unfold read_isometric.
  rewrite (getitem_lookup (flags self) 3 f3) by (done || lia).
  destruct (derive_size _ _) as [size log].
  destruct (tile_profile _ _) as [[[tb th] tw]|].
  - destruct (Z.eqb_spec ((width self + 2) * Z.quot (width self + 2) 2)
                (uncompressedLength self)); [contradiction|].
    cbn [negb]. eexists _, _. split; [reflexivity|exact I].
  - eexists _, _. split; [reflexivity|exact I].
Qed.

(** C6 (as the code has it).  For an isometric record that passes [verify]
    and whose slice is read, a footprint [(width + 2) * baseHeight] different
    from [uncompressedLength] makes [read_image] log an error ("Unknown tile
    size" or "Data length doesn't match footprint size") and return early:
    no exception is raised, neither the mosaic nor the overlay is decoded,
    and [self.image] is left as the blank raster created before the
    dispatch.  The one record that does not get as far is one whose flags
    field holds fewer than four bytes (a header cut short): there
    [flags[3]] raises [IndexError], again with the blank raster in
    [self.image] and nothing decoded. *)
Theorem footprint_mismatch_logged_not_raised
    (self : Image) (f555 : list byte) (f0 : byte) :
  imgType self = isometric ->
  fst (verify self) = true ->
  flags self !! 0%nat = Some f0 ->
  byte_val f0 <= offset555 self ->
  (width self + 2) * Z.quot (width self + 2) 2 <> uncompressedLength self ->
  let io := [Seek555 (offset555 self - byte_val f0);
             Read555 (length_ self + alphaLength self)] in
  let blank := replicate (Z.to_nat (width self * height self)) (0, 0, 0, 0) in
  if decide (4 <= length (flags self))%nat then
    exists log m,
      read_image self f555
      = Outcome (io ++ log ++ [Error m]) None false (Some blank) /\
      match m with
      | UnknownTileSize _ _ _ | FootprintMismatch _ _ => True
      | _ => False
      end
  else
    read_image self f555 = Outcome io (Some IndexError) false (Some blank).
Proof.
  intros Hty Hv Hf0 Hpos Hne io blank.
  rewrite (read_image_verified self f555 f0 Hv Hf0 Hpos).
  unfold decode. rewrite Hty.
  destruct (decide (4 <= length (flags self))%nat) as [Hlen|Hlen].
  - destruct (lookup_lt_is_Some_2 (flags self) 3 ltac:(lia)) as [f3 Hf3].
    edestruct (read_isometric_mismatch self f3) as (log & m & -> & Hm);
      [done..|].
    exists log, m. split; [reflexivity|exact Hm].
  - unfold read_isometric, getitem.
    rewrite norm_index_overflow by lia.
    unfold io. by rewrite app_nil_r.
Qed.

Lemma footprint_mismatch_logged_not_raised_witness :
  exists log m,
    read_image (Samples.image_of isometric 1801 1799 58 30 Samples.no_flags) []
    = Outcome ([Seek555 0; Read555 1801] ++ log ++ [Error m]) None false
              (Some (replicate 1740 (0, 0, 0, 0))) /\
    match m with
    | UnknownTileSize _ _ _ | FootprintMismatch _ _ => True
    | _ => False
    end.
Proof.
  apply (footprint_mismatch_logged_not_raised
           (Samples.image_of isometric 1801 1799 58 30 Samples.no_flags)
           [] x00); try reflexivity; cbn; lia.
Defined.

(** C6, refuted as stated: for the 58x30 isometric record with
    [uncompressedLength = 1799] (the footprint is 1800) [read_image] raises
    nothing, and [self.image] holds a raster. *)
Lemma footprint_mismatch_is_not_raised :
  let self := Samples.image_of isometric 1801 1799 58 30 Samples.no_flags in
  (width self + 2) * Z.quot (width self + 2) 2 <> uncompressedLength self /\
  out_raised (read_image self []) = None /\
  out_events (read_image self []) =
    [Seek555 0; Read555 1801; Error (FootprintMismatch 1800 1799)] /\
  out_image (read_image self []) = Some (replicate 1740 (0, 0, 0, 0)).
Proof. vm_compute. repeat split. discriminate. Qed.

(** ** Loops *)

Section ForEach.
Context {A S : Type}.
Implicit Types (body : A -> S -> result S) (st : S).

Lemma for_each_app (l1 l2 : list A) body st :
  for_each (l1 ++ l2) body st = bind (for_each l1 body st) (for_each l2 body).
Proof.
  revert st. induction l1 as [|a l1 IH]; intros st; cbn; [done|].
  destruct (body a st); cbn; auto.
Qed.

End ForEach.

Lemma range_range2 (n : Z) : range n = range2 0 n.
Proof. unfold range, range2. by rewrite Z.sub_0_r. Qed.

(** Floyd-style rule for [for k in range(a, b)]: an invariant indexed by
    the loop variable, established by every iteration, holds at exit and the
    loop raises nothing. *)
Lemma for_each_range2_inv {S} (P : Z -> S -> Prop) (a b : Z)
    (body : Z -> S -> result S) (st : S) :
  P a st ->
  (forall k s, a <= k < b -> P k s ->
               exists s', body k s = Ok s' /\ P (k + 1) s') ->
  exists s', for_each (range2 a b) body st = Ok s' /\ P (Z.max a b) s'.
Proof.
  intros H0 Hstep. unfold range2.
  assert (Hgen : forall n j st,
    a + Z.of_nat j + Z.of_nat n <= Z.max a b ->
    P (a + Z.of_nat j) st ->
    exists s', for_each (map (fun k => a + Z.of_nat k) (seq j n)) body st
               = Ok s' /\ P (a + Z.of_nat j + Z.of_nat n) s').
  { induction n as [|n IH]; intros j st0 Hle HP.
    - exists st0. split; [done|]. by rewrite Z.add_0_r.
    - cbn [seq map for_each].
      destruct (Hstep (a + Z.of_nat j) st0) as (s1 & -> & HP1); [lia|done|].
      cbn [bind].
      destruct (IH (Datatypes.S j) s1) as (s2 & -> & HP2).
      + lia.
      + by replace (a + Z.of_nat (Datatypes.S j)) with (a + Z.of_nat j + 1) by lia.
      + exists s2. split; [done|].
        by replace (a + Z.of_nat j + Z.of_nat (Datatypes.S n))
          with (a + Z.of_nat (Datatypes.S j) + Z.of_nat n) by lia. }
  destruct (Hgen (Z.to_nat (b - a)) 0%nat st) as (s' & Hs' & HP).
  - lia.
  - by rewrite Z.add_0_r.
  - exists s'. split; [done|].
    by replace (Z.max a b) with (a + Z.of_nat 0 + Z.of_nat (Z.to_nat (b - a)))
      by lia.
Qed.

Lemma for_each_range_inv {S} (P : Z -> S -> Prop) (n : Z)
    (body : Z -> S -> result S) (st : S) :
  P 0 st ->
  (forall k s, 0 <= k < n -> P k s ->
               exists s', body k s = Ok s' /\ P (k + 1) s') ->
  exists s', for_each (range n) body st = Ok s' /\ P (Z.max 0 n) s'.
Proof. rewrite range_range2. apply for_each_range2_inv. Qed.

(** ** The plain decoder *)

Section Plain.
Variable self : Image.
Variable buffer : list byte.
Hypothesis width_pos : 0 < width self.
Hypothesis height_pos : 0 < height self.
Hypothesis buffer_long :
  2 * (width self * height self) <= Z.of_nat (length buffer).

Lemma plain_pixel_step (y x : Z) (st : Z * list quad) :
  0 <= y < height self -> 0 <= x < width self ->
  plain_inv self buffer (y * width self + x) st ->
  exists st', plain_pixel self buffer y x st = Ok st' /\
              plain_inv self buffer (y * width self + x + 1) st'.
Proof.
  intros Hy Hx (Hi & Hlen & Hdone). destruct st as [i image].
  cbn [fst snd] in *. set (k := y * width self + x) in *.
  assert (Hk : 0 <= k < width self * height self) by (unfold k; nia).
  destruct (lookup_lt_is_Some_2 buffer (Z.to_nat (2 * k))) as [lo Hlo]; [lia|].
  destruct (lookup_lt_is_Some_2 buffer (Z.to_nat (2 * k + 1))) as [hi Hhi];
    [lia|].
  unfold plain_pixel. subst i.
  rewrite (getitem_lookup buffer (2 * k) lo) by (done || lia).
  rewrite (getitem_lookup buffer (2 * k + 1) hi) by (done || lia).
  cbn. fold k. rewrite setitem_nonneg by lia. cbn.
  eexists. split; [reflexivity|].
  split; [cbn; lia|]. split; [cbn; by rewrite length_insert|].
  cbn [snd]. intros j Hj.
  destruct (Z.eq_dec j k) as [->|Hne].
  - eexists. split; [apply list_lookup_insert_eq; lia|].
    exists lo, hi. done.
  - destruct (Hdone j) as (q & Hq & Hd); [lia|].
    exists q. split; [|done].
    rewrite list_lookup_insert_ne by lia. done.
Qed.

Lemma read_plain_spec (image : list quad) :
  length image = Z.to_nat (width self * height self) ->
  exists st, read_plain self buffer image = Ok st /\
             plain_inv self buffer (width self * height self) st.
Proof.
  intros Hlen. unfold read_plain.
  destruct (for_each_range_inv
              (fun y => plain_inv self buffer (y * width self)) (height self)
              (fun y => for_each (range (width self))
                                 (plain_pixel self buffer y))
              (0, image)) as (st & Hst & Hinv).
  - split; [cbn; lia|]. split; [done|]. intros j Hj. lia.
  - intros y st Hy Hinv.
    destruct (for_each_range_inv
                (fun x => plain_inv self buffer (y * width self + x)) (width self)
                (plain_pixel self buffer y) st) as (st' & Hst' & Hinv').
    + by rewrite Z.add_0_r.
    + intros x s Hx Hs.
      destruct (plain_pixel_step y x s) as (s' & Hs' & Hi'); [lia..|done|].
      exists s'. split; [done|]. by rewrite <- Z.add_assoc in Hi'.
    + exists st'. split; [done|].
      by replace ((y + 1) * width self)
        with (y * width self + Z.max 0 (width self)) by lia.
  - exists st. split; [done|].
    by replace (width self * height self)
      with (Z.max 0 (height self) * width self) by lia.
Qed.

End Plain.

(** C3.  For a plain record with [width > 0], [height > 0] and a slice of
    at least [width * height * 2] bytes, the decoder raises nothing, ends
    with the read index at [2 * width * height] (it has consumed exactly
    [width * height] two-byte samples from the start of the slice, row after
    row), and the cell [(row, col)] of the grid, at list index
    [row * width + col], holds the decode of the little-endian sample number
    [row * width + col]. *)
Theorem read_plain_row_major (self : Image) (buffer : list byte) :
  imgType self = plain ->
  0 < width self -> 0 < height self ->
  2 * (width self * height self) <= Z.of_nat (length buffer) ->
  let blank := replicate (Z.to_nat (width self * height self)) (0, 0, 0, 0) in
  exists image,
    read_plain self buffer blank = Ok (2 * (width self * height self), image) /\
    decode self buffer blank = ([], Ok (Some image)) /\
    length image = Z.to_nat (width self * height self) /\
    forall row col, 0 <= row < height self -> 0 <= col < width self ->
      exists lo hi,
        buffer !! Z.to_nat (2 * (row * width self + col)) = Some lo /\
        buffer !! Z.to_nat (2 * (row * width self + col) + 1) = Some hi /\
        image !! Z.to_nat (row * width self + col)
        = Some (rgba_tuple (set555Pixel (sample16 lo hi) (width self))).
Proof.
  intros Hty Hw Hh Hbuf blank.
  destruct (read_plain_spec self buffer Hw Hh Hbuf blank)
    as ([i image] & Hrun & Hi & Hlen & Hcells).
  { unfold blank. by rewrite length_replicate. }
  cbn [fst snd] in *. subst i.
  exists image. split; [done|]. split.
  { unfold decode. rewrite Hty, Hrun. reflexivity. }
  split; [done|].
  intros row col Hrow Hcol.
  destruct (Hcells (row * width self + col)) as (q & Hq & lo & hi & Hlo & Hhi & ->);
    [nia|].
  exists lo, hi. done.
Qed.

(** The 2x1 image of the specification: bytes [00 00 FF 7F]. *)
Lemma read_plain_row_major_witness :
  exists image,
    read_plain (Samples.image_of plain 4 0 2 1 Samples.no_flags)
               [x00; x00; xff; x7f] [(0, 0, 0, 0); (0, 0, 0, 0)]
    = Ok (4, image) /\
    image !! 0%nat = Some (0, 0, 0, 255) /\
    image !! 1%nat = Some (255, 255, 255, 255).
Proof.
  destruct (read_plain_row_major
              (Samples.image_of plain 4 0 2 1 Samples.no_flags)
              [x00; x00; xff; x7f] eq_refl eq_refl eq_refl)
    as (image & Hrun & _ & _ & Hcells).
  { cbn. lia. }
  exists image. split; [exact Hrun|].
  split.
  - destruct (Hcells 0 0) as (lo & hi & Hlo & Hhi & Hq); [cbn; lia..|].
    cbn in Hlo, Hhi. injection Hlo as <-. injection Hhi as <-. exact Hq.
  - destruct (Hcells 0 1) as (lo & hi & Hlo & Hhi & Hq); [cbn; lia..|].
    cbn in Hlo, Hhi. injection Hlo as <-. injection Hhi as <-. exact Hq.
Defined.

(** ** The run-length decoder *)

Lemma bind_Ok_inv {A B} (m : result A) (f : A -> result B) (b : B) :
  m ≫= f = Ok b -> exists a, m = Ok a /\ f a = Ok b.
Proof. destruct m; cbn; [eauto | discriminate..]. Qed.

Ltac simpl_bind := cbn [mbind result_bind bind fst snd].

Lemma wrap_rows_spec (fuel : nat) (w x y : Z) :
  0 < w -> 0 <= x -> x < w + Z.of_nat fuel * w ->
  exists x' y', wrap_rows fuel w x y = Ok (x', y') /\
                0 <= x' < w /\ y <= y' /\ y' * w + x' = y * w + x.
Proof.
  intros Hw. revert x y.
  induction fuel as [|fuel IH]; intros x y Hx Hlt; cbn [wrap_rows].
  - destruct (Z.leb_spec w x); [lia|]. exists x, y. repeat split; lia.
  - destruct (Z.leb_spec w x).
    + destruct (IH (x - w) (y + 1)) as (x' & y' & -> & ? & ? & ?); [lia..|].
      exists x', y'. repeat split; lia.
    + exists x, y. repeat split; lia.
Qed.

Lemma extends_refl s : extends s s.
Proof. split; [exists []; by rewrite app_nil_r | lia]. Qed.

Lemma extends_trans s s1 s2 : extends s s1 -> extends s1 s2 -> extends s s2.
Proof.
  intros [[w1 H1] Hi1] [[w2 H2] Hi2]. split; [|lia].
  exists (w1 ++ w2). by rewrite H2, H1, app_assoc.
Qed.

Lemma agree_extends J s s1 :
  extends s s1 -> agree J (rs_writes s1) -> agree J (rs_writes s).
Proof.
  intros [[ws Hws] _] HJ p v Hin. apply HJ. rewrite Hws.
  apply elem_of_app. by left.
Qed.

Section RleFacts.
Variable w : Z.
Variable buf : list byte.
Variable B : list quad.
Hypothesis w_pos : 0 < w.

Lemma rle_pixel_facts (s s1 : rle_state) :
  rle_inv w B s -> rle_pixel w buf s = Ok s1 ->
  rle_inv w B s1 /\ extends s s1 /\ rs_i s1 = rs_i s + 2 /\
  reruns s s1 (rle_pixel w buf).
Proof.
  intros ((Hi & Hx & Hy) & Hlen & Hbehind & Hagree & Hframe) Hrun.
  unfold rle_pixel in Hrun.
  apply bind_Ok_inv in Hrun as (lo & Hlo & Hrun).
  apply bind_Ok_inv in Hrun as (hi & Hhi & Hrun).
  apply bind_Ok_inv in Hrun as (image & Hset & Hrun).
  set (q := rgba_tuple (set555Pixel (sample16 lo hi) w)) in *.
  set (pos := rs_y s * w + rs_x s) in *.
  assert (Hpos : 0 <= pos) by (unfold pos; nia).
  apply setitem_Ok_inv in Hset as [Hlt ->]; [|done].
  assert (Hxy : exists x' y',
    (if w <=? rs_x s + 1 then (0, rs_y s + 1) else (rs_x s + 1, rs_y s))
    = (x', y') /\ 0 <= x' < w /\ 0 <= y' /\ y' * w + x' = pos + 1).
  { destruct (Z.leb_spec w (rs_x s + 1)); eexists _, _;
      (split; [reflexivity|]); unfold pos; repeat split; nia. }
  destruct Hxy as (x' & y' & Hif & Hx' & Hy' & Hlin).
  rewrite Hif in Hrun. injection Hrun as <-.
  repeat split; cbn [rs_i rs_x rs_y rs_image rs_writes]; try lia.
  - by rewrite length_insert.
  - apply elem_of_app in H as [H|H].
    + apply Hbehind in H. lia.
    + apply list_elem_of_singleton in H. injection H as -> _. lia.
  - unfold lin; cbn. apply elem_of_app in H as [H|H].
    + apply Hbehind in H. unfold lin in H. fold pos in H. lia.
    + apply list_elem_of_singleton in H. injection H as -> _. lia.
  - intros p v Hin. apply elem_of_app in Hin as [Hin|Hin].
    + pose proof (Hbehind _ _ Hin) as Hp. unfold lin in Hp. fold pos in Hp.
      rewrite list_lookup_insert_ne by lia. by apply Hagree.
    + apply list_elem_of_singleton in Hin. injection Hin as -> ->.
      apply list_lookup_insert_eq. lia.
  - intros n Hn.
    assert (n <> Z.to_nat pos).
    { intros ->. apply (Hn q). apply elem_of_app. right.
      rewrite Z2Nat.id by done. apply list_elem_of_singleton. done. }
    rewrite list_lookup_insert_ne by done. apply Hframe.
    intros v Hin. apply (Hn v). apply elem_of_app. by left.
  - eexists. reflexivity.
  - intros J W HJ. unfold rle_pixel, with_image.
    cbn [rs_i rs_x rs_y rs_image rs_writes].
    rewrite Hlo, Hhi. cbn. fold q pos.
    assert (HJq : J !! Z.to_nat pos = Some q).
    { apply HJ. apply elem_of_app. right. by apply list_elem_of_singleton. }
    apply lookup_lt_Some in HJq as HJlt.
    rewrite setitem_nonneg by lia. cbn.
    rewrite Hif, list_insert_id by done.
    eexists. reflexivity.
Qed.

Lemma rle_pixels_facts {A} (l : list A) (s s1 : rle_state) :
  rle_inv w B s -> for_each l (fun _ => rle_pixel w buf) s = Ok s1 ->
  rle_inv w B s1 /\ extends s s1 /\
  reruns s s1 (for_each l (fun _ => rle_pixel w buf)).
Proof.
  revert s. induction l as [|a l IH]; intros s Hinv Hrun; cbn [for_each] in *.
  - injection Hrun as <-. split; [done|]. split; [apply extends_refl|].
    intros J W _. by exists W.
  - apply bind_Ok_inv in Hrun as (sm & Hpix & Hrest).
    destruct (rle_pixel_facts s sm Hinv Hpix) as (Hinvm & Hext & _ & Hre).
    destruct (IH sm Hinvm Hrest) as (Hinv1 & Hext1 & Hre1).
    split; [done|]. split; [by eapply extends_trans|].
    intros J W HJ.
    destruct (Hre J W) as [Wm ->]; [by eapply agree_extends|].
    cbn [bind]. by apply Hre1.
Qed.

Lemma byte_val_range (b : byte) : 0 <= byte_val b <= 255.
Proof.
  unfold byte_val. pose proof (Byte.to_N_bounded b). lia.
Qed.

Lemma rle_step_facts (s s1 : rle_state) :
  rle_inv w B s -> rle_step w buf s = Ok s1 ->
  rle_inv w B s1 /\ extends s s1 /\ rs_i s + 1 <= rs_i s1 /\
  reruns s s1 (rle_step w buf).
Proof.
  intros Hinv Hrun.
  pose proof Hinv as ((Hi & Hx & Hy) & Hlen & Hbehind & Hagree & Hframe).
  unfold rle_step in Hrun.
  apply bind_Ok_inv in Hrun as (c & Hc & Hrun).
  destruct (byte_val c =? 255) eqn:Hskip.
  - apply bind_Ok_inv in Hrun as (n & Hn & Hrun).
    pose proof (byte_val_range n) as Hnr.
    destruct (wrap_rows_spec (Datatypes.S (Z.to_nat (rs_x s + byte_val n))) w
                (rs_x s + byte_val n) (rs_y s))
      as (x' & y' & Hwrap & Hx' & Hy' & Hlin); [lia | lia | nia |].
    rewrite Hwrap in Hrun. cbn in Hrun. injection Hrun as <-.
    split; [|split; [|split]].
    + repeat split; cbn [rs_i rs_x rs_y rs_image rs_writes]; try lia; try done.
      * apply Hbehind in H. lia.
      * apply Hbehind in H. unfold lin in *. cbn. lia.
    + split; cbn; [exists []; by rewrite app_nil_r | lia].
    + cbn. lia.
    + intros J W HJ. unfold rle_step, with_image.
      cbn [rs_i rs_x rs_y rs_image rs_writes].
      rewrite Hc. simpl_bind. rewrite Hskip, Hn. simpl_bind.
      rewrite Hwrap. simpl_bind. by exists W.
  - set (s' := RleState (rs_i s + 1) (rs_x s) (rs_y s) (rs_image s)
                        (rs_writes s)) in *.
    assert (Hinv' : rle_inv w B s').
    { unfold rle_inv, cursor_ok, lin, s'.
      cbn [rs_i rs_x rs_y rs_image rs_writes].
      repeat split; try lia; try done;
        apply Hbehind in H; unfold lin in H; lia. }
    destruct (rle_pixels_facts _ s' s1 Hinv' Hrun) as (Hinv1 & Hext & Hre).
    split; [done|]. split; [|split].
    + destruct Hext as [Hws Hi1]. split; [done|]. cbn in Hi1. lia.
    + destruct Hext as [_ Hi1]. cbn in Hi1. lia.
    + intros J W HJ. unfold rle_step, with_image.
      cbn [rs_i rs_x rs_y rs_image rs_writes].
      rewrite Hc. simpl_bind. rewrite Hskip.
      apply (Hre J W HJ).
Qed.

Lemma rle_loop_stop (fuel : nat) (L : Z) (s : rle_state) :
  L <= rs_i s -> rle_loop fuel w buf L s = Ok s.
Proof.
  intros H. destruct fuel; cbn [rle_loop];
    destruct (Z.ltb_spec (rs_i s) L); (lia || done).
Qed.

(** The loop keeps the invariant, and a second run from the same cursor,
    with a bound that is not larger, on a grid that holds the writes of the
    first run, terminates and hands that grid back. *)
Lemma rle_loop_facts (fuel : nat) (L : Z) (s s1 : rle_state) :
  rle_inv w B s -> rle_loop fuel w buf L s = Ok s1 ->
  rle_inv w B s1 /\ extends s s1 /\
  forall L' fuel' J W,
    L' <= L -> agree J (rs_writes s1) ->
    (Z.to_nat (L' - rs_i s) <= fuel')%nat ->
    exists s2, rle_loop fuel' w buf L' (with_image s J W) = Ok s2 /\
               rs_image s2 = J.
Proof.
  revert s. induction fuel as [|fuel IH]; intros s Hinv Hrun;
    cbn [rle_loop] in Hrun; destruct (Z.ltb_spec (rs_i s) L) as [Hlt|Hge];
    try discriminate.
  - injection Hrun as <-. split; [done|]. split; [apply extends_refl|].
    intros L' fuel' J W HL _ _. exists (with_image s J W).
    split; [|reflexivity]. apply rle_loop_stop. cbn. lia.
  - apply bind_Ok_inv in Hrun as (sm & Hstep & Hrest).
    destruct (rle_step_facts s sm Hinv Hstep) as (Hinvm & Hext & Him & Hre).
    destruct (IH sm Hinvm Hrest) as (Hinv1 & Hext1 & Hre1).
    split; [done|]. split; [by eapply extends_trans|].
    intros L' fuel' J W HL HJ Hfuel.
    destruct (Z.lt_ge_cases (rs_i s) L') as [Hlt'|Hge'].
    + destruct fuel' as [|fuel']; [lia|]. cbn [rle_loop].
      replace (rs_i (with_image s J W) <? L') with true
        by (symmetry; apply Z.ltb_lt; cbn; lia).
      destruct (Hre J W) as [Wm ->]; [by eapply agree_extends|].
      cbn. apply Hre1; [done..|lia].
    + exists (with_image s J W).
      split; [|reflexivity]. apply rle_loop_stop. cbn. lia.
  - injection Hrun as <-. split; [done|]. split; [apply extends_refl|].
    intros L' fuel' J W HL _ _. exists (with_image s J W).
    split; [|reflexivity]. apply rle_loop_stop. cbn. lia.
Qed.

End RleFacts.

(** *** Decoding the tail of a buffer and decoding from an offset *)

Section RleShift.
Variable w : Z.
Variable buf : list byte.
Variable k : nat.

Lemma rle_pixel_index (b : list byte) (s s1 : rle_state) :
  rle_pixel w b s = Ok s1 -> rs_i s1 = rs_i s + 2.
Proof.
  unfold rle_pixel. intros H.
  apply bind_Ok_inv in H as (lo & _ & H).
  apply bind_Ok_inv in H as (hi & _ & H).
  apply bind_Ok_inv in H as (image & _ & H).
  destruct (w <=? rs_x s + 1); injection H as <-; reflexivity.
Qed.

Lemma rle_pixels_index {A} (b : list byte) (l : list A) (s s1 : rle_state) :
  for_each l (fun _ => rle_pixel w b) s = Ok s1 -> rs_i s <= rs_i s1.
Proof.
  revert s. induction l as [|a l IH]; intros s H; cbn [for_each] in H.
  - injection H as <-. lia.
  - apply bind_Ok_inv in H as (sm & Hp & H).
    apply rle_pixel_index in Hp. apply IH in H. lia.
Qed.

Lemma rle_step_index (b : list byte) (s s1 : rle_state) :
  rle_step w b s = Ok s1 -> rs_i s + 1 <= rs_i s1.
Proof.
  unfold rle_step. intros H.
  apply bind_Ok_inv in H as (c & _ & H).
  destruct (byte_val c =? 255).
  - apply bind_Ok_inv in H as (n & _ & H).
    apply bind_Ok_inv in H as (xy & _ & H).
    injection H as <-. cbn. lia.
  - apply rle_pixels_index in H. cbn in H. lia.
Qed.

Lemma rle_pixel_shift (s : rle_state) :
  0 <= rs_i s ->
  rle_pixel w buf (shift (Z.of_nat k) s)
  = result_map (shift (Z.of_nat k)) (rle_pixel w (drop k buf) s).
Proof.
  intros Hi. unfold rle_pixel, shift.
  cbn [rs_i rs_x rs_y rs_image rs_writes].
  rewrite !getitem_drop by lia.
  replace (Z.of_nat k + rs_i s) with (rs_i s + Z.of_nat k) by lia.
  replace (Z.of_nat k + (rs_i s + 1)) with (rs_i s + Z.of_nat k + 1) by lia.
  destruct (getitem buf (rs_i s + Z.of_nat k)) as [lo| |]; [|done..].
  destruct (getitem buf (rs_i s + Z.of_nat k + 1)) as [hi| |]; [|done..].
  simpl_bind.
  destruct (setitem (rs_image s) _ _) as [image| |]; [|done..].
  simpl_bind.
  destruct (w <=? rs_x s + 1); cbn [result_map]; unfold shift;
    cbn [rs_i rs_x rs_y rs_image rs_writes]; do 2 f_equal; lia.
Qed.

Lemma rle_pixels_shift {A} (l : list A) (s : rle_state) :
  0 <= rs_i s ->
  for_each l (fun _ => rle_pixel w buf) (shift (Z.of_nat k) s)
  = result_map (shift (Z.of_nat k))
               (for_each l (fun _ => rle_pixel w (drop k buf)) s).
Proof.
  revert s. induction l as [|a l IH]; intros s Hi; cbn [for_each]; [done|].
  rewrite rle_pixel_shift by done.
  destruct (rle_pixel w (drop k buf) s) as [sm| |] eqn:Hp; [|done..].
  cbn [result_map bind]. apply IH.
  apply rle_pixel_index in Hp. lia.
Qed.

Lemma rle_step_shift (s : rle_state) :
  0 <= rs_i s ->
  rle_step w buf (shift (Z.of_nat k) s)
  = result_map (shift (Z.of_nat k)) (rle_step w (drop k buf) s).
Proof.
  intros Hi. unfold rle_step.
  rewrite !getitem_drop by lia.
  cbn [shift rs_i rs_x rs_y rs_image rs_writes].
  replace (Z.of_nat k + rs_i s) with (rs_i s + Z.of_nat k) by lia.
  replace (Z.of_nat k + (rs_i s + 1)) with (rs_i s + Z.of_nat k + 1) by lia.
  destruct (getitem buf (rs_i s + Z.of_nat k)) as [c| |]; [|done..].
  simpl_bind. destruct (byte_val c =? 255).
  - destruct (getitem buf (rs_i s + Z.of_nat k + 1)) as [n| |]; [|done..].
    simpl_bind.
    destruct (wrap_rows _ _ _ _) as [xy| |]; [|done..].
    simpl_bind. cbn [result_map]. unfold shift. cbn. do 2 f_equal. lia.
  - pose proof (rle_pixels_shift (range (byte_val c))
                  (RleState (rs_i s + 1) (rs_x s) (rs_y s) (rs_image s)
                            (rs_writes s))) as H.
    unfold shift at 1 in H. cbn [rs_i rs_x rs_y rs_image rs_writes] in H.
    replace (rs_i s + 1 + Z.of_nat k) with (rs_i s + Z.of_nat k + 1) in H
      by lia.
    apply H. lia.
Qed.

Lemma rle_loop_shift (fuel : nat) (L : Z) (s : rle_state) :
  0 <= rs_i s ->
  rle_loop fuel w buf (L + Z.of_nat k) (shift (Z.of_nat k) s)
  = result_map (shift (Z.of_nat k)) (rle_loop fuel w (drop k buf) L s).
Proof.
  revert s. induction fuel as [|fuel IH]; intros s Hi; cbn [rle_loop];
    cbn [shift rs_i];
    destruct (Z.ltb_spec (rs_i s + Z.of_nat k) (L + Z.of_nat k)),
             (Z.ltb_spec (rs_i s) L); try lia; try done.
  change (RleState (rs_i s + Z.of_nat k) (rs_x s) (rs_y s) (rs_image s)
                   (rs_writes s)) with (shift (Z.of_nat k) s).
  rewrite rle_step_shift by done.
  destruct (rle_step w (drop k buf) s) as [sm| |] eqn:Hs; [|done..].
  simpl_bind. cbn [result_map]. apply IH.
  apply rle_step_index in Hs. lia.
Qed.

End RleShift.

(** *** Termination and the overlay pass *)

Lemma for_each_not_Hang {A S} (l : list A) (body : A -> S -> result S) (st : S) :
  (forall a s, body a s <> Hang) -> for_each l body st <> Hang.
Proof.
  intros Hb. revert st. induction l as [|a l IH]; intros st; cbn; [done|].
  destruct (body a st) eqn:E; cbn; [apply IH | done | by apply Hb in E].
Qed.

Lemma rle_pixel_not_Hang (w : Z) (buf : list byte) (s : rle_state) :
  rle_pixel w buf s <> Hang.
Proof.
  unfold rle_pixel.
  destruct (getitem buf (rs_i s)) eqn:E1; simpl_bind;
    [|done|by apply getitem_not_Hang in E1].
  destruct (getitem buf (rs_i s + 1)) eqn:E2; simpl_bind;
    [|done|by apply getitem_not_Hang in E2].
  destruct (setitem _ _ _) eqn:E3; simpl_bind;
    [|done|by apply setitem_not_Hang in E3].
  destruct (w <=? rs_x s + 1); done.
Qed.

Lemma rle_step_not_Hang (w : Z) (buf : list byte) (s : rle_state) :
  0 < w -> 0 <= rs_x s -> rle_step w buf s <> Hang.
Proof.
  intros Hw Hx. unfold rle_step.
  destruct (getitem buf (rs_i s)) as [c| |] eqn:E1; simpl_bind;
    [|done|by apply getitem_not_Hang in E1].
  destruct (byte_val c =? 255).
  - destruct (getitem buf (rs_i s + 1)) as [n| |] eqn:E2; simpl_bind;
      [|done|by apply getitem_not_Hang in E2].
    pose proof (byte_val_range n).
    destruct (wrap_rows_spec (Datatypes.S (Z.to_nat (rs_x s + byte_val n))) w
                (rs_x s + byte_val n) (rs_y s))
      as (x' & y' & -> & _); [lia | lia | nia |]. done.
  - apply for_each_not_Hang. intros _ s'. apply rle_pixel_not_Hang.
Qed.

Lemma rle_inv_initial (w i0 : Z) (B : list quad) :
  0 < w -> 0 <= i0 -> rle_inv w B (RleState i0 0 0 B []).
Proof.
  intros Hw Hi. unfold rle_inv, cursor_ok, agree, lin. cbn.
  repeat split; try lia; try done; intros; by apply elem_of_nil in H.
Qed.

(** The decoder always comes to an end on a grid of positive width. *)
Lemma rle_loop_terminates (w : Z) (buf : list byte) (B : list quad)
    (fuel : nat) (L : Z) (s : rle_state) :
  0 < w -> rle_inv w B s -> (Z.to_nat (L - rs_i s) <= fuel)%nat ->
  rle_loop fuel w buf L s <> Hang.
Proof.
  intros Hw. revert s. induction fuel as [|fuel IH]; intros s Hinv Hfuel;
    cbn [rle_loop]; destruct (Z.ltb_spec (rs_i s) L); try done; try lia.
  destruct (rle_step w buf s) as [sm| |] eqn:Hs; simpl_bind; [|done|].
  - destruct (rle_step_facts w buf B Hw s sm Hinv Hs) as (Hinvm & _ & Hi & _).
    apply IH; [done|lia].
  - exfalso. destruct Hinv as ((_ & [Hx _] & _) & _).
    by apply (rle_step_not_Hang w buf s Hw Hx).
Qed.

Lemma rle_run_terminates (w : Z) (buf : list byte) (L i0 : Z) (B : list quad) :
  0 < w -> 0 <= i0 -> rle_run w buf L i0 B <> Hang.
Proof.
  intros Hw Hi. unfold rle_run.
  apply (rle_loop_terminates w buf B); [done | by apply rle_inv_initial | cbn; lia].
Qed.

(** What one pass of the decoder does to the grid [B] it is started on. *)
Lemma rle_run_effect (w : Z) (buf : list byte) (L : Z) (B : list quad)
    (s : rle_state) :
  0 < w -> rle_run w buf L 0 B = Ok s ->
  length (rs_image s) = length B /\
  (forall p v, (p, v) ∈ rs_writes s ->
               0 <= p /\ rs_image s !! Z.to_nat p = Some v) /\
  (forall n : nat, (forall v, (Z.of_nat n, v) ∉ rs_writes s) ->
                   rs_image s !! n = B !! n).
Proof.
  intros Hw Hrun. unfold rle_run in Hrun.
  destruct (rle_loop_facts w buf B Hw _ _ _ _ (rle_inv_initial w 0 B Hw (Z.le_refl 0)) Hrun)
    as ((_ & Hlen & Hbehind & Hagree & Hframe) & _).
  split; [done|]. split; [|done].
  intros p v Hin. split; [by apply Hbehind in Hin as [? _] | by apply Hagree].
Qed.

(** The loop that follows the call of [writeTransparentImage] in the
    isometric branch changes nothing: the overlay is the single pass. *)
Lemma overlay_second_loop_idle (self : Image) (buffer : list byte) (B : list quad) :
  0 < width self -> 0 <= uncompressedLength self ->
  overlay self buffer B =
  writeTransparentImage self B (slice_from buffer (uncompressedLength self))
                        (length_ self - uncompressedLength self).
Proof.
  intros Hw HuL. unfold overlay.
  destruct (writeTransparentImage self B _ _) as [O| |] eqn:HA;
    simpl_bind; [|done..].
  unfold writeTransparentImage in HA.
  apply bind_Ok_inv in HA as (sA & HA & [= <-]).
  unfold rle_run in HA. unfold slice_from in HA.
  destruct (Z.leb_spec 0 (uncompressedLength self)); [|lia].
  set (uL := uncompressedLength self) in *. set (L := length_ self) in *.
  pose proof (rle_loop_shift (width self) buffer (Z.to_nat uL)
                (Z.to_nat (L - uL - 0)) (L - uL) (RleState 0 0 0 B [])
                (Z.le_refl 0)) as Hsh.
  rewrite HA in Hsh. cbn [result_map] in Hsh.
  rewrite Z2Nat.id in Hsh by done.
  change (shift uL (RleState 0 0 0 B [])) with (RleState uL 0 0 B []) in Hsh.
  destruct (rle_loop_facts (width self) buffer B Hw _ _ _ _
              (rle_inv_initial (width self) uL B Hw HuL) Hsh)
    as ((_ & _ & _ & Hagree & _) & _ & Hre).
  destruct (Hre (L - uL) (Z.to_nat (L - uL - uL)) (rs_image sA) [])
    as (s2 & Hs2 & Himg); [lia | exact Hagree | cbn; lia |].
  unfold rle_run. change (with_image (RleState uL 0 0 B []) (rs_image sA) [])
    with (RleState uL 0 0 (rs_image sA) []) in Hs2.
  rewrite Hs2. simpl_bind. by rewrite Himg.
Qed.

(** *** The documented sprite stream *)

Lemma rle_loop_unfold (fuel : nat) (w : Z) (buf : list byte) (L : Z)
    (s : rle_state) :
  rle_loop (Datatypes.S fuel) w buf L s =
    if rs_i s <? L then
      s' ← rle_step w buf s; rle_loop fuel w buf L s'
    else Ok s.
Proof. reflexivity. Qed.

Lemma rle_pixel_eval (w : Z) (buf : list byte) (i x y : Z)
    (image : list quad) (W : list (Z * quad)) (lo hi : byte) :
  0 <= i ->
  buf !! Z.to_nat i = Some lo -> buf !! Z.to_nat (i + 1) = Some hi ->
  0 <= y * w + x < Z.of_nat (length image) ->
  let q := rgba_tuple (set555Pixel (sample16 lo hi) w) in
  rle_pixel w buf (RleState i x y image W) =
    Ok (RleState (i + 2)
                 (if w <=? x + 1 then 0 else x + 1)
                 (if w <=? x + 1 then y + 1 else y)
                 (<[Z.to_nat (y * w + x) := q]> image)
                 (W ++ [(y * w + x, q)])).
Proof.
  intros Hi Hlo Hhi Hpos q. unfold rle_pixel.
  cbn [rs_i rs_x rs_y rs_image rs_writes].
  rewrite (getitem_lookup buf i lo), (getitem_lookup buf (i + 1) hi)
    by (done || lia).
  simpl_bind. rewrite setitem_nonneg by done. simpl_bind.
  by destruct (w <=? x + 1).
Qed.

(** C7 (as the code has it).  On a blank grid of width [w >= 5] the stream
    [[3, s0,s1, s2,s3, s4,s5, 255, 2]] makes exactly three writes, the
    decodes of [s0 s1], [s2 s3], [s4 s5] at indices 0, 1, 2, all opaque;
    indices 3 and 4 stay [(0,0,0,0)]; all nine bytes are consumed.  The
    cursor ends at [(5, 0)] when [w > 5]; when [w = 5] the skip run wraps it
    to [(0, 1)], which is the same list index 5. *)
Theorem rle_three_pixels_then_skip
    (w h : Z) (s0 s1 s2 s3 s4 s5 : byte) :
  5 <= w -> 1 <= h ->
  let buffer := [x03; s0; s1; s2; s3; s4; s5; xff; x02] in
  let q0 := rgba_tuple (set555Pixel (sample16 s0 s1) w) in
  let q1 := rgba_tuple (set555Pixel (sample16 s2 s3) w) in
  let q2 := rgba_tuple (set555Pixel (sample16 s4 s5) w) in
  let blank := replicate (Z.to_nat (w * h)) ((0, 0, 0, 0) : quad) in
  exists image,
    rle_run w buffer 9 0 blank =
      Ok (RleState 9 (if w =? 5 then 0 else 5) (if w =? 5 then 1 else 0)
                   image [(0, q0); (1, q1); (2, q2)]) /\
    image = q0 :: q1 :: q2 :: replicate (Z.to_nat (w * h) - 3) (0, 0, 0, 0) /\
    image !! 3%nat = Some (0, 0, 0, 0) /\
    image !! 4%nat = Some (0, 0, 0, 0) /\
    snd q0 = 255 /\ snd q1 = 255 /\ snd q2 = 255.
Proof.
  intros Hw Hh buffer q0 q1 q2 blank.
  assert (Hn : exists m, Z.to_nat (w * h) = (5 + m)%nat).
  { exists (Z.to_nat (w * h) - 5)%nat. nia. }
  destruct Hn as [m Hm]. unfold blank. rewrite Hm.
  cbn [Nat.add replicate Nat.sub].
  eexists. split; [|split; [reflexivity|]].
  - set (img0 := _ :: _ :: _ :: _ :: _ :: replicate m _).
    assert (Hstep1 : rle_step w buffer (RleState 0 0 0 img0 []) =
              Ok (RleState 7 3 0 (<[2%nat := q2]> (<[1%nat := q1]> (<[0%nat := q0]> img0)))
                           [(0, q0); (1, q1); (2, q2)])).
    { unfold rle_step. cbn [rs_i rs_x rs_y rs_image rs_writes].
      rewrite (getitem_lookup buffer 0 x03) by (done || lia).
      simpl_bind. change (byte_val x03 =? 255) with false. cbv iota.
      change (range (byte_val x03)) with [0; 1; 2]. cbn [for_each].
      change (0 + 1) with 1.
      rewrite (rle_pixel_eval w buffer 1 0 0 _ _ s0 s1);
        [|lia|reflexivity|reflexivity|unfold img0; cbn [length]; lia].
      cbn [bind]. change (0 + 1) with 1. change (1 + 2) with 3.
      replace (w <=? 1) with false by (symmetry; apply Z.leb_gt; lia).
      rewrite (rle_pixel_eval w buffer 3 1 0 _ _ s2 s3);
        [|lia|reflexivity|reflexivity
         |rewrite length_insert; unfold img0; cbn [length]; lia].
      cbn [bind]. change (1 + 1) with 2. change (3 + 2) with 5.
      replace (w <=? 2) with false by (symmetry; apply Z.leb_gt; lia).
      rewrite (rle_pixel_eval w buffer 5 2 0 _ _ s4 s5);
        [|lia|reflexivity|reflexivity
         |rewrite !length_insert; unfold img0; cbn [length]; lia].
      cbn [bind]. change (2 + 1) with 3. change (5 + 2) with 7.
      replace (w <=? 3) with false by (symmetry; apply Z.leb_gt; lia).
      reflexivity. }
    assert (Hstep2 : forall img W,
              rle_step w buffer (RleState 7 3 0 img W) =
              Ok (RleState 9 (if w =? 5 then 0 else 5)
                           (if w =? 5 then 1 else 0) img W)).
    { intros img W. unfold rle_step. cbn [rs_i rs_x rs_y rs_image rs_writes].
      rewrite (getitem_lookup buffer 7 xff) by (done || lia).
      simpl_bind. change (byte_val xff =? 255) with true. cbv iota.
      change (7 + 1) with 8.
      rewrite (getitem_lookup buffer 8 x02) by (done || lia).
      simpl_bind. change (3 + byte_val x02) with 5. change (8 + 1) with 9.
      change (Z.to_nat 5) with 5%nat.
      assert (Hwrap : wrap_rows 6 w 5 0 =
                      Ok (if w =? 5 then 0 else 5, if w =? 5 then 1 else 0)).
      { cbn [wrap_rows]. destruct (Z.eqb_spec w 5) as [->|Hne]; [reflexivity|].
        by replace (w <=? 5) with false by (symmetry; apply Z.leb_gt; lia). }
      rewrite Hwrap. reflexivity. }
    unfold rle_run. change (Z.to_nat (9 - 0)) with 9%nat.
    rewrite rle_loop_unfold. cbn [rs_i]. change (0 <? 9) with true. cbv iota.
    rewrite Hstep1. simpl_bind.
    rewrite rle_loop_unfold. cbn [rs_i]. change (7 <? 9) with true. cbv iota.
    rewrite Hstep2. simpl_bind.
    rewrite rle_loop_stop by (cbn; lia).
    reflexivity.
  - cbn [Nat.sub replicate]. repeat split; try apply set555Pixel_opaque.
Qed.

Lemma rle_three_pixels_then_skip_witness :
  (5 <= 6 /\ 1 <= 1) /\
  exists image,
    rle_run 6 [x03; x00; x00; xff; x7f; x1f; xf8; xff; x02] 9 0
            (replicate 6 (0, 0, 0, 0))
    = Ok (RleState 9 5 0 image
            [(0, (0, 0, 0, 255)); (1, (255, 255, 255, 255));
             (2, (0, 0, 0, 255))]) /\
    image !! 3%nat = Some (0, 0, 0, 0) /\
    image !! 4%nat = Some (0, 0, 0, 0).
Proof.
  split; [lia|].
  destruct (rle_three_pixels_then_skip 6 1 x00 x00 xff x7f x1f xf8)
    as (image & Hrun & _ & H3 & H4 & _); [lia..|].
  exists image. split; [exact Hrun|]. split; [exact H3 | exact H4].
Defined.

(** C7, refuted as stated: at width 5 the stream ends with the cursor
    wrapped to the start of row 1, not at [(5, 0)]. *)
Lemma rle_skip_wraps_at_width_5 :
  exists s,
    rle_run 5 [x03; x00; x00; xff; x7f; x1f; xf8; xff; x02] 9 0
            (replicate 10 (0, 0, 0, 0)) = Ok s /\
    rs_x s = 0 /\ rs_y s = 1 /\ (rs_x s, rs_y s) <> (5, 0).
Proof. eexists. split; [vm_compute; reflexivity|]. cbn. repeat split. discriminate. Qed.

(** ** The eager reader of [bitmap.py] *)

Section EagerReader.
Variable pil : Type.
Variable frombuffer : Z -> Z -> list byte -> result pil.
Variable includeAlpha : bool.
Variable f555 : list byte.

Abbreviation entry := (BitmapPy.entry pil).
Abbreviation Bitmap := (BitmapPy.Bitmap pil).
Abbreviation body := (BitmapPy.read_images_body pil frombuffer includeAlpha f555).
Abbreviation loop := (BitmapPy.read_images_loop pil frombuffer includeAlpha f555).

(** The iteration for record 0 parses the header and does nothing else. *)
Lemma read_images_body_0 (self : Bitmap) (f : file) :
  body 0 (self, f) =
    match BitmapPy.read_record f includeAlpha with
    | Ok (r, f') =>
        ({| BitmapPy.offset := f_pos f';
            BitmapPy.numImages := BitmapPy.numImages self;
            BitmapPy.images := BitmapPy.images self;
            BitmapPy.events := BitmapPy.events self |}, f', BitmapPy.Next)
    | Raise e => (self, f, BitmapPy.Raised e)
    | Hang => (self, f, BitmapPy.Hung)
    end.
Proof.
  unfold BitmapPy.read_images_body.
  destruct (BitmapPy.read_record f includeAlpha) as [[r f']| |]; reflexivity.
Qed.

(** Any iteration appends at most one entry to [self.images]. *)
Lemma read_images_body_appends (record : Z) (st : Bitmap * file) :
  exists new,
    BitmapPy.images (fst (fst (body record st)))
    = BitmapPy.images (fst st) ++ new /\
    (length new <= 1)%nat.
Proof.
  assert (Hnil : forall (self' : Bitmap) (f' : file) (fl : BitmapPy.flow),
            BitmapPy.images self' = BitmapPy.images (fst st) ->
            exists new,
              BitmapPy.images (fst (fst (self', f', fl)))
              = BitmapPy.images (fst st) ++ new /\ (length new <= 1)%nat).
  { intros self' f' fl H. exists []. rewrite app_nil_r. split; [exact H|].
    cbn. lia. }
  destruct st as [self f]. unfold BitmapPy.read_images_body.
  destruct (BitmapPy.read_record f includeAlpha) as [[r f']| |];
    [|by apply Hnil..].
  destruct (record =? 0); [by apply Hnil|].
  destruct (BitmapPy.read_buffer r f555) as [ev [[buffer|]| |]];
    [|by apply Hnil..].
  destruct (BitmapPy.decode pil frombuffer r buffer) as [ev' [[e|]| |]];
    [|by apply Hnil..].
  exists [e]. cbn. done.
Qed.

Lemma read_images_loop_appends (records : list Z) (st : Bitmap * file) :
  exists new,
    BitmapPy.images (fst (fst (loop records st)))
    = BitmapPy.images (fst st) ++ new /\
    (length new <= length records)%nat.
Proof.
  revert st. induction records as [|record records IH]; intros st.
  - exists []. cbn. by rewrite app_nil_r.
  - cbn [BitmapPy.read_images_loop].
    destruct (read_images_body_appends record st) as (new1 & H1 & Hl1).
    destruct (body record st) as [st' fl] eqn:Hb. cbn [fst] in H1.
    destruct fl.
    + destruct (IH st') as (new2 & H2 & Hl2).
      exists (new1 ++ new2). rewrite H2, H1, app_assoc.
      split; [done|]. rewrite length_app. cbn [length]. lia.
    + exists new1. cbn [fst]. split; [done|]. cbn [length]. lia.
    + exists new1. cbn [fst]. split; [done|]. cbn [length]. lia.
Qed.

(** C10.  In [read_images] the iteration for record 0 only parses the
    header: whatever the record holds, the companion file is not touched
    (no event is added), no decoder runs and [self.images] is unchanged.
    Hence a call appends at most [numImages - 1] entries to [self.images]
    (none for an empty collection), however the call ends. *)
Theorem read_images_skips_record_0 (self : Bitmap) (sg : list byte) :
  (forall f self' f' fl,
     body 0 (self, f) = (self', f', fl) ->
     BitmapPy.images self' = BitmapPy.images self /\
     BitmapPy.events self' = BitmapPy.events self /\
     (fl = BitmapPy.Next ->
      exists r, BitmapPy.read_record f includeAlpha = Ok (r, f'))) /\
  exists new,
    BitmapPy.images
      (fst (BitmapPy.read_images pil frombuffer self sg f555 includeAlpha))
    = BitmapPy.images self ++ new /\
    Z.of_nat (length new) <= Z.max 0 (BitmapPy.numImages self - 1).
Proof.
  split.
  - intros f self' f' fl. rewrite read_images_body_0.
    destruct (BitmapPy.read_record f includeAlpha) as [[r f'']| |];
      intros [= <- <- <-]; cbn; repeat split; try done. by exists r.
  - unfold BitmapPy.read_images.
    destruct (fseek (fopen sg) (BitmapPy.offset self)) as [f| |];
      try (exists []; cbn; rewrite app_nil_r; split; [done|lia]).
    destruct (Z.le_gt_cases (BitmapPy.numImages self) 0) as [Hn|Hn].
    + unfold range. replace (Z.to_nat (BitmapPy.numImages self)) with 0%nat
        by lia.
      exists []. cbn. rewrite app_nil_r. split; [done|lia].
    + assert (Hr : exists l, range (BitmapPy.numImages self) = 0 :: l /\
                Z.of_nat (length l) = BitmapPy.numImages self - 1).
      { unfold range.
        destruct (Z.to_nat (BitmapPy.numImages self)) as [|n] eqn:E; [lia|].
        cbn [seq map]. eexists. split; [reflexivity|].
        rewrite length_map, length_seq. lia. }
      destruct Hr as (l & -> & Hl).
      cbn [BitmapPy.read_images_loop]. rewrite read_images_body_0.
      destruct (BitmapPy.read_record f includeAlpha) as [[r f']| |];
        try (exists []; cbn; rewrite app_nil_r; split; [done|lia]).
      set (st := (_, f')).
      destruct (read_images_loop_appends l st) as (new & Hnew & Hlen).
      destruct (loop l st) as [[self' f''] fl]. cbn [fst] in *.
      exists new. split; [exact Hnew|]. lia.
Qed.

End EagerReader.

(** The eager reader, unlike [Image.read_image], raises on a type code
    outside the table. *)
Lemma eager_decode_unknown_type (pil : Type)
    (frombuffer : Z -> Z -> list byte -> result pil)
    (r : BitmapPy.record_header) (buffer : list byte) :
  ~ In (BitmapPy.r_imgType r) [0; 1; 10; 12; 13; 30; 256; 257; 276] ->
  BitmapPy.decode pil frombuffer r buffer = ([], Raise ValueError).
Proof.
  intros H. unfold BitmapPy.decode. cbn [existsb].
  repeat match goal with
  | |- context [BitmapPy.r_imgType r =? ?k] =>
      destruct (Z.eqb_spec (BitmapPy.r_imgType r) k) as [E|_];
        [exfalso; apply H; rewrite E; cbn; tauto|]
  end.
  reflexivity.
Qed.

(** Two identical, well-formed 1x1 plain records: only the second one is
    decoded. *)
Lemma read_images_skips_record_0_witness :
  let r := Samples.eager_record 0 2 0 1 1 0 Samples.no_flags in
  let self := {| BitmapPy.offset := 0; BitmapPy.numImages := 2;
                 BitmapPy.images := []; BitmapPy.events := [] |} in
  exists new,
    BitmapPy.images
      (fst (BitmapPy.read_images (list byte) Samples.keep_data self (r ++ r)
              [x00; x00] false))
    = [] ++ new /\
    Z.of_nat (length new) <= 1.
Proof.
  intros r self.
  exact (proj2 (read_images_skips_record_0 (list byte) Samples.keep_data
                  false [x00; x00] self (r ++ r))).
Defined.

Example read_images_two_records :
  let r := Samples.eager_record 0 2 0 1 1 0 Samples.no_flags in
  let self := {| BitmapPy.offset := 0; BitmapPy.numImages := 2;
                 BitmapPy.images := []; BitmapPy.events := [] |} in
  BitmapPy.read_images (list byte) Samples.keep_data self (r ++ r)
                       [x00; x00] false
  = ({| BitmapPy.offset := 128; BitmapPy.numImages := 2;
        BitmapPy.images := [BitmapPy.Built [x00; x00; x00; xff]];
        BitmapPy.events := [Seek555 0; Read555 1; Read555 1] |},
     BitmapPy.Next).
Proof. vm_compute. reflexivity. Qed.

(** *** The plain branch of the eager reader *)

Lemma set555Pixel_range (colour w : Z) : 0 <= set555Pixel colour w < 2 ^ 32.
Proof.
  unfold set555Pixel. destruct (colour =? 0xf81f); [cbn; lia|].
  pose proof (expand555_alpha colour) as H.
  rewrite Z.shiftr_div_pow2 in H by lia.
  pose proof (Z.div_mod (expand555 colour) (2 ^ 24)) as Hd.
  pose proof (Z.mod_pos_bound (expand555 colour) (2 ^ 24)) as Hm.
  rewrite H in Hd. change (2 ^ 24) with 16777216 in *.
  change (2 ^ 32) with 4294967296. lia.
Qed.

Lemma lookup_nth (l : list byte) (n : nat) :
  (n < length l)%nat -> l !! n = Some (nth n l x00).
Proof.
  intros H. rewrite nth_lookup.
  destruct (lookup_lt_is_Some_2 l n H) as [b ->]. reflexivity.
Qed.

Section EagerPlain.
Variable pil : Type.
Variable frombuffer : Z -> Z -> list byte -> result pil.
Variable r : BitmapPy.record_header.
Variable buffer : list byte.
Hypothesis width_pos : 0 < BitmapPy.r_width r.
Hypothesis height_pos : 0 < BitmapPy.r_height r.
Hypothesis buffer_long :
  2 * (BitmapPy.r_width r * BitmapPy.r_height r) <= Z.of_nat (length buffer).

Local Abbreviation inv := (eager_plain_inv buffer (BitmapPy.r_width r)).

Lemma eager_plain_pixel_step (k : Z) (st : Z * list byte) :
  0 <= k < BitmapPy.r_width r * BitmapPy.r_height r -> inv k st ->
  exists st', BitmapPy.plain_pixel buffer (BitmapPy.r_width r) st = Ok st' /\
              inv (k + 1) st'.
Proof.
  intros Hk ->. unfold BitmapPy.plain_pixel.
  rewrite (getitem_lookup buffer (2 * k) (nth (2 * Z.to_nat k) buffer x00)),
    (getitem_lookup buffer (2 * k + 1)
       (nth (2 * Z.to_nat k + 1) buffer x00)); try lia.
  - simpl_bind. unfold to_bytes.
    pose proof (set555Pixel_range
      (sample16 (nth (2 * Z.to_nat k) buffer x00)
                (nth (2 * Z.to_nat k + 1) buffer x00))
      (BitmapPy.r_width r)) as [Hlo Hhi].
    change (256 ^ Z.of_nat 4) with (2 ^ 32).
    set (px := set555Pixel _ _) in *.
    destruct (Z.leb_spec 0 px); [|lia].
    destruct (Z.ltb_spec px (2 ^ 32)); [|lia].
    cbn [andb]. simpl_bind. eexists. split; [reflexivity|].
    unfold eager_plain_inv. replace (Z.to_nat (k + 1)) with (Datatypes.S (Z.to_nat k))
      by lia.
    cbn [eager_plain_bytes]. f_equal. lia.
  - replace (Z.to_nat (2 * k + 1)) with (2 * Z.to_nat k + 1)%nat by lia.
    apply lookup_nth. lia.
  - replace (Z.to_nat (2 * k)) with (2 * Z.to_nat k)%nat by lia.
    apply lookup_nth. lia.
Qed.

(** With a long enough slice the plain branch of [read_images] consumes
    [width * height] samples in sequence and hands PIL the four bytes of
    each decode, in that order. *)
Lemma eager_read_plain_spec :
  BitmapPy.read_plain pil frombuffer r buffer =
    p ← frombuffer (BitmapPy.r_width r) (BitmapPy.r_height r)
          (eager_plain_bytes buffer (BitmapPy.r_width r)
             (Z.to_nat (BitmapPy.r_width r * BitmapPy.r_height r)));
    Ok (BitmapPy.Built p).
Proof.
  unfold BitmapPy.read_plain.
  destruct (for_each_range_inv
              (fun y => inv (y * BitmapPy.r_height r)) (BitmapPy.r_width r)
              (fun _ => for_each (range (BitmapPy.r_height r))
                 (fun _ => BitmapPy.plain_pixel buffer (BitmapPy.r_width r)))
              (0, [])) as (st & -> & Hinv).
  - reflexivity.
  - intros y st Hy Hst.
    destruct (for_each_range_inv
                (fun x => inv (y * BitmapPy.r_height r + x))
                (BitmapPy.r_height r)
                (fun _ => BitmapPy.plain_pixel buffer (BitmapPy.r_width r))
                st) as (st' & Hst' & Hinv').
    + by rewrite Z.add_0_r.
    + intros x s Hx Hs.
      destruct (eager_plain_pixel_step (y * BitmapPy.r_height r + x) s)
        as (s' & Hs' & Hi'); [nia|done|].
      exists s'. split; [done|]. by rewrite <- Z.add_assoc in Hi'.
    + exists st'. split; [done|].
      by replace ((y + 1) * BitmapPy.r_height r)
        with (y * BitmapPy.r_height r + Z.max 0 (BitmapPy.r_height r)) by lia.
  - simpl_bind. unfold eager_plain_inv in Hinv. rewrite Hinv. cbn [snd].
    by replace (Z.max 0 (BitmapPy.r_width r) * BitmapPy.r_height r)
      with (BitmapPy.r_width r * BitmapPy.r_height r) by lia.
Qed.

End EagerPlain.

(** * Further properties of the code *)

(** ** Pixel decoder *)

Lemma low_byte_range (p : Z) : 0 <= Z.land p 255 <= 255.
Proof.
  change 255 with (Z.ones 8) at 1 2. rewrite Z.land_ones by lia.
  pose proof (Z.mod_pos_bound p (2 ^ 8)). change (2 ^ 8) with 256 in *. lia.
Qed.

Lemma sample16_value (lo hi : byte) :
  sample16 lo hi = byte_val lo + 256 * byte_val hi.
Proof.
  unfold sample16.
  pose proof (byte_val_range lo) as Hlo. pose proof (byte_val_range hi) as Hhi.
  rewrite <- Z.add_nocarry_lor.
  - rewrite Z.shiftl_mul_pow2 by lia. change (2 ^ 8) with 256. lia.
  - apply Z.bits_inj'. intros n Hn. rewrite Z.land_spec, Z.bits_0.
    destruct (Z.lt_ge_cases n 8).
    + rewrite Z.shiftl_spec_low by lia. apply andb_false_r.
    + destruct (Z.eq_dec (byte_val lo) 0) as [->|Hne];
        [by rewrite Z.bits_0|].
      rewrite (Z.bits_above_log2 (byte_val lo)); [done|lia|].
      apply Z.log2_lt_pow2; [lia|].
      pose proof (Z.pow_le_mono_r 2 8 n). change (2 ^ 8) with 256 in *. lia.
Qed.

Lemma sample16_range (lo hi : byte) : 0 <= sample16 lo hi < 65536.
Proof.
  rewrite sample16_value.
  pose proof (byte_val_range lo). pose proof (byte_val_range hi). lia.
Qed.

(** X1.  Whatever integer [set555Pixel] is given, the word it returns fits
    32 bits, its alpha byte is 255 and the three colour bytes that the
    callers take from it lie in 0..255. *)
Theorem set555Pixel_word_is_opaque_rgba (colour w : Z) :
  0 <= set555Pixel colour w < 2 ^ 32 /\
  exists r g b,
    rgba_tuple (set555Pixel colour w) = (r, g, b, 255) /\
    0 <= r <= 255 /\ 0 <= g <= 255 /\ 0 <= b <= 255.
Proof.
  split; [apply set555Pixel_range|].
  pose proof (set555Pixel_opaque colour w) as Ha.
  unfold rgba_tuple in *. cbn [snd] in Ha. rewrite Ha.
  eexists _, _, _. split; [reflexivity|].
  rewrite !Z.shiftr_land.
  change (Z.shiftr (Z.shiftl 255 8) 8) with 255.
  change (Z.shiftr (Z.shiftl 255 16) 16) with 255.
  repeat split; apply low_byte_range.
Qed.

Lemma quad_eqb_eq (p q : quad) : quad_eqb p q = true -> p = q.
Proof.
  destruct p as [[[r1 g1] b1] a1], q as [[[r2 g2] b2] a2]. cbn.
  rewrite !andb_true_iff, !Z.eqb_eq. intros [[[-> ->] ->] ->]. reflexivity.
Qed.

Lemma all_below_spec (n : nat) (f : Z -> bool) (base c : Z) :
  all_below n f base = true ->
  base * 2 ^ Z.of_nat n <= c < (base + 1) * 2 ^ Z.of_nat n ->
  f c = true.
Proof.
  revert base. induction n as [|n IH]; intros base Hall Hc.
  - cbn in Hall. change (2 ^ Z.of_nat 0) with 1 in Hc.
    by replace c with base by lia.
  - cbn [all_below] in Hall. apply andb_true_iff in Hall as [H0 H1].
    replace (2 ^ Z.of_nat (Datatypes.S n)) with (2 * 2 ^ Z.of_nat n) in Hc
      by (rewrite Nat2Z.inj_succ, Z.pow_succ_r; lia).
    destruct (Z.lt_ge_cases c ((2 * base + 1) * 2 ^ Z.of_nat n)).
    + apply (IH (2 * base)); [done|lia].
    + apply (IH (2 * base + 1)); [done|lia].
Qed.

Lemma expand555_channels_16bit :
  all_below 16 (fun c => quad_eqb (rgba_tuple (expand555 c)) (channels555 c))
            0 = true.
Proof. vm_compute. reflexivity. Qed.

(** X2.  For every 16-bit sample other than the key colour [0xF81F] the
    decoded tuple is (red, green, blue, 255) where each channel is its 5-bit
    field [v] (bits 10-14, 5-9 and 0-4) expanded to [8 * v + v / 4].  Bit 15
    belongs to no field: it enters only through the comparison with the key
    colour, [0x781F] being an ordinary sample. *)
Theorem set555Pixel_channel_expansion (lo hi : byte) (w : Z) :
  sample16 lo hi <> 0xF81F ->
  rgba_tuple (set555Pixel (sample16 lo hi) w) = channels555 (sample16 lo hi).
Proof.
  intros Hkey. unfold set555Pixel.
  destruct (Z.eqb_spec (sample16 lo hi) 0xf81f); [contradiction|].
  apply quad_eqb_eq.
  apply (all_below_spec 16 _ 0 _ expand555_channels_16bit).
  pose proof (sample16_range lo hi). change (2 ^ Z.of_nat 16) with 65536. lia.
Qed.

Lemma set555Pixel_channel_expansion_witness :
  sample16 xe0 x7f <> 0xF81F /\
  rgba_tuple (set555Pixel (sample16 xe0 x7f) 1) = (255, 255, 0, 255).
Proof.
  split; [vm_compute; discriminate|].
  exact (set555Pixel_channel_expansion xe0 x7f 1
           ltac:(vm_compute; discriminate)).
Defined.

(** ** Type codes *)

(** X3.  The two readers classify every type code alike: the eager reader
    takes its plain, isometric or sprite branch exactly where
    [get_img_type] answers [plain], [isometric] or [sprite]; where it
    answers [unknown] (and logs), the eager reader raises [ValueError]. *)
Theorem readers_dispatch_alike (pil : Type)
    (frombuffer : Z -> Z -> list byte -> result pil)
    (r : BitmapPy.record_header) (buffer : list byte) :
  BitmapPy.decode pil frombuffer r buffer =
    match fst (get_img_type (BitmapPy.r_imgType r)) with
    | plain =>
        ([], e ← BitmapPy.read_plain pil frombuffer r buffer; Ok (Some e))
    | isometric => BitmapPy.read_isometric pil r buffer
    | sprite =>
        ([], e ← BitmapPy.read_sprite pil frombuffer r buffer; Ok (Some e))
    | unknown => ([], Raise ValueError)
    end.
Proof.
  unfold BitmapPy.decode, get_img_type, types. cbn [find existsb snd fst].
  generalize (BitmapPy.r_imgType r) as code. intros code.
  repeat match goal with
  | |- context [code =? ?k] =>
      destruct (Z.eqb_spec code k) as [->|?]; [reflexivity|]
  end.
  reflexivity.
Qed.

(** ** Errors and termination of the decoders *)

Section OnlyIndexError.
Context {A B : Type}.

Lemma only_index_error_bind (m : result A) (f : A -> result B) :
  only_index_error m ->
  (forall a, m = Ok a -> only_index_error (f a)) ->
  only_index_error (m ≫= f).
Proof. destruct m; cbn; intros Hm Hf; [by apply Hf | done | done]. Qed.

Lemma getitem_only_index_error (s : list A) (k : Z) :
  only_index_error (getitem s k).
Proof.
  unfold getitem. destruct (norm_index _ _); [|done].
  by destruct (s !! _).
Qed.

Lemma setitem_only_index_error (s : list A) (k : Z) (v : A) :
  only_index_error (setitem s k v).
Proof. unfold setitem. by destruct (norm_index _ _). Qed.

(** A [for] loop whose body keeps an invariant [P] and, under [P], can only
    fail with [IndexError]. *)
Lemma for_each_only_index_error (P : B -> Prop) (l : list A)
    (body : A -> B -> result B) (st : B) :
  (forall a s, P s -> only_index_error (body a s) /\
                      forall s', body a s = Ok s' -> P s') ->
  P st ->
  only_index_error (for_each l body st) /\
  forall st', for_each l body st = Ok st' -> P st'.
Proof.
  intros Hb. revert st. induction l as [|a l IH]; intros st HP; cbn [for_each].
  - split; [done|]. by intros st' [= <-].
  - destruct (Hb a st HP) as [Ho Hs].
    destruct (body a st) as [s1| |]; cbn [bind]; try done.
    apply IH. by apply Hs.
Qed.

End OnlyIndexError.

Lemma rle_pixel_only_index_error (w : Z) (buf : list byte) (s : rle_state) :
  only_index_error (rle_pixel w buf s).
Proof.
  unfold rle_pixel.
  apply only_index_error_bind; [apply getitem_only_index_error|intros lo _].
  apply only_index_error_bind; [apply getitem_only_index_error|intros hi _].
  apply only_index_error_bind; [apply setitem_only_index_error|intros im _].
  by destruct (w <=? rs_x s + 1).
Qed.

Lemma rle_step_only_index_error (w : Z) (buf : list byte) (s : rle_state) :
  0 < w -> 0 <= rs_x s -> only_index_error (rle_step w buf s).
Proof.
  intros Hw Hx. unfold rle_step.
  apply only_index_error_bind; [apply getitem_only_index_error|intros c _].
  destruct (byte_val c =? 255).
  - apply only_index_error_bind; [apply getitem_only_index_error|intros n _].
    pose proof (byte_val_range n).
    destruct (wrap_rows_spec (Datatypes.S (Z.to_nat (rs_x s + byte_val n))) w
                (rs_x s + byte_val n) (rs_y s))
      as (x' & y' & -> & _); [lia | lia | nia |]. done.
  - apply (for_each_only_index_error (fun _ => True)); [|done].
    intros _ s' _. split; [apply rle_pixel_only_index_error|done].
Qed.

Lemma rle_loop_only_index_error (w : Z) (buf : list byte) (B : list quad)
    (fuel : nat) (L : Z) (s : rle_state) :
  0 < w -> rle_inv w B s -> (Z.to_nat (L - rs_i s) <= fuel)%nat ->
  only_index_error (rle_loop fuel w buf L s).
Proof.
  intros Hw. revert s. induction fuel as [|fuel IH]; intros s Hinv Hfuel;
    cbn [rle_loop]; destruct (Z.ltb_spec (rs_i s) L); try done; try lia.
  apply only_index_error_bind.
  - destruct Hinv as ((_ & [Hx _] & _) & _).
    by apply rle_step_only_index_error.
  - intros sm Hs.
    destruct (rle_step_facts w buf B Hw s sm Hinv Hs) as (Hinvm & _ & Hi & _).
    apply IH; [done|lia].
Qed.

(** X4.  On a grid of positive width [writeTransparentImage] always comes
    to an end, whatever the stream and the declared length: it returns the
    grid, with its size unchanged, or raises [IndexError] (a subscript of
    the buffer or of the grid out of range); nothing else can happen. *)
Theorem writeTransparentImage_ends (self : Image) (image : list quad)
    (buffer : list byte) (length : Z) :
  0 < width self ->
  (exists image',
     writeTransparentImage self image buffer length = Ok image' /\
     List.length image' = List.length image) \/
  writeTransparentImage self image buffer length = Raise IndexError.
Proof.
  intros Hw. unfold writeTransparentImage.
  pose proof (rle_loop_only_index_error (width self) buffer image
                (Z.to_nat (length - 0)) length (RleState 0 0 0 image []) Hw
                (rle_inv_initial (width self) 0 image Hw (Z.le_refl 0))) as H.
  unfold rle_run.
  destruct (rle_loop _ _ _ _ _) as [s|e|] eqn:E; cbn.
  - left. exists (rs_image s). split; [done|].
    by destruct (rle_run_effect (width self) buffer length image s Hw E).
  - right. cbn in H. rewrite H; [done|cbn; lia].
  - exfalso. apply H. cbn. lia.
Qed.

Lemma writeTransparentImage_ends_witness :
  writeTransparentImage (Samples.image_of sprite 3 0 2 2 Samples.no_flags)
                        (replicate 4 (0, 0, 0, 0)) [x05; x00; x00] 3
  = Raise IndexError.
Proof.
  destruct (writeTransparentImage_ends
              (Samples.image_of sprite 3 0 2 2 Samples.no_flags)
              (replicate 4 (0, 0, 0, 0)) [x05; x00; x00] 3)
    as [(image' & H & _)|H]; [cbn; lia | | exact H].
  vm_compute in H. discriminate H.
Defined.

(** ** Shape of the writes of one pass *)

Lemma increasing_snoc (ws : list (Z * quad)) (p : Z) (v : quad) :
  increasing ws -> (forall q u, (q, u) ∈ ws -> q < p) ->
  increasing (ws ++ [(p, v)]).
Proof.
  intros Hinc Hlt i j a b Hij Ha Hb.
  destruct (Nat.lt_ge_cases j (length ws)) as [Hj|Hj].
  - rewrite lookup_app_l in Ha, Hb by lia. exact (Hinc i j a b Hij Ha Hb).
  - assert (j = length ws) as ->.
    { apply lookup_lt_Some in Hb. rewrite length_app in Hb. cbn in Hb. lia. }
    rewrite lookup_app_l in Ha by lia.
    rewrite list_lookup_middle in Hb by done. injection Hb as <-.
    destruct a as [q u]. cbn. apply (Hlt q u).
    by eapply list_elem_of_lookup_2.
Qed.

Section RleWrites.
Variable w : Z.
Variable buf : list byte.
Variable B : list quad.
Hypothesis w_pos : 0 < w.

Local Abbreviation writes_inv := (writes_inv w B).

Lemma rle_pixel_writes (s s1 : rle_state) :
  writes_inv s -> rle_pixel w buf s = Ok s1 -> writes_inv s1.
Proof.
  intros (Hinv & Hinc & Hop) Hrun.
  destruct (rle_pixel_facts w buf B w_pos s s1 Hinv Hrun) as (Hinv1 & _).
  split; [done|].
  pose proof Hinv as (_ & _ & Hbehind & _).
  unfold rle_pixel in Hrun.
  apply bind_Ok_inv in Hrun as (lo & _ & Hrun).
  apply bind_Ok_inv in Hrun as (hi & _ & Hrun).
  apply bind_Ok_inv in Hrun as (image & _ & Hrun).
  assert (Hw1 : rs_writes s1 = rs_writes s ++
            [(rs_y s * w + rs_x s,
              rgba_tuple (set555Pixel (sample16 lo hi) w))]).
  { destruct (w <=? rs_x s + 1); by injection Hrun as <-. }
  rewrite Hw1. split.
  - apply increasing_snoc; [done|]. intros q u Hin.
    apply Hbehind in Hin. unfold lin in Hin. lia.
  - intros p v Hin. apply elem_of_app in Hin as [Hin|Hin]; [by eapply Hop|].
    apply list_elem_of_singleton in Hin. injection Hin as _ ->.
    apply set555Pixel_opaque.
Qed.

Lemma rle_step_writes (s s1 : rle_state) :
  writes_inv s -> rle_step w buf s = Ok s1 -> writes_inv s1.
Proof.
  intros Hall Hrun. pose proof Hall as (Hinv & Hinc & Hop).
  destruct (rle_step_facts w buf B w_pos s s1 Hinv Hrun) as (Hinv1 & _).
  unfold rle_step in Hrun.
  apply bind_Ok_inv in Hrun as (c & _ & Hrun).
  destruct (byte_val c =? 255).
  - apply bind_Ok_inv in Hrun as (n & _ & Hrun).
    apply bind_Ok_inv in Hrun as (xy & _ & Hrun).
    injection Hrun as <-. by split.
  - set (s' := RleState (rs_i s + 1) (rs_x s) (rs_y s) (rs_image s)
                        (rs_writes s)) in *.
    assert (Hall' : writes_inv s').
    { split; [|by split].
      pose proof Hinv as ((Hi & Hx & Hy) & Hlen & Hbehind & Hagree & Hframe).
      unfold rle_inv, cursor_ok, lin, s'.
      cbn [rs_i rs_x rs_y rs_image rs_writes].
      repeat split; try lia; try done;
        apply Hbehind in H; unfold lin in H; lia. }
    destruct (for_each_only_index_error writes_inv (range (byte_val c))
                (fun _ => rle_pixel w buf) s') as [_ Hkeep]; [|done|].
    + intros _ t Ht. split; [apply rle_pixel_only_index_error|].
      intros t'. by apply rle_pixel_writes.
    + by apply Hkeep.
Qed.

Lemma rle_loop_writes (fuel : nat) (L : Z) (s s1 : rle_state) :
  writes_inv s -> rle_loop fuel w buf L s = Ok s1 -> writes_inv s1.
Proof.
  revert s. induction fuel as [|fuel IH]; intros s Hall Hrun;
    cbn [rle_loop] in Hrun; destruct (rs_i s <? L); try discriminate;
    try (by injection Hrun as <-).
  apply bind_Ok_inv in Hrun as (sm & Hstep & Hrest).
  apply (IH sm); [|done]. by eapply rle_step_writes.
Qed.

End RleWrites.

Lemma writes_inv_initial (w : Z) (B : list quad) :
  0 < w -> writes_inv w B (RleState 0 0 0 B []).
Proof.
  intros Hw. split; [by apply rle_inv_initial|]. split.
  - intros i j a b _ Ha. cbn in Ha. by destruct i.
  - intros p v Hin. by apply elem_of_nil in Hin.
Qed.

(** X5.  A pass of the run-length decoder over a grid of positive width
    writes to strictly increasing list indices, all inside the grid: no
    pixel is written twice, and at most as many pixels are written as the
    grid has cells. *)
Theorem rle_writes_increase (w : Z) (buf : list byte) (L : Z)
    (B : list quad) (s : rle_state) :
  0 < w -> rle_run w buf L 0 B = Ok s ->
  increasing (rs_writes s) /\
  (forall p v, (p, v) ∈ rs_writes s -> 0 <= p < Z.of_nat (length B)) /\
  NoDup (rs_writes s).*1 /\
  (length (rs_writes s) <= length B)%nat.
Proof.
  intros Hw Hrun.
  destruct (rle_loop_writes w buf B Hw _ _ _ _ (writes_inv_initial w B Hw) Hrun)
    as (_ & Hinc & _).
  destruct (rle_run_effect w buf L B s Hw Hrun) as (Hlen & Hin & _).
  assert (Hbound : forall p v, (p, v) ∈ rs_writes s ->
                               0 <= p < Z.of_nat (length B)).
  { intros p v Hpv. destruct (Hin p v Hpv) as [H0 Hl].
    apply lookup_lt_Some in Hl. lia. }
  assert (Hnd : NoDup (rs_writes s).*1).
  { apply NoDup_alt. intros i j p Hi Hj.
    rewrite list_lookup_fmap in Hi, Hj.
    destruct (rs_writes s !! i) as [a|] eqn:Ha; [|done].
    destruct (rs_writes s !! j) as [b|] eqn:Hb; [|done].
    cbn in Hi, Hj. injection Hi as Hi. injection Hj as Hj.
    destruct (Nat.lt_trichotomy i j) as [Hlt|[->|Hlt]]; [|done|].
    - pose proof (Hinc i j a b Hlt Ha Hb). lia.
    - pose proof (Hinc j i b a Hlt Hb Ha). lia. }
  split; [done|]. split; [done|]. split; [done|].
  (* the positions are distinct naturals below [length B] *)
  assert (Hsub : (Z.to_nat <$> (rs_writes s).*1) ⊆ seq 0 (length B)).
  { intros n Hn. apply list_elem_of_fmap in Hn as (p & -> & Hp).
    apply list_elem_of_fmap in Hp as ([q v] & -> & Hqv). cbn.
    apply Hbound in Hqv. apply list_elem_of_In, in_seq. lia. }
  assert (Hnd' : NoDup (Z.to_nat <$> (rs_writes s).*1)).
  { apply NoDup_fmap_2_strong; [|done].
    intros p q Hp Hq Heq.
    apply list_elem_of_fmap in Hp as ([p' v] & -> & Hpv).
    apply list_elem_of_fmap in Hq as ([q' u] & -> & Hqu). cbn in *.
    apply Hbound in Hpv, Hqu. lia. }
  pose proof (submseteq_length _ _ (NoDup_submseteq _ _ Hnd' Hsub)) as Hle.
  rewrite !length_fmap, length_seq in Hle. exact Hle.
Qed.

Lemma rle_writes_increase_witness :
  let s := RleState 9 5 0
             [(0, 0, 0, 255); (255, 255, 255, 255); (0, 0, 0, 255);
              (0, 0, 0, 0); (0, 0, 0, 0); (0, 0, 0, 0)]
             [(0, (0, 0, 0, 255)); (1, (255, 255, 255, 255));
              (2, (0, 0, 0, 255))] in
  rle_run 6 [x03; x00; x00; xff; x7f; x1f; xf8; xff; x02] 9 0
          (replicate 6 (0, 0, 0, 0)) = Ok s /\
  NoDup (rs_writes s).*1.
Proof.
  intros s.
  assert (H : rle_run 6 [x03; x00; x00; xff; x7f; x1f; xf8; xff; x02] 9 0
                      (replicate 6 (0, 0, 0, 0)) = Ok s)
    by (vm_compute; reflexivity).
  split; [exact H|].
  exact (proj1 (proj2 (proj2
    (rle_writes_increase 6 _ 9 _ s ltac:(lia) H)))).
Defined.

(** ** Every decoder keeps the grid tidy and fails only on a subscript *)

Lemma setitem_tidy (n : nat) (image : list quad) (k c w : Z)
    (image' : list quad) :
  tidy n image ->
  setitem image k (rgba_tuple (set555Pixel c w)) = Ok image' ->
  tidy n image'.
Proof.
  intros [Hlen Hbin]. unfold setitem.
  destruct (norm_index _ _) as [m|]; [|done]. intros [= <-].
  split; [by rewrite length_insert|].
  intros q Hq. apply list_elem_of_lookup in Hq as [i Hi].
  destruct (decide (i = m)) as [->|Hne].
  - assert (m < length image)%nat.
    { apply lookup_lt_Some in Hi. by rewrite length_insert in Hi. }
    rewrite list_lookup_insert_eq in Hi by done. injection Hi as <-.
    right. apply set555Pixel_opaque.
  - rewrite list_lookup_insert_ne in Hi by done.
    apply Hbin. by eapply list_elem_of_lookup_2.
Qed.

Lemma writeTransparentImage_grid_safe (self : Image) (image : list quad)
    (buffer : list byte) (L : Z) (n : nat) :
  0 < width self -> tidy n image ->
  grid_safe n (writeTransparentImage self image buffer L).
Proof.
  intros Hw [Hlen Hbin]. unfold writeTransparentImage, rle_run.
  pose proof (rle_loop_only_index_error (width self) buffer image
                (Z.to_nat (L - 0)) L (RleState 0 0 0 image []) Hw
                (rle_inv_initial (width self) 0 image Hw (Z.le_refl 0))) as H.
  destruct (rle_loop _ _ _ _ _) as [s|e|] eqn:E; cbn.
  - split; [done|]. intros im [= <-].
    destruct (rle_run_effect (width self) buffer L image s Hw E)
      as (Hl & Hin & Hframe).
    destruct (rle_loop_writes (width self) buffer image Hw _ _ _ _
                (writes_inv_initial (width self) image Hw) E)
      as (_ & _ & Hop).
    split; [lia|]. intros q Hq.
    apply list_elem_of_lookup in Hq as [i Hi].
    destruct (decide (Z.of_nat i ∈ (rs_writes s).*1)) as [Hw'|Hw'].
    + apply list_elem_of_fmap in Hw' as ([p v] & Hp & Hpv). cbn in Hp.
      subst p. destruct (Hin _ _ Hpv) as [_ Hv].
      rewrite Nat2Z.id in Hv.
      pose proof (eq_trans (eq_sym Hi) Hv) as Heq. injection Heq as ->.
      right. by eapply Hop.
    + rewrite Hframe in Hi.
      * apply Hbin. by eapply list_elem_of_lookup_2.
      * intros v Hv. apply Hw'. apply list_elem_of_fmap.
        by exists (Z.of_nat i, v).
  - split; [apply H; cbn; lia|done].
  - split; [apply H; cbn; lia|done].
Qed.

Lemma read_plain_grid_safe (self : Image) (buffer : list byte)
    (image : list quad) (n : nat) :
  tidy n image ->
  grid_safe n (st ← read_plain self buffer image; Ok (snd st)).
Proof.
  intros Ht. unfold read_plain.
  destruct (for_each_only_index_error
              (fun st : Z * list quad => tidy n (snd st))
              (range (height self))
              (fun y => for_each (range (width self))
                                 (plain_pixel self buffer y))
              (0, image)) as [Ho Hk]; [|done|].
  - intros y st Hst.
    apply (for_each_only_index_error
             (fun st : Z * list quad => tidy n (snd st)));
      [|done].
    intros x [i im] Him. cbn [snd] in Him. unfold plain_pixel.
    split.
    + apply only_index_error_bind; [apply getitem_only_index_error|intros lo _].
      apply only_index_error_bind; [apply getitem_only_index_error|intros hi _].
      apply only_index_error_bind; [apply setitem_only_index_error|done].
    + intros s' H.
      apply bind_Ok_inv in H as (lo & _ & H).
      apply bind_Ok_inv in H as (hi & _ & H).
      apply bind_Ok_inv in H as (im' & Hset & H).
      injection H as <-. cbn. by eapply setitem_tidy.
  - destruct (for_each _ _ _) as [st| |]; cbn in *; split; try done.
    intros im [= <-]. by apply Hk.
Qed.

Lemma writeIsometricTile_grid_safe (self : Image) (image : list quad)
    (buffer : list byte) (xOffset yOffset tileWidth tileHeight : Z)
    (n : nat) :
  tidy n image ->
  grid_safe n (writeIsometricTile self image buffer xOffset yOffset
                                  tileWidth tileHeight).
Proof.
  intros Ht. unfold writeIsometricTile.
  set (P := fun st : Z * list quad => tidy n (snd st)).
  assert (Hpix : forall y x st, P st ->
            only_index_error (tile_pixel self buffer xOffset yOffset y x st) /\
            forall st', tile_pixel self buffer xOffset yOffset y x st = Ok st'
                        -> P st').
  { intros y x [i im] Him. unfold P in *. cbn [snd] in Him.
    unfold tile_pixel. split.
    + apply only_index_error_bind; [apply getitem_only_index_error|intros hi _].
      apply only_index_error_bind; [apply getitem_only_index_error|intros lo _].
      apply only_index_error_bind; [apply setitem_only_index_error|done].
    + intros s' H.
      apply bind_Ok_inv in H as (hi & _ & H).
      apply bind_Ok_inv in H as (lo & _ & H).
      apply bind_Ok_inv in H as (im' & Hset & H).
      injection H as <-. cbn. by eapply setitem_tidy. }
  assert (Hrows : forall (rows : list Z) (span : Z -> list Z) st, P st ->
            only_index_error
              (for_each rows
                 (fun y => for_each (span y)
                             (tile_pixel self buffer xOffset yOffset y)) st) /\
            forall st',
              for_each rows
                (fun y => for_each (span y)
                            (tile_pixel self buffer xOffset yOffset y)) st
              = Ok st' -> P st').
  { intros rows span st Hst.
    apply (for_each_only_index_error P); [|done].
    intros y s Hs. apply (for_each_only_index_error P); [|done].
    intros x s' Hs'. by apply Hpix. }
  destruct (Hrows (range (Z.quot tileHeight 2))
              (fun y => range2 (tileHeight - 2 * (y + 1))
                               (tileWidth - (tileHeight - 2 * (y + 1))))
              (0, image)) as [Ho1 Hk1]; [done|].
  destruct (for_each _ _ (0, image)) as [st1| |]; simpl_bind;
    [|by split..].
  destruct (Hrows (range2 (Z.quot tileHeight 2) tileHeight)
              (fun y => range2 (2 * y - tileHeight)
                               (tileWidth - (2 * y - tileHeight)))
              st1) as [Ho2 Hk2]; [by apply Hk1|].
  destruct (for_each _ _ st1) as [st2| |]; simpl_bind; [|by split..].
  split; [done|]. intros im [= <-]. by apply Hk2.
Qed.

Lemma base_mosaic_grid_safe (self : Image) (buffer : list byte)
    (size tileBytes tileHeight tileWidth yOffset : Z) (image : list quad)
    (n : nat) :
  tidy n image ->
  grid_safe n (base_mosaic self buffer size tileBytes tileHeight tileWidth
                           yOffset image).
Proof.
  intros Ht. unfold base_mosaic.
  set (P := fun st : Z * Z * list quad => tidy n (snd st)).
  destruct (for_each_only_index_error P (range (size + (size - 1)))
              (mosaic_row self buffer size tileBytes tileHeight tileWidth)
              (0, yOffset, image)) as [Ho Hk]; [|done|].
  - intros y [[i yo] im] Him. unfold P in Him. cbn [snd] in Him.
    unfold mosaic_row.
    destruct (for_each_only_index_error P
                (range (if y <? size then y + 1 else 2 * size - y - 1))
                (fun (_ : Z) (st : Z * Z * list quad) =>
                   let '(i, xOffset, image) := st in
                   image ← writeIsometricTile self image
                             (slice_from buffer (i * tileBytes))
                             xOffset yo tileWidth tileHeight;
                   Ok (i + 1, xOffset + (tileWidth + 2), image))
                (i, (if y <? size then size - y - 1 else y - size + 1)
                    * tileHeight, im)) as [Ho' Hk']; [|done|].
    + intros _ [[i' xo] im'] Him'. unfold P in Him'. cbn [snd] in Him'.
      destruct (writeIsometricTile_grid_safe self im'
                  (slice_from buffer (i' * tileBytes)) xo yo tileWidth
                  tileHeight n Him') as [Hto Htk].
      destruct (writeIsometricTile _ _ _ _ _ _ _) as [im''| |]; simpl_bind;
        split; try done.
      intros s' [= <-]. unfold P. cbn. by apply Htk.
    + destruct (for_each _ _ _) as [[[i1 xo1] im1]| |]; simpl_bind;
        split; try done.
      intros s' [= <-]. unfold P. cbn. by apply (Hk' (i1, xo1, im1)).
  - destruct (for_each _ _ _) as [st| |]; simpl_bind; split; try done.
    intros im [= <-]. by apply Hk.
Qed.

Lemma read_isometric_grid_safe (self : Image) (buffer : list byte)
    (image : list quad) (n : nat) :
  0 < width self -> tidy n image ->
  only_index_error (snd (read_isometric self buffer image)) /\
  forall image',
    snd (read_isometric self buffer image) = Ok (Some image') ->
    tidy n image'.
Proof.
  intros Hw Ht. unfold read_isometric.
  destruct (getitem (flags self) 3) as [f3| |] eqn:Hf3;
    [|pose proof (getitem_only_index_error (flags self) 3) as H;
      rewrite Hf3 in H; by split..].
  destruct (derive_size _ _) as [size log].
  destruct (tile_profile _ _) as [[[tb th] tw]|]; [|by split].
  destruct (Z.eqb_spec ((width self + 2) * Z.quot (width self + 2) 2)
              (uncompressedLength self)) as [Hfoot|_]; [|by split].
  cbn [negb snd].
  assert (HuL : 0 <= uncompressedLength self).
  { rewrite <- Hfoot. apply Z.mul_nonneg_nonneg; [lia|].
    apply Z.quot_pos; lia. }
  destruct (base_mosaic_grid_safe self buffer size tb th tw
              (height self - Z.quot (width self + 2) 2) image n Ht)
    as [Ho Hk].
  destruct (base_mosaic _ _ _ _ _ _ _ _) as [B| |]; simpl_bind;
    [|by split..].
  rewrite overlay_second_loop_idle by done.
  destruct (writeTransparentImage_grid_safe self B
              (slice_from buffer (uncompressedLength self))
              (length_ self - uncompressedLength self) n Hw (Hk B eq_refl))
    as [Ho' Hk'].
  destruct (writeTransparentImage _ _ _ _) as [O| |]; simpl_bind;
    split; try done.
  intros im [= <-]. by apply Hk'.
Qed.

Lemma decode_grid_safe (self : Image) (buffer : list byte)
    (image : list quad) (n : nat) :
  0 < width self -> tidy n image ->
  only_index_error (snd (decode self buffer image)) /\
  forall image',
    snd (decode self buffer image) = Ok (Some image') -> tidy n image'.
Proof.
  intros Hw Ht. unfold decode. destruct (imgType self); cbn [snd].
  - split; [done|]. by intros im [= <-].
  - destruct (read_plain_grid_safe self buffer image n Ht) as [Ho Hk].
    destruct (read_plain self buffer image) as [st| |]; simpl_bind;
      split; try done.
    intros im [= <-]. by apply Hk.
  - by apply read_isometric_grid_safe.
  - destruct (writeTransparentImage_grid_safe self image buffer
                (length_ self) n Hw Ht) as [Ho Hk].
    destruct (writeTransparentImage _ _ _ _) as [im| |]; simpl_bind;
      split; try done.
    intros im' [= <-]. by apply Hk.
Qed.

Lemma blank_tidy (k : nat) : tidy k (replicate k (0, 0, 0, 0)).
Proof.
  split; [apply length_replicate|].
  intros q Hq. apply elem_of_replicate in Hq as [-> _]. by left.
Qed.

(** X7.  [read_image] always comes to an end.  It raises [ImageError]
    exactly when [verify] fails, and otherwise can only raise [IndexError]
    (a subscript out of range) or [OSError] (a negative seek position); when
    it raises nothing, [self.image] holds exactly [width * height] pixels. *)
Theorem read_image_outcomes (self : Image) (f555 : list byte) :
  let out := read_image self f555 in
  out_hangs out = false /\
  (out_raised out = Some ImageError <-> fst (verify self) = false) /\
  match out_raised out with
  | None =>
      exists image, out_image out = Some image /\
                    length image = Z.to_nat (width self * height self)
  | Some e => e = ImageError \/ e = IndexError \/ e = OSError
  end.
Proof.
  cbv zeta. destruct (fst (verify self)) eqn:Hv.
  - pose proof (proj1 (verify_true_iff self) Hv) as (Hw & Hh & Hl).
    destruct (flags self !! 0%nat) as [f0|] eqn:Hf0.
    + destruct (Z.le_gt_cases (byte_val f0) (offset555 self)) as [Hpos|Hneg].
      * rewrite (read_image_verified self f555 f0 Hv Hf0 Hpos).
        set (buffer := fst (fread _ _)).
        set (blank := replicate _ _).
        pose proof (decode_grid_safe self buffer blank _ Hw (blank_tidy _))
          as [Ho Hk].
        assert (Hb : length blank = Z.to_nat (width self * height self))
          by apply length_replicate.
        destruct (decode self buffer blank) as [log [[im|]|e|]];
          cbn [snd] in *.
        -- cbn. split; [done|]. split; [done|].
           exists im. split; [done|]. by apply Hk.
        -- cbn. split; [done|]. split; [done|]. by exists blank.
        -- cbn in Ho. subst e. cbn. split; [done|]. split; [done|]. auto.
        -- done.
      * unfold read_image. rewrite (verify_true_log self Hv). cbn [negb].
        rewrite (getitem_lookup (flags self) 0 f0) by (done || lia).
        unfold fseek, fopen. cbn [f_data].
        destruct (Z.ltb_spec (offset555 self - byte_val f0) 0); [|lia].
        cbn. repeat split; try done. auto.
    + unfold read_image. rewrite (verify_true_log self Hv). cbn [negb].
      assert (Hg : getitem (flags self) 0 = Raise IndexError).
      { destruct (flags self) as [|b l]; [reflexivity|discriminate Hf0]. }
      rewrite Hg. cbn. repeat split; try done. auto.
  - unfold read_image. destruct (verify self) as [ok vlog]. cbn in Hv.
    subst ok. cbn. repeat split; try done. auto.
Qed.

(** X6.  Whatever the image type and however [read_image] ends, the raster
    it leaves in [self.image] has [width * height] pixels and each of them is
    either fully transparent [(0,0,0,0)] or opaque (alpha 255): the decoders
    never produce partial transparency. *)
Theorem read_image_pixels_transparent_or_opaque
    (self : Image) (f555 : list byte) (image : list quad) :
  out_image (read_image self f555) = Some image ->
  length image = Z.to_nat (width self * height self) /\
  forall q, q ∈ image -> q = (0, 0, 0, 0) \/ snd q = 255.
Proof.
  intros Hout. change (tidy (Z.to_nat (width self * height self)) image).
  destruct (fst (verify self)) eqn:Hv.
  - pose proof (proj1 (verify_true_iff self) Hv) as (Hw & Hh & Hl).
    destruct (flags self !! 0%nat) as [f0|] eqn:Hf0.
    + destruct (Z.le_gt_cases (byte_val f0) (offset555 self)) as [Hpos|Hneg].
      * rewrite (read_image_verified self f555 f0 Hv Hf0 Hpos) in Hout.
        set (buffer := fst (fread _ _)) in Hout.
        set (blank := replicate _ _) in Hout.
        pose proof (decode_grid_safe self buffer blank _ Hw (blank_tidy _))
          as [_ Hk].
        destruct (decode self buffer blank) as [log [[im|]|e|]];
          cbn [snd] in *; cbn in Hout; injection Hout as <-;
          (by apply Hk) || apply blank_tidy.
      * unfold read_image in Hout.
        rewrite (verify_true_log self Hv) in Hout. cbn [negb] in Hout.
        rewrite (getitem_lookup (flags self) 0 f0) in Hout by (done || lia).
        unfold fseek, fopen in Hout. cbn [f_data] in Hout.
        destruct (Z.ltb_spec (offset555 self - byte_val f0) 0); [|lia].
        discriminate Hout.
    + unfold read_image in Hout.
      rewrite (verify_true_log self Hv) in Hout. cbn [negb] in Hout.
      destruct (flags self) as [|b l]; [discriminate Hout|discriminate Hf0].
  - unfold read_image in Hout. destruct (verify self) as [ok vlog].
    cbn in Hv. subst ok. discriminate Hout.
Qed.

Lemma read_image_pixels_transparent_or_opaque_witness :
  let self := Samples.image_of sprite 9 0 6 1 Samples.no_flags in
  let f555 := [x03; x00; x00; xff; x7f; x1f; xf8; xff; x02] in
  let image := [(0, 0, 0, 255); (255, 255, 255, 255); (0, 0, 0, 255);
                (0, 0, 0, 0); (0, 0, 0, 0); (0, 0, 0, 0)] in
  out_image (read_image self f555) = Some image /\
  forall q, q ∈ image -> q = (0, 0, 0, 0) \/ snd q = 255.
Proof.
  intros self f555 image.
  assert (H : out_image (read_image self f555) = Some image)
    by (vm_compute; reflexivity).
  split; [exact H|].
  exact (proj2 (read_image_pixels_transparent_or_opaque self f555 image H)).
Defined.

(** ** Tile geometry *)

(** X8.  Tile resolution for a positive footprint height [bh].  Without a
    hint ([flags[3] = 0]) the regular profile is chosen whenever 30 divides
    [bh], the large one only when 40 divides [bh] and 30 does not, and when
    neither divides [bh] the isometric branch logs two errors and returns
    without decoding.  With a hint [n] the hint is used as it is: regular
    when [30 * n = bh], large when only [40 * n = bh]. *)
Theorem tile_resolution_table (bh : Z) :
  0 < bh ->
  (bh mod 30 = 0 ->
   derive_size 0 bh = (bh / 30, []) /\
   tile_profile (bh / 30) bh = Some (1800, 30, 58)) /\
  (bh mod 30 <> 0 -> bh mod 40 = 0 ->
   derive_size 0 bh = (bh / 40, []) /\
   tile_profile (bh / 40) bh = Some (3200, 40, 78)) /\
  (bh mod 30 <> 0 -> bh mod 40 <> 0 ->
   derive_size 0 bh = (0, [Error (UnknownIsometricTileSize bh)]) /\
   tile_profile 0 bh = None) /\
  (forall n, n <> 0 ->
     derive_size n bh = (n, []) /\
     (30 * n = bh -> tile_profile n bh = Some (1800, 30, 58)) /\
     (30 * n <> bh -> 40 * n = bh ->
      tile_profile n bh = Some (3200, 40, 78)) /\
     (30 * n <> bh -> 40 * n <> bh -> tile_profile n bh = None)).
Proof.
  intros Hbh.
  unfold derive_size, tile_profile, isometricTileHeight,
    isometricLargeTileHeight, isometricTileBytes, isometricLargeTileBytes,
    isometricTileWidth, isometricLargeTileWidth.
  rewrite !Z.quot_div_nonneg by lia. cbn [Z.eqb].
  repeat split.
  - destruct (Z.eqb_spec (bh mod 30) 0); [|done].
    pose proof (Z.div_mod bh 30).
    destruct (Z.eqb_spec (bh / 30) 0); [lia|done].
  - pose proof (Z.div_mod bh 30).
    destruct (Z.eqb_spec (30 * (bh / 30)) bh); [done|lia].
  - destruct (Z.eqb_spec (bh mod 30) 0); [done|].
    destruct (Z.eqb_spec (bh mod 40) 0); [|done].
    pose proof (Z.div_mod bh 40).
    destruct (Z.eqb_spec (bh / 40) 0); [lia|done].
  - pose proof (Z.div_mod bh 40). pose proof (Z.div_mod bh 30).
    pose proof (Z.mod_pos_bound bh 30).
    destruct (Z.eqb_spec (30 * (bh / 40)) bh) as [E|_].
    + exfalso. apply H. rewrite <- E.
      rewrite Z.mul_comm. apply Z.mod_mul. lia.
    + destruct (Z.eqb_spec (40 * (bh / 40)) bh); [done|lia].
  - destruct (Z.eqb_spec (bh mod 30) 0); [done|].
    destruct (Z.eqb_spec (bh mod 40) 0); done.
  - destruct (Z.eqb_spec (30 * 0) bh); [lia|].
    destruct (Z.eqb_spec (40 * 0) bh); [lia|done].
  - destruct (Z.eqb_spec n 0); done.
  - intros ->. by rewrite Z.eqb_refl.
  - intros Hn <-. destruct (Z.eqb_spec (30 * n) (40 * n)); [lia|].
    by rewrite Z.eqb_refl.
  - intros H30 H40.
    destruct (Z.eqb_spec (30 * n) bh); [done|].
    destruct (Z.eqb_spec (40 * n) bh); done.
Qed.

Lemma tile_resolution_table_witness :
  derive_size 0 80 = (2, []) /\ tile_profile 2 80 = Some (3200, 40, 78).
Proof.
  destruct (tile_resolution_table 80) as (_ & H & _); [lia|].
  apply H; [vm_compute; discriminate | reflexivity].
Defined.

(** X9.  When an isometric record of positive width passes both geometry
    checks, the tile count is at least 1, the footprint height is a whole
    number of tile heights, and the declared base length is what
    [size * size] tiles occupy when the width is even; for an odd width it
    exceeds that by [baseHeight] bytes. *)
Theorem footprint_holds_whole_tiles
    (self : Image) (size tileBytes tileHeight tileWidth : Z) :
  0 < width self ->
  let baseHeight := Z.quot (width self + 2) 2 in
  tile_profile size baseHeight = Some (tileBytes, tileHeight, tileWidth) ->
  (width self + 2) * baseHeight = uncompressedLength self ->
  1 <= size /\
  tileHeight * size = baseHeight /\
  (Z.even (width self) = true ->
   uncompressedLength self = size * size * tileBytes) /\
  (Z.odd (width self) = true ->
   uncompressedLength self = size * size * tileBytes + baseHeight).
Proof.
  intros Hw baseHeight Hprof Hfoot.
  assert (Hbh : 1 <= baseHeight /\
                (Z.even (width self) = true -> width self + 2 = 2 * baseHeight) /\
                (Z.odd (width self) = true ->
                 width self + 2 = 2 * baseHeight + 1)).
  { unfold baseHeight. rewrite Z.quot_div_nonneg by lia.
    pose proof (Z.div_mod (width self + 2) 2).
    pose proof (Z.mod_pos_bound (width self + 2) 2).
    repeat split; [lia| |].
    - intros He. apply Z.even_spec in He as [k Hk]. lia.
    - intros Ho. apply Z.odd_spec in Ho as [k Hk]. lia. }
  destruct Hbh as (Hb1 & Heven & Hodd).
  unfold tile_profile, isometricTileHeight, isometricLargeTileHeight,
    isometricTileBytes, isometricLargeTileBytes in Hprof.
  destruct (Z.eqb_spec (30 * size) baseHeight) as [E|_].
  - injection Hprof as <- <- <-. repeat split; try lia.
    + intros He. apply Heven in He. nia.
    + intros Ho. apply Hodd in Ho. nia.
  - destruct (Z.eqb_spec (40 * size) baseHeight) as [E|_]; [|done].
    injection Hprof as <- <- <-. repeat split; try lia.
    + intros He. apply Heven in He. nia.
    + intros Ho. apply Hodd in Ho. nia.
Qed.

Lemma footprint_holds_whole_tiles_witness :
  uncompressedLength
    (Samples.image_of isometric 7300 7200 118 60 Samples.no_flags)
  = 2 * 2 * 1800.
Proof.
  destruct (footprint_holds_whole_tiles
              (Samples.image_of isometric 7300 7200 118 60 Samples.no_flags)
              2 1800 30 58) as (_ & _ & H & _);
    [cbn; lia | reflexivity | reflexivity |].
  apply H. reflexivity.
Defined.

(** ** How much of the buffer the isometric decoder needs *)

(** A successful [for] loop, read backwards: a counter that every
    successful iteration advances by [cnt a]. *)
Lemma for_each_Ok_sum {A S} (P : nat -> S -> Prop) (cnt : A -> nat)
    (l : list A) (body : A -> S -> result S) (st st' : S) (n : nat) :
  P n st ->
  (forall a s s' k, P k s -> body a s = Ok s' -> P (k + cnt a)%nat s') ->
  for_each l body st = Ok st' ->
  P (n + sum_list (cnt <$> l))%nat st'.
Proof.
  intros HP Hb. revert st n HP.
  induction l as [|a l IH]; intros st n HP Hrun; cbn [for_each] in Hrun.
  - injection Hrun as <-. cbn. by rewrite Nat.add_0_r.
  - apply bind_Ok_inv in Hrun as (s1 & H1 & Hrest).
    cbn [fmap list_fmap sum_list].
    replace (n + (cnt a + sum_list (cnt <$> l)))%nat
      with ((n + cnt a) + sum_list (cnt <$> l))%nat by lia.
    apply (IH s1); [|done]. by eapply Hb.
Qed.

Lemma sum_list_const_1 {A} (l : list A) :
  sum_list ((fun _ => 1%nat) <$> l) = length l.
Proof. induction l as [|a l IH]; cbn; [done|]. by rewrite IH. Qed.

Lemma tile_pixel_consumes (self : Image) (buffer : list byte)
    (xOffset yOffset y x : Z) (st st' : Z * list quad) (k : nat) :
  consumed buffer k st ->
  tile_pixel self buffer xOffset yOffset y x st = Ok st' ->
  consumed buffer (k + 1) st'.
Proof.
  destruct st as [i image]. intros [Hi Hle] Hrun. cbn [fst] in Hi. subst i.
  unfold tile_pixel in Hrun.
  apply bind_Ok_inv in Hrun as (hi & Hhi & Hrun).
  apply bind_Ok_inv in Hrun as (lo & _ & Hrun).
  apply bind_Ok_inv in Hrun as (im & _ & Hrun).
  injection Hrun as <-.
  apply getitem_Ok_inv in Hhi; [|lia]. apply lookup_lt_Some in Hhi.
  split; cbn [fst]; lia.
Qed.

Lemma tile_rows_consume (self : Image) (buffer : list byte)
    (xOffset yOffset : Z) (rows : list Z) (span : Z -> list Z)
    (st st' : Z * list quad) (k : nat) :
  consumed buffer k st ->
  for_each rows
    (fun y => for_each (span y) (tile_pixel self buffer xOffset yOffset y))
    st = Ok st' ->
  consumed buffer (k + sum_list ((fun y => length (span y)) <$> rows)) st'.
Proof.
  intros Hk Hrun.
  refine (for_each_Ok_sum (consumed buffer) (fun y => length (span y))
            rows _ st st' k Hk _ Hrun).
  intros y s s' j Hj Hrow.
  rewrite <- (sum_list_const_1 (span y)).
  refine (for_each_Ok_sum (consumed buffer) (fun _ => 1%nat) (span y)
            _ s s' j Hj _ Hrow).
  intros x t t' m Hm Hpix. by eapply tile_pixel_consumes.
Qed.

Lemma writeIsometricTile_only_index_error (self : Image) (image : list quad)
    (buffer : list byte) (xOffset yOffset tileWidth tileHeight : Z) :
  only_index_error
    (writeIsometricTile self image buffer xOffset yOffset tileWidth
                        tileHeight).
Proof.
  unfold writeIsometricTile.
  assert (Hrows : forall (rows : list Z) (span : Z -> list Z) st,
            only_index_error
              (for_each rows
                 (fun y => for_each (span y)
                             (tile_pixel self buffer xOffset yOffset y)) st)).
  { intros rows span st.
    apply (for_each_only_index_error (fun _ => True)); [|done].
    intros y s _. split; [|done].
    apply (for_each_only_index_error (fun _ => True)); [|done].
    intros x [i im] _. split; [|done]. unfold tile_pixel.
    apply only_index_error_bind; [apply getitem_only_index_error|intros hi _].
    apply only_index_error_bind; [apply getitem_only_index_error|intros lo _].
    apply only_index_error_bind; [apply setitem_only_index_error|done]. }
  apply only_index_error_bind; [apply Hrows|intros st1 _].
  apply only_index_error_bind; [apply Hrows|done].
Qed.

Lemma writeIsometricTile_consumes (self : Image) (image image' : list quad)
    (buffer : list byte) (xOffset yOffset tileWidth tileHeight : Z) :
  writeIsometricTile self image buffer xOffset yOffset tileWidth tileHeight
  = Ok image' ->
  2 * Z.of_nat (tile_samples tileWidth tileHeight) <= Z.of_nat (length buffer).
Proof.
  intros Hrun. unfold writeIsometricTile in Hrun.
  apply bind_Ok_inv in Hrun as (st1 & H1 & Hrun).
  apply bind_Ok_inv in Hrun as (st2 & H2 & Hrun).
  assert (H0 : consumed buffer 0 (0, image)) by (split; cbn; lia).
  pose proof (tile_rows_consume self buffer xOffset yOffset _ _ _ _ 0
                H0 H1) as Hc1.
  pose proof (tile_rows_consume self buffer xOffset yOffset _ _ _ _ _
                Hc1 H2) as [_ Hc2].
  unfold tile_samples. rewrite Nat.add_0_l in Hc2. exact Hc2.
Qed.

(** X10.  A tile is decoded from exactly [tile_samples] two-byte samples,
    900 for the regular and 1600 for the large profile, that is from
    [isometricTileBytes] = 1800 and [isometricLargeTileBytes] = 3200 bytes:
    [writeIsometricTile] succeeds only on a buffer of at least that many
    bytes, and on a shorter one it raises [IndexError]. *)
Theorem writeIsometricTile_needs_tile_bytes
    (self : Image) (image : list quad) (buffer : list byte)
    (xOffset yOffset tileBytes tileHeight tileWidth : Z) :
  (tileBytes, tileHeight, tileWidth)
    = (isometricTileBytes, isometricTileHeight, isometricTileWidth) \/
  (tileBytes, tileHeight, tileWidth)
    = (isometricLargeTileBytes, isometricLargeTileHeight,
       isometricLargeTileWidth) ->
  tileBytes = 2 * Z.of_nat (tile_samples tileWidth tileHeight) /\
  (forall image',
     writeIsometricTile self image buffer xOffset yOffset tileWidth tileHeight
     = Ok image' ->
     tileBytes <= Z.of_nat (length buffer)) /\
  (Z.of_nat (length buffer) < tileBytes ->
   writeIsometricTile self image buffer xOffset yOffset tileWidth tileHeight
   = Raise IndexError).
Proof.
  intros Hprof.
  assert (Hbytes : tileBytes = 2 * Z.of_nat (tile_samples tileWidth tileHeight)).
  { destruct Hprof as [[= -> -> ->]|[= -> -> ->]]; vm_compute; reflexivity. }
  assert (Hneed : forall image',
     writeIsometricTile self image buffer xOffset yOffset tileWidth tileHeight
     = Ok image' ->
     tileBytes <= Z.of_nat (length buffer)).
  { intros image' Hrun. rewrite Hbytes.
    by eapply writeIsometricTile_consumes. }
  split; [done|]. split; [done|].
  intros Hshort.
  pose proof (writeIsometricTile_only_index_error self image buffer xOffset
                yOffset tileWidth tileHeight) as Ho.
  destruct (writeIsometricTile self image buffer xOffset yOffset tileWidth
              tileHeight) as [im|e|] eqn:E.
  - pose proof (Hneed im eq_refl). lia.
  - cbn in Ho. by subst e.
  - done.
Qed.

Lemma writeIsometricTile_needs_tile_bytes_witness :
  writeIsometricTile (Samples.image_of isometric 1800 1800 58 30
                                       Samples.no_flags)
                     (replicate 1740 (0, 0, 0, 0)) (replicate 1799 x00)
                     0 0 58 30
  = Raise IndexError.
Proof.
  apply (writeIsometricTile_needs_tile_bytes
           (Samples.image_of isometric 1800 1800 58 30 Samples.no_flags)
           (replicate 1740 (0, 0, 0, 0)) (replicate 1799 x00) 0 0
           1800 30 58).
  - left. reflexivity.
  - rewrite length_replicate. lia.
Defined.

(** A successful [for k in range(n)], read backwards. *)
Lemma for_each_range_Ok_inv {S} (P : Z -> S -> Prop) (n : Z)
    (body : Z -> S -> result S) (st st' : S) :
  P 0 st ->
  (forall k s s', 0 <= k < n -> P k s -> body k s = Ok s' -> P (k + 1) s') ->
  for_each (range n) body st = Ok st' ->
  P (Z.max 0 n) st'.
Proof.
  intros H0 Hstep. unfold range.
  assert (Hgen : forall m j s,
    (j + m <= Z.to_nat n)%nat -> P (Z.of_nat j) s ->
    for_each (map Z.of_nat (seq j m)) body s = Ok st' ->
    P (Z.of_nat (j + m)) st').
  { induction m as [|m IH]; intros j s Hle HP Hrun.
    - cbn in Hrun. injection Hrun as <-. by rewrite Nat.add_0_r.
    - cbn [seq map for_each] in Hrun.
      apply bind_Ok_inv in Hrun as (s1 & H1 & Hrest).
      replace (j + Datatypes.S m)%nat with (Datatypes.S j + m)%nat by lia.
      apply (IH (Datatypes.S j) s1); [lia| |done].
      replace (Z.of_nat (Datatypes.S j)) with (Z.of_nat j + 1) by lia.
      apply (Hstep _ s); [lia|done|done]. }
  intros Hrun.
  replace (Z.max 0 n) with (Z.of_nat (0 + Z.to_nat n)) by lia.
  by apply (Hgen (Z.to_nat n) 0%nat st).
Qed.

Lemma base_mosaic_needs_tiles (self : Image) (buffer : list byte)
    (size tileBytes tileHeight tileWidth yOffset : Z)
    (image B : list quad) :
  1 <= size -> 0 < tileBytes ->
  tileBytes = 2 * Z.of_nat (tile_samples tileWidth tileHeight) ->
  base_mosaic self buffer size tileBytes tileHeight tileWidth yOffset image
  = Ok B ->
  size * size * tileBytes <= Z.of_nat (length buffer).
Proof.
  intros Hsize Htb Hsamples Hrun. unfold base_mosaic in Hrun.
  apply bind_Ok_inv in Hrun as (st & Hloop & _).
  pose proof (for_each_range_Ok_inv (mosaic_inv buffer size tileBytes)
                (size + (size - 1))
                (mosaic_row self buffer size tileBytes tileHeight tileWidth)
                (0, yOffset, image) st) as Hend.
  destruct Hend as (Hi0 & Hle & _ & Hfin); [| |done|].
  - unfold mosaic_inv. cbn. repeat split; nia.
  - intros y [[i yo] im] s' Hy (Hi & Hbuf & Hlow & Hhigh) Hrow.
    cbn [fst] in *. unfold mosaic_row in Hrow.
    apply bind_Ok_inv in Hrow as ([[i1 xo1] im1] & Hin & Hrow).
    injection Hrow as <-.
    set (wd := if y <? size then y + 1 else 2 * size - y - 1) in *.
    set (Pin := fun x (t : Z * Z * list quad) =>
                  fst (fst t) = i + x /\
                  fst (fst t) * tileBytes <= Z.of_nat (length buffer)).
    assert (Hrowend : Pin (Z.max 0 wd) (i1, xo1, im1)).
    { refine (for_each_range_Ok_inv Pin wd _ _ _ _ _ Hin).
      - unfold Pin. cbn [fst]. split; [lia|done].
      - intros x [[i' xo'] im'] t' Hx [Hi' Hb'] Htile. unfold Pin.
        cbn [fst] in *.
        apply bind_Ok_inv in Htile as (im'' & Htile & Hret).
        injection Hret as <-. cbn [fst].
        apply writeIsometricTile_consumes in Htile.
        unfold slice_from in Htile.
        destruct (Z.leb_spec 0 (i' * tileBytes)) as [_|Hneg]; [|nia].
        rewrite length_drop in Htile. split; [lia|]. nia. }
    destruct Hrowend as [Hi1 Hb1].
    cbn [fst] in *. unfold mosaic_inv. cbn [fst].
    assert (Hwd : 0 <= wd) by (unfold wd; destruct (y <? size); lia).
    replace (Z.max 0 wd) with wd in * by lia.
    subst i1. split; [lia|]. split; [done|].
    unfold wd. destruct (Z.ltb_spec y size); split; intros; nia.
  - cbn [fst] in *.
    replace (Z.max 0 (size + (size - 1))) with (2 * size - 1) in Hfin by lia.
    assert (fst (fst st) = size * size) as Heq by nia.
    rewrite Heq in Hle. exact Hle.
Qed.

(** X11.  An isometric decode that succeeds has read [size * size] tiles,
    so the slice holds at least [size * size * tileBytes] bytes; for an even
    width this is [uncompressedLength]: a slice cut short inside the base
    layer never yields an image. *)
Theorem read_isometric_needs_base_layer
    (self : Image) (buffer : list byte) (image image' : list quad) :
  0 < width self ->
  snd (read_isometric self buffer image) = Ok (Some image') ->
  exists size tileBytes tileHeight tileWidth,
    tile_profile size (Z.quot (width self + 2) 2)
      = Some (tileBytes, tileHeight, tileWidth) /\
    size * size * tileBytes <= Z.of_nat (length buffer) /\
    (Z.even (width self) = true ->
     uncompressedLength self <= Z.of_nat (length buffer)).
Proof.
  intros Hw Hrun. unfold read_isometric in Hrun.
  destruct (getitem (flags self) 3) as [f3| |]; [|done..].
  destruct (derive_size _ _) as [size log].
  destruct (tile_profile size _) as [[[tb th] tw]|] eqn:Hprof; [|done].
  destruct (Z.eqb_spec ((width self + 2) * Z.quot (width self + 2) 2)
              (uncompressedLength self)) as [Hfoot|_]; [|done].
  cbn [negb snd] in Hrun.
  apply bind_Ok_inv in Hrun as (B & Hmosaic & _).
  exists size, tb, th, tw. split; [done|].
  assert (Hbh : 1 <= Z.quot (width self + 2) 2 /\
                (Z.even (width self) = true ->
                 width self + 2 = 2 * Z.quot (width self + 2) 2)).
  { rewrite Z.quot_div_nonneg by lia.
    pose proof (Z.div_mod (width self + 2) 2).
    pose proof (Z.mod_pos_bound (width self + 2) 2).
    split; [lia|]. intros He. apply Z.even_spec in He as [k Hk]. lia. }
  destruct Hbh as [Hb1 Heven].
  assert (Hfacts : 1 <= size /\ 0 < tb /\
                   tb = 2 * Z.of_nat (tile_samples tw th) /\
                   (Z.even (width self) = true ->
                    uncompressedLength self = size * size * tb)).
  { unfold tile_profile, isometricTileHeight, isometricLargeTileHeight,
      isometricTileBytes, isometricLargeTileBytes, isometricTileWidth,
      isometricLargeTileWidth in Hprof.
    destruct (Z.eqb_spec (30 * size) (Z.quot (width self + 2) 2)) as [E|_].
    - injection Hprof as <- <- <-.
      split; [lia|]. split; [lia|]. split; [vm_compute; reflexivity|].
      intros He. apply Heven in He. nia.
    - destruct (Z.eqb_spec (40 * size) (Z.quot (width self + 2) 2))
        as [E|_]; [|done].
      injection Hprof as <- <- <-.
      split; [lia|]. split; [lia|]. split; [vm_compute; reflexivity|].
      intros He. apply Heven in He. nia. }
  destruct Hfacts as (Hs & Htb & Hsamples & HuL).
  pose proof (base_mosaic_needs_tiles self buffer size tb th tw _ image B
                Hs Htb Hsamples Hmosaic) as Hneed.
  split; [done|]. intros He. rewrite (HuL He). exact Hneed.
Qed.

Lemma read_isometric_needs_base_layer_witness :
  let self := Samples.image_of isometric 1800 1800 58 30 Samples.no_flags in
  let buffer := replicate 1800 x00 in
  exists image',
    snd (read_isometric self buffer (replicate 1740 (0, 0, 0, 0)))
    = Ok (Some image') /\
    uncompressedLength self <= Z.of_nat (length buffer).
Proof.
  intros self buffer.
  assert (H : exists image',
            snd (read_isometric self buffer (replicate 1740 (0, 0, 0, 0)))
            = Ok (Some image'))
    by (vm_compute; eexists; reflexivity).
  destruct H as [im H]. exists im. split; [exact H|].
  destruct (read_isometric_needs_base_layer self buffer _ im
              ltac:(cbn; lia) H) as (size & tb & th & tw & _ & _ & He).
  apply He. reflexivity.
Defined.

(** ** Reading a record header *)

Lemma fread_full (data : list byte) (p n : Z) :
  0 <= p -> 0 <= n -> p + n <= Z.of_nat (length data) ->
  fread (File data p) n = (bytes_at data p n, File data (p + n)).
Proof.
  intros Hp Hn Hle. unfold fread, bytes_at. cbn [f_data f_pos].
  destruct (Z.ltb_spec n 0); [lia|].
  rewrite length_take, length_drop. do 2 f_equal. lia.
Qed.

(** Runs the reads and seeks of [read_header] on a record that lies inside
    the file: [Hoff : 0 <= offset], [Hlen64 : offset + 64 <= length sg]. *)
Ltac read_header_steps sg offset :=
  unfold read_header, fopen, fseek_cur, fseek, read_int, read_int_signed;
  cbn [f_data f_pos];
  destruct (Z.ltb_spec offset 0); [lia|];
  rewrite fread_full by lia; cbn [f_data f_pos];
  destruct (Z.ltb_spec (offset + 1 + 7) 0); [lia|];
  rewrite !fread_full by (cbn [f_data f_pos]; lia); cbn [f_data f_pos];
  destruct (Z.ltb_spec (offset + 1 + 7 + 4 + 4 + 4 + 4) 0); [lia|];
  rewrite !fread_full by (cbn [f_data f_pos]; lia); cbn [f_data f_pos];
  destruct (Z.ltb_spec
              (offset + 1 + 7 + 4 + 4 + 4 + 4 + 4 + 2 + 2 + 2 + 2 + 22) 0);
    [lia|];
  rewrite !fread_full by (cbn [f_data f_pos]; lia); cbn [f_data f_pos];
  replace (offset + 1 + 7) with (offset + 8) by lia;
  replace (offset + 8 + 4) with (offset + 12) by lia;
  replace (offset + 12 + 4) with (offset + 16) by lia;
  replace (offset + 16 + 4 + 4) with (offset + 24) by lia;
  replace (offset + 24 + 4) with (offset + 28) by lia;
  replace (offset + 28 + 2) with (offset + 30) by lia;
  replace (offset + 30 + 2) with (offset + 32) by lia;
  replace (offset + 32 + 2) with (offset + 34) by lia;
  replace (offset + 34 + 2 + 22) with (offset + 58) by lia;
  replace (offset + 58 + 2) with (offset + 60) by lia.

(** X12.  The layout that [read_header] decodes.  For a record that lies
    wholly inside the metadata file, the fields are the little-endian
    integers at fixed places of the 64-byte record: the id at byte 0, the
    offset, length and uncompressed length at bytes 8, 12 and 16, the signed
    invert offset at byte 24, the signed width and height at bytes 28 and
    30, the x and y offsets at bytes 32 and 34, the type code at byte 58 and
    the four flag bytes at byte 60; with the alpha variant two more 32-bit
    fields follow.  [self.offset] ends just behind the record. *)
Theorem read_header_layout (sg : list byte) (offset : Z)
    (includeAlpha : bool) (imgNum : Z) :
  0 <= offset ->
  offset + (if includeAlpha then 72 else 64) <= Z.of_nat (length sg) ->
  let code := int_from_bytes (bytes_at sg (offset + 58) 2) in
  read_header sg offset includeAlpha imgNum =
    (snd (get_img_type code),
     Ok {| ImagePy.includeAlpha := includeAlpha;
           ImagePy.imgNum := imgNum;
           bitmapID := int_from_bytes (bytes_at sg offset 1);
           offset555 := int_from_bytes (bytes_at sg (offset + 8) 4);
           length_ := int_from_bytes (bytes_at sg (offset + 12) 4);
           uncompressedLength := int_from_bytes (bytes_at sg (offset + 16) 4);
           invertOffset :=
             int_from_bytes_signed (bytes_at sg (offset + 24) 4);
           width := int_from_bytes_signed (bytes_at sg (offset + 28) 2);
           height := int_from_bytes_signed (bytes_at sg (offset + 30) 2);
           xOffset := int_from_bytes (bytes_at sg (offset + 32) 2);
           yOffset := int_from_bytes (bytes_at sg (offset + 34) 2);
           imgType := fst (get_img_type code);
           flags := bytes_at sg (offset + 60) 4;
           alphaOffset :=
             if includeAlpha
             then int_from_bytes (bytes_at sg (offset + 64) 4) else 0;
           alphaLength :=
             if includeAlpha
             then int_from_bytes (bytes_at sg (offset + 68) 4) else 0;
           ImagePy.offset := offset + (if includeAlpha then 72 else 64) |}).
Proof.
  intros Hoff Hlen code.
  assert (Hlen64 : offset + 64 <= Z.of_nat (length sg))
    by (destruct includeAlpha; lia).
  read_header_steps sg offset.
  fold code. destruct (get_img_type code) as [ty log].
  destruct includeAlpha.
  - rewrite !fread_full by (cbn [f_data f_pos]; lia). cbn [f_data f_pos].
    cbn [fst snd].
    replace (offset + 60 + 4) with (offset + 64) by lia.
    replace (offset + 64 + 4) with (offset + 68) by lia.
    replace (offset + 68 + 4) with (offset + 72) by lia.
    reflexivity.
  - cbn [fst snd f_pos].
    replace (offset + 60 + 4) with (offset + 64) by lia.
    reflexivity.
Qed.

Lemma read_header_layout_witness :
  let sg := Samples.header 0 20 20 2 5 0 Samples.no_flags in
  read_header sg 0 false 0
  = ([], Ok (Samples.image_of plain 20 20 2 5 Samples.no_flags)).
Proof.
  intros sg.
  pose proof (read_header_layout sg 0 false 0 ltac:(lia)
                ltac:(vm_compute; discriminate)) as H.
  cbv zeta in H. rewrite H. vm_compute. reflexivity.
Defined.

Lemma fread_eof (data : list byte) (p n : Z) :
  0 <= p -> Z.of_nat (length data) <= p ->
  fread (File data p) n = ([], File data p).
Proof.
  intros Hp Hle. unfold fread. cbn [f_data f_pos].
  rewrite drop_ge by lia. rewrite take_nil.
  destruct (n <? 0); cbn [length]; by rewrite Z.add_0_r.
Qed.

(** X13.  A header read at or behind the end of the metadata file is not an
    error.  For an offset that fits a signed 32-bit file offset every [read]
    returns no bytes, so [read_header] raises nothing and logs nothing, and
    yields a record of type plain with every numeric field 0 and empty
    flags, [self.offset] having moved by the 33 bytes of the three relative
    seeks.  [read_image] on that record raises [ImageError] for its
    dimensions, before the companion file is opened. *)
Theorem read_header_past_end (sg : list byte) (offset : Z)
    (includeAlpha : bool) (imgNum : Z) (f555 : list byte) :
  0 <= offset < 2 ^ 31 - 33 -> Z.of_nat (length sg) <= offset ->
  exists self,
    read_header sg offset includeAlpha imgNum = ([], Ok self) /\
    self = {| ImagePy.includeAlpha := includeAlpha;
              ImagePy.imgNum := imgNum;
              bitmapID := 0; offset555 := 0; length_ := 0;
              uncompressedLength := 0; invertOffset := 0;
              width := 0; height := 0; xOffset := 0; yOffset := 0;
              imgType := plain; flags := [];
              alphaOffset := 0; alphaLength := 0;
              ImagePy.offset := offset + 33 |} /\
    read_image self f555
    = Outcome [Error (InvalidDimensions 0 0)] (Some ImageError) false None.
Proof.
  intros [Hoff Hmax] Hlen. eexists. split; [|split; [reflexivity|reflexivity]].
  unfold read_header, fopen, fseek_cur, fseek, read_int, read_int_signed.
  cbn [f_data f_pos].
  destruct (Z.ltb_spec offset 0); [lia|].
  rewrite fread_eof by lia. cbn [f_data f_pos].
  destruct (Z.ltb_spec (offset + 7) 0); [lia|].
  rewrite !fread_eof by lia. cbn [f_data f_pos].
  destruct (Z.ltb_spec (offset + 7 + 4) 0); [lia|].
  rewrite !fread_eof by lia. cbn [f_data f_pos].
  destruct (Z.ltb_spec (offset + 7 + 4 + 22) 0); [lia|].
  rewrite !fread_eof by lia. cbn [f_data f_pos].
  replace (offset + 7 + 4 + 22) with (offset + 33) by lia.
  destruct includeAlpha; reflexivity.
Qed.

Lemma read_header_past_end_witness :
  exists self,
    read_header [x01; x02; x03] 3 true 7 = ([], Ok self) /\
    width self = 0 /\
    read_image self [x00; x00]
    = Outcome [Error (InvalidDimensions 0 0)] (Some ImageError) false None.
Proof.
  destruct (read_header_past_end [x01; x02; x03] 3 true 7 [x00; x00]
              ltac:(lia) ltac:(cbn; lia)) as (self & Hrun & Hself & Himg).
  exists self. split; [exact Hrun|]. split; [|exact Himg].
  rewrite Hself. reflexivity.
Defined.

(** ** The eager reader, [Bitmap.read_images] *)

Lemma range_pos_cons (n : Z) : 0 < n -> exists l, range n = 0 :: l.
Proof.
  intros Hn. unfold range.
  destruct (Z.to_nat n) as [|k] eqn:E; [lia|].
  cbn [seq map]. by eexists.
Qed.

(** X14.  The isometric branch of [Bitmap.read_images] never yields an
    image.  For every record of type 30 and every slice it ends in one of
    three ways: it logs "Unknown tile size" or "Data length doesn't match
    footprint size" and continues with the next record; or, having passed
    both checks, it raises [TypeError] at a [range] of a float (the derived
    [size], or [tileHeight / 2] in the first tile); an [IndexError] can
    only come from [flags[3]].  Nothing is appended to [self.images]. *)
Theorem eager_isometric_never_decodes (pil : Type)
    (frombuffer : Z -> Z -> list byte -> result pil)
    (r : BitmapPy.record_header) (buffer : list byte) :
  BitmapPy.r_imgType r = 30 ->
  exists log res,
    BitmapPy.decode pil frombuffer r buffer = (log, res) /\
    ((res = Ok None /\
      (log = [Error TileSizeUnknown] \/ log = [Error FootprintSizeMismatch]))
     \/ (log = [] /\ res = Raise TypeError /\
         (BitmapPy.r_width r + 2) * BitmapPy.r_height r
         = BitmapPy.r_uncompressed_length r)
     \/ (log = [] /\ res = Raise IndexError /\
         (length (BitmapPy.r_flags r) < 4)%nat)).
Proof.
  intros Hty. unfold BitmapPy.decode. rewrite Hty.
  change (existsb (Z.eqb 30) [0; 1; 10; 12; 13]) with false.
  change (30 =? 30) with true. cbn match.
  unfold BitmapPy.read_isometric.
  destruct (getitem (BitmapPy.r_flags r) 3) as [f3| e |] eqn:Hf3.
  2: { pose proof (getitem_only_index_error (BitmapPy.r_flags r) 3) as He.
       rewrite Hf3 in He. cbn in He. subst e.
       do 2 eexists. split; [reflexivity|]. right. right.
       split; [done|]. split; [done|].
       destruct (decide (length (BitmapPy.r_flags r) < 4)%nat) as [|Hge];
         [done|].
       destruct (lookup_lt_is_Some_2 (BitmapPy.r_flags r) 3 ltac:(lia))
         as [b Hb].
       rewrite (getitem_lookup _ 3 b) in Hf3; [discriminate|lia|done]. }
  2: { by apply getitem_not_Hang in Hf3. }
  pose proof (byte_val_range f3) as Hb.
  destruct (BitmapPy.tile_profile _ _) as [[[tileBytes tileHeight] tileWidth]|]
    eqn:Hprof.
  2: { do 2 eexists. split; [reflexivity|]. left. split; [done|]. by left. }
  destruct (Z.eqb_spec ((BitmapPy.r_width r + 2) * BitmapPy.r_height r)
              (BitmapPy.r_uncompressed_length r)) as [Hfoot|Hfoot];
    cbn [negb].
  2: { do 2 eexists. split; [reflexivity|]. left. split; [done|]. by right. }
  do 2 eexists. split; [reflexivity|]. right. left.
  split; [done|]. split; [|done].
  destruct (BitmapPy.derive_size (byte_val f3) (BitmapPy.r_height r))
    as [z|z] eqn:Hsize; cbn [BitmapPy.range_num]; [|reflexivity].
  assert (Hz : 0 < z).
  { revert Hsize Hprof. unfold BitmapPy.derive_size, BitmapPy.tile_profile.
    destruct (Z.eqb_spec (byte_val f3) 0) as [H0|H0].
    - destruct (Z.eqb_spec (BitmapPy.r_height r mod BitmapPy.isometricTileHeight) 0)
        as [|H30]; [discriminate|].
      destruct (Z.eqb_spec (BitmapPy.r_height r mod BitmapPy.isometricLargeTileHeight) 0)
        as [|H40]; [discriminate|].
      intros [= <-]. rewrite H0. cbn [BitmapPy.num_val].
      rewrite !Z.mul_0_r.
      destruct (Z.eqb_spec 0 (BitmapPy.r_height r)) as [Hh|Hh];
        [|discriminate].
      rewrite <- Hh in H30. by vm_compute in H30.
    - intros [= <-]. lia. }
  simpl_bind.
  destruct (range_pos_cons (z + (z - 1)) ltac:(lia)) as [l ->].
  cbn [for_each BitmapPy.num_val]. simpl_bind.
  destruct (Z.ltb_spec 0 z); [|lia].
  change (range (0 + 1)) with [0]. reflexivity.
Qed.

Lemma eager_isometric_never_decodes_witness :
  let r := {| BitmapPy.r_offset := 0; BitmapPy.r_length := 1800;
              BitmapPy.r_uncompressed_length := 1800;
              BitmapPy.r_invert_offset := 0; BitmapPy.r_width := 58;
              BitmapPy.r_height := 30; BitmapPy.r_imgType := 30;
              BitmapPy.r_flags := Samples.no_flags;
              BitmapPy.r_bitmap_id := 1; BitmapPy.r_alpha_length := 0 |} in
  let buffer := replicate 1800 x00 in
  BitmapPy.decode (list byte) Samples.keep_data r buffer
  = ([], Raise TypeError) /\
  exists log res,
    BitmapPy.decode (list byte) Samples.keep_data r buffer = (log, res) /\
    ((res = Ok None /\
      (log = [Error TileSizeUnknown] \/ log = [Error FootprintSizeMismatch]))
     \/ (log = [] /\ res = Raise TypeError /\
         (BitmapPy.r_width r + 2) * BitmapPy.r_height r
         = BitmapPy.r_uncompressed_length r)
     \/ (log = [] /\ res = Raise IndexError /\
         (length (BitmapPy.r_flags r) < 4)%nat)).
Proof.
  intros r buffer. split; [reflexivity|].
  exact (eager_isometric_never_decodes (list byte) Samples.keep_data r
           buffer eq_refl).
Defined.

Lemma wrap_rows_nonpos (fuel : nat) (w x y : Z) :
  w <= 0 -> 0 <= x -> wrap_rows fuel w x y = Hang.
Proof.
  intros Hw. revert x y.
  induction fuel as [|fuel IH]; intros x y Hx; cbn [wrap_rows];
    (destruct (Z.leb_spec w x); [|lia]); [done|].
  apply IH. lia.
Qed.

(** X15.  The sprite branch of [Bitmap.read_images] does not check the
    dimensions, unlike [Image.read_image].  With [width <= 0] a skip run
    never ends: [while (x >= width)] only moves [x] further from the exit,
    so every iteration of the outer loop that meets the marker 255 with a
    count byte behind it, at a cursor [x >= 0], hangs; in particular the
    call does not return for a stream that starts with a skip run. *)
Theorem eager_sprite_skip_hangs (pil : Type)
    (frombuffer : Z -> Z -> list byte -> result pil)
    (r : BitmapPy.record_header) (buffer : list byte) (n : byte) :
  BitmapPy.r_width r <= 0 ->
  (forall s : BitmapPy.sprite_state,
     0 <= BitmapPy.ss_i s -> 0 <= BitmapPy.ss_x s ->
     buffer !! Z.to_nat (BitmapPy.ss_i s) = Some xff ->
     buffer !! Z.to_nat (BitmapPy.ss_i s + 1) = Some n ->
     BitmapPy.sprite_step buffer (BitmapPy.r_width r) s = Hang) /\
  (0 < BitmapPy.r_length r ->
   buffer !! 0%nat = Some xff -> buffer !! 1%nat = Some n ->
   BitmapPy.read_sprite pil frombuffer r buffer = Hang).
Proof.
  intros Hw.
  assert (Hstep : forall s : BitmapPy.sprite_state,
     0 <= BitmapPy.ss_i s -> 0 <= BitmapPy.ss_x s ->
     buffer !! Z.to_nat (BitmapPy.ss_i s) = Some xff ->
     buffer !! Z.to_nat (BitmapPy.ss_i s + 1) = Some n ->
     BitmapPy.sprite_step buffer (BitmapPy.r_width r) s = Hang).
  { intros s Hi Hx Hc Hn. unfold BitmapPy.sprite_step.
    rewrite (getitem_lookup buffer (BitmapPy.ss_i s) xff Hi Hc). simpl_bind.
    change (byte_val xff =? 255) with true. cbn match.
    rewrite (getitem_lookup buffer (BitmapPy.ss_i s + 1) n ltac:(lia) Hn).
    simpl_bind.
    change (to_bytes 4 0) with (Ok [x00; x00; x00; x00]). simpl_bind.
    pose proof (byte_val_range n).
    rewrite wrap_rows_nonpos by lia. reflexivity. }
  split; [exact Hstep|].
  intros Hlen H0 H1. unfold BitmapPy.read_sprite.
  destruct (Z.to_nat (BitmapPy.r_length r)) as [|fuel] eqn:E; [lia|].
  cbn [BitmapPy.sprite_loop BitmapPy.ss_i].
  destruct (Z.ltb_spec 0 (BitmapPy.r_length r)); [|lia].
  rewrite Hstep; [reflexivity|cbn; lia|cbn; lia|exact H0|exact H1].
Qed.

Lemma eager_sprite_skip_hangs_witness :
  let r := {| BitmapPy.r_offset := 0; BitmapPy.r_length := 2;
              BitmapPy.r_uncompressed_length := 0;
              BitmapPy.r_invert_offset := 0; BitmapPy.r_width := 0;
              BitmapPy.r_height := 1; BitmapPy.r_imgType := 256;
              BitmapPy.r_flags := Samples.no_flags;
              BitmapPy.r_bitmap_id := 1; BitmapPy.r_alpha_length := 0 |} in
  BitmapPy.read_sprite (list byte) Samples.keep_data r [xff; x03] = Hang.
Proof.
  intros r.
  apply (eager_sprite_skip_hangs (list byte) Samples.keep_data r
           [xff; x03] x03); [cbn; lia|cbn; lia|reflexivity|reflexivity].
Defined.

Lemma read_bytewise_fold (d : list byte) (k a : nat) :
  forall (p : Z) (acc : list byte), 0 <= p ->
  fold_left
    (fun (st : list byte * file) (_ : Z) =>
       let '(b, f2) := fread (snd st) 1 in (fst st ++ b, f2))
    (map Z.of_nat (seq a k)) (acc, File d p)
  = (acc ++ take k (drop (Z.to_nat p) d),
     File d (p + Z.of_nat (length (take k (drop (Z.to_nat p) d))))).
Proof.
  set (F := fun (st : list byte * file) (_ : Z) => _).
  revert a. induction k as [|k IH]; intros a p acc Hp.
  - cbn. by rewrite app_nil_r, Z.add_0_r.
  - cbn [seq map fold_left].
    assert (HF : F (acc, File d p) (Z.of_nat a)
                 = (acc ++ take 1 (drop (Z.to_nat p) d),
                    File d (p + Z.of_nat (length (take 1 (drop (Z.to_nat p) d))))))
      by reflexivity.
    rewrite HF. clear HF.
    destruct (d !! Z.to_nat p) as [b|] eqn:Hb.
    + rewrite (drop_S d b (Z.to_nat p) Hb).
      change (take 1 (b :: drop (S (Z.to_nat p)) d)) with [b].
      cbn [length]. rewrite IH by lia.
      replace (Z.to_nat (p + Z.of_nat 1)) with (S (Z.to_nat p)) by lia.
      rewrite <- app_assoc. cbn [app take length].
      do 2 f_equal. lia.
    + apply lookup_ge_None in Hb.
      rewrite (drop_ge d (Z.to_nat p)) by lia.
      rewrite !take_nil. cbn [length]. rewrite IH by lia.
      rewrite Z.add_0_r, (drop_ge d (Z.to_nat p)) by lia.
      rewrite !take_nil, !app_nil_r. cbn [length]. by rewrite Z.add_0_r.
Qed.

Lemma read_bytewise_fread (f2 : file) (n : Z) :
  0 <= f_pos f2 -> 0 <= n ->
  BitmapPy.read_bytewise f2 n = fst (fread f2 n).
Proof.
  intros Hp Hn. destruct f2 as [d p]. cbn [f_pos] in Hp.
  unfold BitmapPy.read_bytewise, range.
  rewrite read_bytewise_fold by done. cbn [fst app].
  unfold fread. cbn [f_data f_pos fst].
  destruct (Z.ltb_spec n 0); [lia|done].
Qed.

(** X16.  Given the same record fields, both readers decode the same
    bytes.  Let a record of [Bitmap.read_images] and an [Image] agree on the
    offset, the length, the alpha length and the flags, and let the [Image]
    pass [verify].  When [read_images] gets as far as its buffer, its
    [length + alpha_length] one-byte reads after [f2.seek(offset - flags[0])]
    have collected exactly the bytes that the single [f2.read(dataLength)]
    of [Image.read_image] returns, fewer than asked for when the file ends
    early, and [read_image] is the dispatch on that very buffer.  (Without
    alpha both readers take these fields from the same bytes of the record;
    with alpha they take the alpha length from different bytes, and the
    premise on it is a real one.) *)
Theorem readers_fetch_same_slice (self : Image) (r : BitmapPy.record_header)
    (f555 : list byte) (ev : list event) (buffer : list byte) :
  BitmapPy.r_offset r = offset555 self ->
  BitmapPy.r_length r = length_ self ->
  BitmapPy.r_alpha_length r = alphaLength self ->
  BitmapPy.r_flags r = flags self ->
  fst (verify self) = true ->
  BitmapPy.read_buffer r f555 = (ev, Ok (Some buffer)) ->
  let dataLength := length_ self + alphaLength self in
  let blank := replicate (Z.to_nat (width self * height self)) (0, 0, 0, 0) in
  exists f0,
    flags self !! 0%nat = Some f0 /\
    let pos := offset555 self - byte_val f0 in
    let io := [Seek555 pos; Read555 dataLength] in
    0 <= pos /\ 0 < dataLength /\
    buffer = fst (fread (File f555 pos) dataLength) /\
    ev = Seek555 pos :: replicate (Z.to_nat dataLength) (Read555 1) /\
    read_image self f555 =
      match decode self buffer blank with
      | (log, Raise e) => Outcome (io ++ log) (Some e) false (Some blank)
      | (log, Hang) => Outcome (io ++ log) None true (Some blank)
      | (log, Ok None) => Outcome (io ++ log) None false (Some blank)
      | (log, Ok (Some image)) => Outcome (io ++ log) None false (Some image)
      end.
Proof.
  intros Ho Hl Ha Hf Hv Hrun dataLength blank.
  unfold BitmapPy.read_buffer in Hrun. rewrite Ho, Hl, Ha, Hf in Hrun.
  fold dataLength in Hrun.
  destruct (Z.leb_spec dataLength 0) as [|Hpos]; [discriminate|].
  destruct (getitem (flags self) 0) as [f0| |] eqn:Hf0; try discriminate.
  apply getitem_Ok_inv in Hf0; [|lia]. change (Z.to_nat 0) with 0%nat in Hf0.
  unfold fseek, fopen in Hrun. cbn [f_data] in Hrun.
  destruct (Z.ltb_spec (offset555 self - byte_val f0) 0) as [|Hseek];
    [discriminate|].
  injection Hrun as <- <-.
  exists f0. split; [exact Hf0|]. cbv zeta.
  split; [lia|]. split; [lia|].
  assert (Hbuf : BitmapPy.read_bytewise
                   (File f555 (offset555 self - byte_val f0)) dataLength
                 = fst (fread (File f555 (offset555 self - byte_val f0))
                          dataLength))
    by (apply read_bytewise_fread; cbn [f_pos]; lia).
  split; [exact Hbuf|]. split; [reflexivity|].
  rewrite Hbuf.
  apply (read_image_verified self f555 f0 Hv Hf0). lia.
Qed.

Lemma readers_fetch_same_slice_witness :
  let self := Samples.image_of plain 4 4 2 1 Samples.no_flags in
  let r := {| BitmapPy.r_offset := 0; BitmapPy.r_length := 4;
              BitmapPy.r_uncompressed_length := 4;
              BitmapPy.r_invert_offset := 0; BitmapPy.r_width := 2;
              BitmapPy.r_height := 1; BitmapPy.r_imgType := 0;
              BitmapPy.r_flags := Samples.no_flags;
              BitmapPy.r_bitmap_id := 1; BitmapPy.r_alpha_length := 0 |} in
  let f555 := [xff; x7f; x1f; xf8; x00] in
  BitmapPy.read_buffer r f555
  = (Seek555 0 :: replicate 4 (Read555 1), Ok (Some [xff; x7f; x1f; xf8])) /\
  read_image self f555
  = Outcome [Seek555 0; Read555 4] None false
            (Some [(255, 255, 255, 255); (0, 0, 0, 255)]).
Proof.
  intros self r f555.
  assert (Hrun : BitmapPy.read_buffer r f555
                 = (Seek555 0 :: replicate 4 (Read555 1),
                    Ok (Some [xff; x7f; x1f; xf8])))
    by (vm_compute; reflexivity).
  split; [exact Hrun|].
  destruct (readers_fetch_same_slice self r f555 _ _ eq_refl eq_refl eq_refl
              eq_refl eq_refl Hrun) as (f0 & Hf0 & _ & _ & _ & _ & Himg).
  injection Hf0 as <-. rewrite Himg. vm_compute. reflexivity.
Defined.

(** ** The two plain decoders *)

Lemma byte_of_mod (a b : Z) : a mod 256 = b mod 256 -> byte_of a = byte_of b.
Proof. intros H. unfold byte_of. by rewrite H. Qed.

Lemma le_bytes_rgba (px : Z) :
  le_bytes 4 px = quad_bytes (rgba_tuple px).
Proof.
  unfold rgba_tuple, quad_bytes. cbn [le_bytes].
  assert (Hones : forall v, Z.land v 255 = v mod 256).
  { intros v. change 255 with (Z.ones 8). by rewrite Z.land_ones by lia. }
  assert (Hfield : forall k, 0 <= k ->
            Z.shiftr (Z.land px (Z.shiftl 255 k)) k = Z.shiftr px k mod 256).
  { intros k Hk. rewrite Z.shiftr_land, Z.shiftr_shiftl_l by lia.
    rewrite Z.sub_diag, Z.shiftl_0_r. apply Hones. }
  rewrite Hones, !Hfield by lia.
  rewrite !Z.shiftr_div_pow2 by lia.
  change (2 ^ 8) with 256.
  replace (px / 256 / 256) with (px / 2 ^ 16)
    by (rewrite Z.div_div by lia; reflexivity).
  replace (px / 2 ^ 16 / 256) with (px / 2 ^ 24)
    by (rewrite Z.div_div by lia; reflexivity).
  assert (Hb : forall v, byte_of (v mod 256) = byte_of v).
  { intros v. apply byte_of_mod. by rewrite Z.mod_mod by lia. }
  by rewrite !Hb.
Qed.

Lemma plain_bytes_of_grid (self : Image) (buffer : list byte)
    (image : list quad) (n : nat) :
  (forall j, 0 <= j < Z.of_nat n ->
     exists q, image !! Z.to_nat j = Some q /\ decoded_at self buffer j q) ->
  concat (map quad_bytes (take n image))
  = eager_plain_bytes buffer (width self) n.
Proof.
  induction n as [|n IH]; intros Hcells; [by rewrite take_0|].
  destruct (Hcells (Z.of_nat n) ltac:(lia))
    as (q & Hq & lo & hi & Hlo & Hhi & ->).
  rewrite Nat2Z.id in Hq.
  rewrite (take_S_r _ _ _ Hq), map_app, concat_app, IH.
  2: { intros j Hj. apply Hcells. lia. }
  cbn [eager_plain_bytes map concat]. rewrite app_nil_r. f_equal.
  rewrite le_bytes_rgba.
  replace (Z.to_nat (2 * Z.of_nat n)) with (2 * n)%nat in Hlo by lia.
  replace (Z.to_nat (2 * Z.of_nat n + 1)) with (2 * n + 1)%nat in Hhi by lia.
  rewrite (lookup_nth buffer (2 * n)) in Hlo
    by (apply lookup_lt_Some in Hlo; lia).
  rewrite (lookup_nth buffer (2 * n + 1)) in Hhi
    by (apply lookup_lt_Some in Hhi; lia).
  by injection Hlo as <-; injection Hhi as <-.
Qed.

(** X17.  The two plain decoders build the same raster.  For a plain
    record with [width > 0], [height > 0] and a slice of at least
    [2 * width * height] bytes, the byte string that [Bitmap.read_images]
    hands to [Image.frombuffer] is the pixel list that [Image.read_image]
    hands to [putdata], each pixel written as its four bytes red, green,
    blue, alpha: that the loops of [read_images] run [width] times over
    [height] columns, and not the other way round, makes no difference. *)
Theorem plain_readers_agree (pil : Type)
    (frombuffer : Z -> Z -> list byte -> result pil)
    (self : Image) (r : BitmapPy.record_header) (buffer : list byte) :
  BitmapPy.r_width r = width self -> BitmapPy.r_height r = height self ->
  0 < width self -> 0 < height self ->
  2 * (width self * height self) <= Z.of_nat (length buffer) ->
  let blank := replicate (Z.to_nat (width self * height self)) (0, 0, 0, 0) in
  exists image,
    read_plain self buffer blank
    = Ok (2 * (width self * height self), image) /\
    BitmapPy.read_plain pil frombuffer r buffer
    = (p ← frombuffer (width self) (height self)
             (concat (map quad_bytes image));
       Ok (BitmapPy.Built p)).
Proof.
  intros Hrw Hrh Hw Hh Hbuf blank.
  destruct (read_plain_spec self buffer Hw Hh Hbuf blank)
    as ([i image] & Hrun & Hi & Hlen & Hcells).
  { unfold blank. by rewrite length_replicate. }
  cbn [fst snd] in *. subst i.
  exists image. split; [done|].
  rewrite eager_read_plain_spec by (rewrite ?Hrw, ?Hrh; done).
  rewrite Hrw, Hrh.
  rewrite <- (plain_bytes_of_grid self buffer image).
  - by rewrite <- Hlen, firstn_all.
  - intros j Hj. apply Hcells. lia.
Qed.

Lemma plain_readers_agree_witness :
  let self := Samples.image_of plain 4 4 2 1 Samples.no_flags in
  let r := {| BitmapPy.r_offset := 0; BitmapPy.r_length := 4;
              BitmapPy.r_uncompressed_length := 4;
              BitmapPy.r_invert_offset := 0; BitmapPy.r_width := 2;
              BitmapPy.r_height := 1; BitmapPy.r_imgType := 0;
              BitmapPy.r_flags := Samples.no_flags;
              BitmapPy.r_bitmap_id := 1; BitmapPy.r_alpha_length := 0 |} in
  let buffer := [xff; x7f; x1f; xf8] in
  exists image,
    read_plain self buffer [(0, 0, 0, 0); (0, 0, 0, 0)] = Ok (4, image) /\
    BitmapPy.read_plain (list byte) Samples.keep_data r buffer
    = Ok (BitmapPy.Built (concat (map quad_bytes image))).
Proof.
  intros self r buffer.
  destruct (plain_readers_agree (list byte) Samples.keep_data self r buffer
              eq_refl eq_refl ltac:(cbn; lia) ltac:(cbn; lia)
              ltac:(cbn; lia)) as (image & Hrun & Heager).
  exists image. split; [exact Hrun|exact Heager].
Defined.

(** ** The record as the two readers see it *)

Lemma bytes_at_length (sg : list byte) (p n : Z) :
  0 <= p -> 0 <= n -> p + n <= Z.of_nat (length sg) ->
  length (bytes_at sg p n) = Z.to_nat n.
Proof.
  intros Hp Hn Hle. unfold bytes_at. rewrite length_take, length_drop. lia.
Qed.

Lemma read_record_at (sg : list byte) (p : Z) (includeAlpha : bool) :
  0 <= p ->
  p + (if includeAlpha then 72 else 64) <= Z.of_nat (length sg) ->
  BitmapPy.read_record (File sg p) includeAlpha =
    Ok ({| BitmapPy.r_offset := int_from_bytes (bytes_at sg p 4);
           BitmapPy.r_length := int_from_bytes (bytes_at sg (p + 4) 4);
           BitmapPy.r_uncompressed_length :=
             int_from_bytes (bytes_at sg (p + 8) 4);
           BitmapPy.r_invert_offset :=
             int_from_bytes_signed (bytes_at sg (p + 16) 4);
           BitmapPy.r_width := int_from_bytes_signed (bytes_at sg (p + 20) 2);
           BitmapPy.r_height := int_from_bytes_signed (bytes_at sg (p + 22) 2);
           BitmapPy.r_imgType := int_from_bytes (bytes_at sg (p + 50) 2);
           BitmapPy.r_flags := bytes_at sg (p + 52) 4;
           BitmapPy.r_bitmap_id := int_from_bytes (bytes_at sg (p + 56) 1);
           BitmapPy.r_alpha_length :=
             if includeAlpha
             then int_from_bytes (bytes_at sg (p + 68) 4) else 0 |},
        File sg (p + (if includeAlpha then 72 else 64))).
Proof.
  intros Hp Hlen.
  assert (Hlen64 : p + 64 <= Z.of_nat (length sg))
    by (destruct includeAlpha; lia).
  unfold BitmapPy.read_record, fseek_cur, fseek, read_int, read_int_signed.
  rewrite !fread_full by (cbn [f_data f_pos]; lia). cbn [f_data f_pos].
  destruct (Z.ltb_spec (p + 4 + 4 + 4 + 4) 0); [lia|]. simpl_bind.
  rewrite !fread_full by (cbn [f_data f_pos]; lia). cbn [f_data f_pos].
  destruct (Z.ltb_spec (p + 4 + 4 + 4 + 4 + 4 + 2 + 2 + 26) 0); [lia|].
  simpl_bind.
  rewrite !fread_full by (cbn [f_data f_pos]; lia). cbn [f_data f_pos].
  replace (p + 4 + 4) with (p + 8) by lia.
  replace (p + 8 + 4 + 4) with (p + 16) by lia.
  replace (p + 16 + 4) with (p + 20) by lia.
  replace (p + 20 + 2) with (p + 22) by lia.
  replace (p + 22 + 2 + 26) with (p + 50) by lia.
  replace (p + 50 + 2) with (p + 52) by lia.
  replace (p + 52 + 4) with (p + 56) by lia.
  destruct (lookup_lt_is_Some_2 (bytes_at sg (p + 52) 4) 3) as [b3 Hb3].
  { rewrite bytes_at_length by lia. lia. }
  rewrite (getitem_lookup _ 3 b3 ltac:(lia) Hb3). simpl_bind.
  destruct (Z.ltb_spec (p + 56 + 1 + 7) 0); [lia|]. simpl_bind.
  replace (p + 56 + 1 + 7) with (p + 64) by lia.
  destruct includeAlpha.
  - rewrite !fread_full by (cbn [f_data f_pos]; lia). cbn [f_data f_pos].
    replace (p + 64 + 4) with (p + 68) by lia.
    replace (p + 68 + 4) with (p + 72) by lia.
    reflexivity.
  - reflexivity.
Qed.

(** X18.  One record, two views.  [Bitmap.read_images] reads a record of
    the metadata file from position [p] as: offset, length and uncompressed
    length at bytes 0, 4 and 8, the signed invert offset at byte 16, the
    signed width and height at bytes 20 and 22, the type code at byte 50,
    the flags at byte 52, the bitmap id at byte 56 and, with alpha, the
    alpha length at byte 68.  An [Image] created at [p - 8] decodes the very
    same offset, length, uncompressed length, invert offset, width, height,
    type code and flags; its [bitmapID] is the byte at [p - 8], and with
    alpha it takes [alphaOffset] and [alphaLength] from bytes 56 and 60 of
    the record, where [read_images] reads the bitmap id and its padding. *)
Theorem readers_share_record_layout (sg : list byte) (p : Z)
    (includeAlpha : bool) (imgNum : Z) :
  8 <= p ->
  p + (if includeAlpha then 72 else 64) <= Z.of_nat (length sg) ->
  let r := {| BitmapPy.r_offset := int_from_bytes (bytes_at sg p 4);
              BitmapPy.r_length := int_from_bytes (bytes_at sg (p + 4) 4);
              BitmapPy.r_uncompressed_length :=
                int_from_bytes (bytes_at sg (p + 8) 4);
              BitmapPy.r_invert_offset :=
                int_from_bytes_signed (bytes_at sg (p + 16) 4);
              BitmapPy.r_width :=
                int_from_bytes_signed (bytes_at sg (p + 20) 2);
              BitmapPy.r_height :=
                int_from_bytes_signed (bytes_at sg (p + 22) 2);
              BitmapPy.r_imgType := int_from_bytes (bytes_at sg (p + 50) 2);
              BitmapPy.r_flags := bytes_at sg (p + 52) 4;
              BitmapPy.r_bitmap_id := int_from_bytes (bytes_at sg (p + 56) 1);
              BitmapPy.r_alpha_length :=
                if includeAlpha
                then int_from_bytes (bytes_at sg (p + 68) 4) else 0 |} in
  BitmapPy.read_record (File sg p) includeAlpha
  = Ok (r, File sg (p + (if includeAlpha then 72 else 64))) /\
  read_header sg (p - 8) includeAlpha imgNum
  = (snd (get_img_type (BitmapPy.r_imgType r)),
     Ok {| ImagePy.includeAlpha := includeAlpha;
           ImagePy.imgNum := imgNum;
           bitmapID := int_from_bytes (bytes_at sg (p - 8) 1);
           offset555 := BitmapPy.r_offset r;
           length_ := BitmapPy.r_length r;
           uncompressedLength := BitmapPy.r_uncompressed_length r;
           invertOffset := BitmapPy.r_invert_offset r;
           width := BitmapPy.r_width r;
           height := BitmapPy.r_height r;
           xOffset := int_from_bytes (bytes_at sg (p + 24) 2);
           yOffset := int_from_bytes (bytes_at sg (p + 26) 2);
           imgType := fst (get_img_type (BitmapPy.r_imgType r));
           flags := BitmapPy.r_flags r;
           alphaOffset :=
             if includeAlpha
             then int_from_bytes (bytes_at sg (p + 56) 4) else 0;
           alphaLength :=
             if includeAlpha
             then int_from_bytes (bytes_at sg (p + 60) 4) else 0;
           ImagePy.offset := p + (if includeAlpha then 64 else 56) |}).
Proof.
  intros Hp Hlen r.
  split; [apply read_record_at; lia|].
  assert (Hoff : 0 <= p - 8) by lia.
  assert (Hlen64 : p - 8 + 64 <= Z.of_nat (length sg))
    by (destruct includeAlpha; lia).
  read_header_steps sg (p - 8).
  replace (p - 8 + 8) with p by lia.
  replace (p - 8 + 12) with (p + 4) by lia.
  replace (p - 8 + 16) with (p + 8) by lia.
  replace (p - 8 + 24) with (p + 16) by lia.
  replace (p - 8 + 28) with (p + 20) by lia.
  replace (p - 8 + 30) with (p + 22) by lia.
  replace (p - 8 + 32) with (p + 24) by lia.
  replace (p - 8 + 34) with (p + 26) by lia.
  replace (p - 8 + 58) with (p + 50) by lia.
  replace (p - 8 + 60) with (p + 52) by lia.
  cbn [BitmapPy.r_imgType BitmapPy.r_offset BitmapPy.r_length
       BitmapPy.r_uncompressed_length BitmapPy.r_invert_offset
       BitmapPy.r_width BitmapPy.r_height BitmapPy.r_flags r].
  unfold r. cbn [BitmapPy.r_imgType BitmapPy.r_offset BitmapPy.r_length
       BitmapPy.r_uncompressed_length BitmapPy.r_invert_offset
       BitmapPy.r_width BitmapPy.r_height BitmapPy.r_flags].
  destruct (get_img_type (int_from_bytes (bytes_at sg (p + 50) 2)))
    as [ty log].
  destruct includeAlpha.
  - rewrite !fread_full by (cbn [f_data f_pos]; lia). cbn [f_data f_pos].
    cbn [fst snd].
    replace (p + 52 + 4) with (p + 56) by lia.
    replace (p + 56 + 4) with (p + 60) by lia.
    replace (p + 60 + 4) with (p + 64) by lia.
    reflexivity.
  - cbn [fst snd f_pos].
    replace (p + 52 + 4) with (p + 56) by lia.
    reflexivity.
Qed.

Lemma readers_share_record_layout_witness :
  let sg := replicate 8 x09
            ++ Samples.eager_record 0 20 20 2 5 0 Samples.no_flags in
  exists r f,
    BitmapPy.read_record (File sg 8) false = Ok (r, f) /\
    fst (read_header sg 0 false 0) = [] /\
    BitmapPy.r_width r = 2 /\ BitmapPy.r_height r = 5 /\
    BitmapPy.r_length r = 20.
Proof.
  intros sg.
  destruct (readers_share_record_layout sg 8 false 0 ltac:(lia)
              ltac:(vm_compute; discriminate)) as [Hrec Hhdr].
  do 2 eexists. split; [exact Hrec|]. split.
  - change (8 - 8) with 0 in Hhdr.
    apply (f_equal fst) in Hhdr. rewrite Hhdr. vm_compute. reflexivity.
  - vm_compute. split; [reflexivity|]. split; reflexivity.
Defined.

(** ** The bitmap record, [Bitmap.read_header] *)

Lemma forallb_rev_byte (P : byte -> bool) (l : list byte) :
  forallb P (rev l) = forallb P l.
Proof.
  induction l as [|a l IH]; [done|].
  cbn [rev forallb]. rewrite forallb_app, IH. cbn [forallb].
  rewrite andb_true_r. apply andb_comm.
Qed.

Lemma forallb_lstrip_nul (P : byte -> bool) (l : list byte) :
  P x00 = true -> forallb P (BitmapPy.lstrip_nul l) = forallb P l.
Proof.
  intros H0. induction l as [|a l IH]; [done|].
  cbn [BitmapPy.lstrip_nul]. destruct (Byte.eqb a x00) eqn:E; [|done].
  apply byte_dec_bl in E. subst a. cbn [forallb]. by rewrite H0, IH.
Qed.

Lemma is_ascii_rstrip_nul (bs : list byte) :
  is_ascii (BitmapPy.rstrip_nul bs) = is_ascii bs.
Proof.
  unfold is_ascii, BitmapPy.rstrip_nul.
  rewrite forallb_rev_byte, forallb_lstrip_nul by done.
  apply forallb_rev_byte.
Qed.

Lemma decode_ascii_rstrip_nul (bs : list byte) :
  BitmapPy.decode_ascii (BitmapPy.rstrip_nul bs) =
    if is_ascii bs
    then Ok (String.string_of_list_byte (BitmapPy.rstrip_nul bs))
    else Raise UnicodeDecodeError.
Proof.
  unfold BitmapPy.decode_ascii. rewrite <- (is_ascii_rstrip_nul bs).
  reflexivity.
Qed.

(** X19.  The bitmap record that [Bitmap.read_header] decodes.  For a
    record lying wholly inside the file the call consumes exactly
    [bitmapRecordSize] = 200 bytes: a 65-byte name and a 51-byte comment,
    the little-endian 32-bit width, height, image count, start index and
    end index at bytes 116, 120, 124, 128 and 132, and 64 bytes that are
    skipped.  When every byte of the name and comment fields is below 128
    the call returns, the two texts being the fields without their trailing
    NUL bytes, and [self.offset] is 200 further on; otherwise it raises
    [UnicodeDecodeError]. *)
Theorem bitmap_header_layout (sg : list byte) (offset : Z) :
  0 <= offset ->
  offset + BitmapPy.bitmapRecordSize <= Z.of_nat (length sg) ->
  let name := bytes_at sg offset 65 in
  let text := bytes_at sg (offset + 65) 51 in
  BitmapPy.read_header sg offset =
    if is_ascii name && is_ascii text then
      Ok {| BitmapPy.h_filename :=
              String.string_of_list_byte (BitmapPy.rstrip_nul name);
            BitmapPy.h_comment :=
              String.string_of_list_byte (BitmapPy.rstrip_nul text);
            BitmapPy.h_width := int_from_bytes (bytes_at sg (offset + 116) 4);
            BitmapPy.h_height := int_from_bytes (bytes_at sg (offset + 120) 4);
            BitmapPy.h_numImages :=
              int_from_bytes (bytes_at sg (offset + 124) 4);
            BitmapPy.h_startIndex :=
              int_from_bytes (bytes_at sg (offset + 128) 4);
            BitmapPy.h_endIndex :=
              int_from_bytes (bytes_at sg (offset + 132) 4);
            BitmapPy.h_offset := offset + BitmapPy.bitmapRecordSize |}
    else Raise UnicodeDecodeError.
Proof.
  intros Hoff Hlen name text. subst name text.
  unfold BitmapPy.bitmapRecordSize in *.
  unfold BitmapPy.read_header, fopen, fseek_cur, fseek, read_int.
  cbn [f_data f_pos].
  destruct (Z.ltb_spec offset 0); [lia|]. simpl_bind.
  rewrite fread_full by lia. cbn [f_data f_pos].
  rewrite decode_ascii_rstrip_nul.
  destruct (is_ascii (bytes_at sg offset 65)); [|reflexivity]. simpl_bind.
  rewrite fread_full by lia. cbn [f_data f_pos].
  rewrite decode_ascii_rstrip_nul.
  destruct (is_ascii (bytes_at sg (offset + 65) 51)); [|reflexivity].
  simpl_bind. cbn [andb].
  rewrite !fread_full by (cbn [f_data f_pos]; lia). cbn [f_data f_pos].
  destruct (Z.ltb_spec (offset + 65 + 51 + 4 + 4 + 4 + 4 + 4 + 64) 0);
    [lia|]. simpl_bind. cbn [f_pos].
  replace (offset + 65 + 51) with (offset + 116) by lia.
  replace (offset + 116 + 4) with (offset + 120) by lia.
  replace (offset + 120 + 4) with (offset + 124) by lia.
  replace (offset + 124 + 4) with (offset + 128) by lia.
  replace (offset + 128 + 4) with (offset + 132) by lia.
  replace (offset + 132 + 4 + 64) with (offset + 200) by lia.
  reflexivity.
Qed.

Lemma bitmap_header_layout_witness :
  let sg := [x61; x2e; x62] ++ replicate 62 x00 ++ replicate 51 x00
            ++ le_bytes 4 10 ++ le_bytes 4 20 ++ le_bytes 4 3
            ++ le_bytes 4 1 ++ le_bytes 4 2 ++ replicate 64 x00 in
  BitmapPy.read_header sg 0
  = Ok {| BitmapPy.h_filename := String.string_of_list_byte [x61; x2e; x62];
          BitmapPy.h_comment := String.string_of_list_byte [];
          BitmapPy.h_width := 10; BitmapPy.h_height := 20;
          BitmapPy.h_numImages := 3; BitmapPy.h_startIndex := 1;
          BitmapPy.h_endIndex := 2; BitmapPy.h_offset := 200 |}.
Proof.
  intros sg.
  pose proof (bitmap_header_layout sg 0 ltac:(lia)
                ltac:(vm_compute; discriminate)) as H.
  cbv zeta in H. rewrite H. vm_compute. reflexivity.
Defined.

(** ** The two sprite decoders *)

Lemma raster_prefix_app (image : list quad) (n k : nat) :
  raster_prefix image (n + k)
  = raster_prefix image n ++ map (cell image) (seq n k).
Proof. unfold raster_prefix. by rewrite seq_app, map_app. Qed.

Lemma raster_prefix_insert (image : list quad) (n : nat) (q : quad) :
  (n < length image)%nat ->
  raster_prefix (<[n := q]> image) (S n) = raster_prefix image n ++ [q].
Proof.
  intros Hn. unfold raster_prefix. rewrite seq_S, map_app. cbn [map].
  f_equal.
  - apply map_ext_in. intros k Hk. apply in_seq in Hk. unfold cell.
    rewrite list_lookup_insert_ne by lia. done.
  - unfold cell. by rewrite list_lookup_insert_eq.
Qed.

Lemma raster_prefix_all (image : list quad) :
  raster_prefix image (length image) = image.
Proof.
  induction image as [|a l IH] using rev_ind; [done|].
  rewrite length_app. cbn [length]. unfold raster_prefix in *.
  rewrite Nat.add_1_r, seq_S, map_app. cbn [map]. f_equal.
  - transitivity (map (cell l) (seq 0 (length l))); [|exact IH].
    apply map_ext_in. intros k Hk. apply in_seq in Hk.
    unfold cell. rewrite (lookup_app_l l [a] k) by lia. done.
  - unfold cell. cbn [Nat.add].
    rewrite (lookup_app_r l [a] (length l)) by lia.
    by rewrite Nat.sub_diag.
Qed.

Lemma fold_left_append (z : list byte) (l : list Z) (im : list byte) :
  fold_left (fun acc (_ : Z) => acc ++ z) l im
  = im ++ concat (replicate (length l) z).
Proof.
  revert im. induction l as [|a l IH]; intros im; cbn [fold_left length].
  - by rewrite app_nil_r.
  - rewrite IH. cbn [replicate concat]. by rewrite app_assoc.
Qed.

Section SpriteSim.
Variable w : Z.
Variable buf : list byte.
Hypothesis width_pos : 0 < w.

Lemma sprite_sim_lin (s : rle_state) (t : BitmapPy.sprite_state) :
  sprite_sim w s t -> 0 <= lin w s.
Proof. intros (_ & _ & _ & Hx & Hy & _). unfold lin. nia. Qed.

Lemma sprite_sim_pixel (s s' : rle_state) (t : BitmapPy.sprite_state) :
  sprite_sim w s t -> rle_pixel w buf s = Ok s' ->
  exists t', BitmapPy.sprite_pixel buf w t = Ok t' /\ sprite_sim w s' t'.
Proof.
  intros Hsim Hrun. pose proof (sprite_sim_lin s t Hsim) as Hlin.
  destruct Hsim as (Hi & Hx & Hy & Hxr & Hyr & Him & Hblank).
  unfold rle_pixel in Hrun.
  apply bind_Ok_inv in Hrun as (lo & Hlo & Hrun).
  apply bind_Ok_inv in Hrun as (hi & Hhi & Hrun).
  apply bind_Ok_inv in Hrun as (image' & Hset & Hrun).
  fold (lin w s) in Hset.
  apply setitem_Ok_inv in Hset as [Hlt ->]; [|done].
  unfold BitmapPy.sprite_pixel. rewrite Hi, Hlo. simpl_bind.
  rewrite Hhi. simpl_bind.
  set (px := set555Pixel (sample16 lo hi) w) in *.
  pose proof (set555Pixel_range (sample16 lo hi) w) as [Hp0 Hp1].
  fold px in Hp0, Hp1.
  unfold to_bytes. change (256 ^ Z.of_nat 4) with (2 ^ 32).
  destruct (Z.leb_spec 0 px); [|lia].
  destruct (Z.ltb_spec px (2 ^ 32)); [|lia].
  cbn [andb]. simpl_bind. rewrite Hx, Hy.
  destruct (Z.leb_spec w (rs_x s + 1)) as [Hwrap|Hstay];
    injection Hrun as <-; eexists; (split; [reflexivity|]);
    unfold sprite_sim, lin; cbn [BitmapPy.ss_i BitmapPy.ss_x BitmapPy.ss_y
      BitmapPy.ss_image rs_i rs_x rs_y rs_image].
  - replace ((rs_y s + 1) * w + 0) with (lin w s + 1) by (unfold lin; lia).
    replace (Z.to_nat (lin w s + 1)) with (S (Z.to_nat (lin w s))) by lia.
    rewrite raster_prefix_insert by lia.
    rewrite map_app, concat_app, <- Him. cbn [map concat].
    rewrite app_nil_r, le_bytes_rgba.
    split; [done|]. split; [done|]. split; [done|]. split; [lia|].
    split; [lia|]. split; [done|].
    intros n Hn. unfold cell.
    rewrite list_lookup_insert_ne by (unfold lin in *; lia).
    apply Hblank. lia.
  - replace (rs_y s * w + (rs_x s + 1)) with (lin w s + 1)
      by (unfold lin; lia).
    replace (Z.to_nat (lin w s + 1)) with (S (Z.to_nat (lin w s))) by lia.
    rewrite raster_prefix_insert by lia.
    rewrite map_app, concat_app, <- Him. cbn [map concat].
    rewrite app_nil_r, le_bytes_rgba.
    split; [done|]. split; [done|]. split; [done|]. split; [lia|].
    split; [lia|]. split; [done|].
    intros n Hn. unfold cell.
    rewrite list_lookup_insert_ne by (unfold lin in *; lia).
    apply Hblank. lia.
Qed.

Lemma sprite_sim_pixels (l : list Z) (s s' : rle_state)
    (t : BitmapPy.sprite_state) :
  sprite_sim w s t ->
  for_each l (fun _ => rle_pixel w buf) s = Ok s' ->
  exists t',
    for_each l (fun _ => BitmapPy.sprite_pixel buf w) t = Ok t' /\
    sprite_sim w s' t'.
Proof.
  revert s t. induction l as [|a l IH]; intros s t Hsim Hrun;
    cbn [for_each] in *.
  - injection Hrun as <-. by exists t.
  - apply bind_Ok_inv in Hrun as (sm & Hpix & Hrest).
    destruct (sprite_sim_pixel s sm t Hsim Hpix) as (tm & -> & Hsimm).
    cbn [bind]. by apply (IH sm).
Qed.

Lemma sprite_sim_step (s s' : rle_state) (t : BitmapPy.sprite_state) :
  sprite_sim w s t -> rle_step w buf s = Ok s' ->
  exists t', BitmapPy.sprite_step buf w t = Ok t' /\ sprite_sim w s' t'.
Proof.
  intros Hsim Hrun. pose proof (sprite_sim_lin s t Hsim) as Hlin.
  pose proof Hsim as (Hi & Hx & Hy & Hxr & Hyr & Him & Hblank).
  unfold rle_step in Hrun.
  apply bind_Ok_inv in Hrun as (c & Hc & Hrun).
  unfold BitmapPy.sprite_step. rewrite Hi, Hc. simpl_bind.
  destruct (byte_val c =? 255).
  - apply bind_Ok_inv in Hrun as (n & Hn & Hrun).
    apply bind_Ok_inv in Hrun as ([x' y'] & Hwrap & Hrun).
    injection Hrun as <-.
    rewrite Hn. simpl_bind.
    change (to_bytes 4 0) with (Ok [x00; x00; x00; x00]). simpl_bind.
    rewrite Hx, Hy, Hwrap. simpl_bind.
    pose proof (byte_val_range n) as Hnr.
    destruct (wrap_rows_spec (S (Z.to_nat (rs_x s + byte_val n))) w
                (rs_x s + byte_val n) (rs_y s) width_pos ltac:(lia)
                ltac:(nia)) as (x2 & y2 & Hw2 & Hx2 & Hy2 & Hlin2).
    rewrite Hwrap in Hw2. injection Hw2 as <- <-.
    eexists. split; [reflexivity|].
    unfold sprite_sim, lin.
    cbn [BitmapPy.ss_i BitmapPy.ss_x BitmapPy.ss_y BitmapPy.ss_image
         rs_i rs_x rs_y rs_image fst snd].
    split; [done|]. split; [done|]. split; [done|]. split; [lia|].
    split; [lia|].
    replace (y' * w + x') with (lin w s + byte_val n) by (unfold lin; lia).
    replace (Z.to_nat (lin w s + byte_val n))
      with (Z.to_nat (lin w s) + Z.to_nat (byte_val n))%nat by lia.
    split.
    + rewrite fold_left_append, range_length, raster_prefix_app.
      rewrite map_app, concat_app, <- Him. f_equal.
      generalize (Z.to_nat (byte_val n)). intros k.
      assert (Hgen : forall j, (Z.to_nat (lin w s) <= j)%nat ->
                concat (replicate k [x00; x00; x00; x00])
                = concat (map quad_bytes (map (cell (rs_image s)) (seq j k)))).
      { induction k as [|k IHk]; intros j Hj; [done|].
        cbn [replicate concat seq map]. rewrite (Hblank j Hj).
        rewrite <- (IHk (S j)) by lia. reflexivity. }
      by apply Hgen.
    + intros m Hm. apply Hblank. lia.
  - destruct (sprite_sim_pixels (range (byte_val c))
                (RleState (rs_i s + 1) (rs_x s) (rs_y s) (rs_image s)
                          (rs_writes s)) s'
                (BitmapPy.SpriteState (BitmapPy.ss_i t + 1) (BitmapPy.ss_x t)
                   (BitmapPy.ss_y t) (BitmapPy.ss_image t)))
      as (t' & Ht' & Hsim'); [|done|].
    + unfold sprite_sim, lin in *. cbn [BitmapPy.ss_i BitmapPy.ss_x
        BitmapPy.ss_y BitmapPy.ss_image rs_i rs_x rs_y rs_image].
      split; [lia|]. split; [done|]. split; [done|]. split; [done|].
      split; [done|]. split; [done|]. done.
    + rewrite Hi in Ht'. exists t'. by split.
Qed.

Lemma sprite_sim_loop (fuel : nat) (L : Z) (s s' : rle_state)
    (t : BitmapPy.sprite_state) :
  sprite_sim w s t -> rle_loop fuel w buf L s = Ok s' ->
  exists t', BitmapPy.sprite_loop fuel buf w L t = Ok t' /\
             sprite_sim w s' t'.
Proof.
  revert s t. induction fuel as [|fuel IH]; intros s t Hsim Hrun;
    cbn [rle_loop BitmapPy.sprite_loop] in *;
    pose proof Hsim as (Hi & _); rewrite Hi;
    destruct (rs_i s <? L); try discriminate.
  - injection Hrun as <-. by exists t.
  - apply bind_Ok_inv in Hrun as (sm & Hstep & Hrest).
    destruct (sprite_sim_step s sm t Hsim Hstep) as (tm & -> & Hsimm).
    simpl_bind. by apply (IH sm).
  - injection Hrun as <-. by exists t.
Qed.

End SpriteSim.

(** X20.  The two sprite decoders agree.  Take a record of positive width
    and a fully transparent grid, and let [writeTransparentImage] of
    [image.py] decode the stream without an exception, ending with the
    cursor at list position [y * width + x].  Then the sprite loop of
    [Bitmap.read_images] on the same stream ends as well, and the byte
    string it hands to [Image.frombuffer] is the raster of
    [writeTransparentImage] from its first pixel up to the cursor, four
    bytes red, green, blue, alpha for each pixel (padded with transparent
    pixels where a final skip run has left the grid).  It is the whole
    raster exactly when the stream ends with the cursor at the end of the
    grid; nothing is appended for the pixels behind the cursor. *)
Theorem sprite_readers_agree (pil : Type)
    (frombuffer : Z -> Z -> list byte -> result pil)
    (self : Image) (r : BitmapPy.record_header) (buffer : list byte)
    (image : list quad) (s : rle_state) :
  BitmapPy.r_width r = width self ->
  BitmapPy.r_length r = length_ self ->
  0 < width self ->
  (forall q, q ∈ image -> q = (0, 0, 0, 0)) ->
  rle_run (width self) buffer (length_ self) 0 image = Ok s ->
  let cursor := Z.to_nat (lin (width self) s) in
  writeTransparentImage self image buffer (length_ self)
  = Ok (rs_image s) /\
  BitmapPy.read_sprite pil frombuffer r buffer
  = (p ← frombuffer (BitmapPy.r_width r) (BitmapPy.r_height r)
           (concat (map quad_bytes (raster_prefix (rs_image s) cursor)));
     Ok (BitmapPy.Built p)) /\
  (cursor = length image -> raster_prefix (rs_image s) cursor = rs_image s).
Proof.
  intros Hw Hl Hpos Hblank Hrun cursor.
  split; [unfold writeTransparentImage; by rewrite Hrun|].
  split.
  - unfold BitmapPy.read_sprite. rewrite Hw, Hl.
    unfold rle_run in Hrun. rewrite Z.sub_0_r in Hrun.
    assert (Hsim0 : sprite_sim (width self) (RleState 0 0 0 image [])
                      (BitmapPy.SpriteState 0 0 0 [])).
    { unfold sprite_sim, lin. cbn [BitmapPy.ss_i BitmapPy.ss_x
        BitmapPy.ss_y BitmapPy.ss_image rs_i rs_x rs_y rs_image].
      split; [done|]. split; [done|]. split; [done|]. split; [lia|].
      split; [lia|]. split; [done|].
      intros n _. unfold cell. destruct (image !! n) as [q|] eqn:Hq; [|done].
      cbn [default]. apply Hblank. by apply list_elem_of_lookup_2 in Hq. }
    destruct (sprite_sim_loop (width self) buffer Hpos _ _ _ s _ Hsim0 Hrun)
      as (t' & -> & Hsim).
    simpl_bind. destruct Hsim as (_ & _ & _ & _ & _ & -> & _).
    reflexivity.
  - intros Hc. destruct (rle_run_effect _ _ _ _ _ Hpos Hrun) as (Hlen & _).
    rewrite Hc, <- Hlen. apply raster_prefix_all.
Qed.

Lemma sprite_readers_agree_witness :
  let self := Samples.image_of sprite 9 0 5 1 Samples.no_flags in
  let r := {| BitmapPy.r_offset := 0; BitmapPy.r_length := 9;
              BitmapPy.r_uncompressed_length := 0;
              BitmapPy.r_invert_offset := 0; BitmapPy.r_width := 5;
              BitmapPy.r_height := 1; BitmapPy.r_imgType := 256;
              BitmapPy.r_flags := Samples.no_flags;
              BitmapPy.r_bitmap_id := 1; BitmapPy.r_alpha_length := 0 |} in
  let buffer := [x03; x00; x00; xff; x7f; x1f; xf8; xff; x02] in
  exists image',
    writeTransparentImage self (replicate 5 (0, 0, 0, 0)) buffer 9
    = Ok image' /\
    BitmapPy.read_sprite (list byte) Samples.keep_data r buffer
    = Ok (BitmapPy.Built (concat (map quad_bytes image'))).
Proof.
  intros self r buffer.
  let v := eval vm_compute in
             (rle_run (width self) buffer (length_ self) 0
                      (replicate 5 (0, 0, 0, 0))) in
  match v with
  | Ok ?s0 =>
      assert (Hs : rle_run (width self) buffer (length_ self) 0
                     (replicate 5 (0, 0, 0, 0)) = Ok s0)
        by (vm_compute; reflexivity);
      destruct (sprite_readers_agree (list byte) Samples.keep_data self r
                  buffer (replicate 5 (0, 0, 0, 0)) s0 eq_refl eq_refl
                  ltac:(cbn; lia)
                  ltac:(intros q Hq; by apply elem_of_replicate in Hq as [-> _])
                  Hs) as (Hlazy & Heager & Hall);
      exists (rs_image s0); split; [exact Hlazy|];
      rewrite Heager, Hall by reflexivity; reflexivity
  end.
Defined.

(** ** The sprite loop of [Bitmap.read_images] comes to an end *)

Lemma sprite_pixel_ok (w : Z) (buf : list byte) (i0 : Z)
    (s : BitmapPy.sprite_state) :
  sprite_ok i0 s ->
  only_index_error (BitmapPy.sprite_pixel buf w s) /\
  forall s', BitmapPy.sprite_pixel buf w s = Ok s' -> sprite_ok i0 s'.
Proof.
  intros (Hi & Hx & Hd). unfold BitmapPy.sprite_pixel.
  destruct (getitem buf (BitmapPy.ss_i s)) as [lo|e|] eqn:Hlo; simpl_bind.
  2: { pose proof (getitem_only_index_error buf (BitmapPy.ss_i s)) as H.
       rewrite Hlo in H. by split. }
  2: { by apply getitem_not_Hang in Hlo. }
  destruct (getitem buf (BitmapPy.ss_i s + 1)) as [hi|e|] eqn:Hhi; simpl_bind.
  2: { pose proof (getitem_only_index_error buf (BitmapPy.ss_i s + 1)) as H.
       rewrite Hhi in H. by split. }
  2: { by apply getitem_not_Hang in Hhi. }
  pose proof (set555Pixel_range (sample16 lo hi) w) as [Hp0 Hp1].
  unfold to_bytes. change (256 ^ Z.of_nat 4) with (2 ^ 32).
  destruct (Z.leb_spec 0 (set555Pixel (sample16 lo hi) w)); [|lia].
  destruct (Z.ltb_spec (set555Pixel (sample16 lo hi) w) (2 ^ 32)); [|lia].
  cbn [andb]. simpl_bind.
  split; [by destruct (w <=? BitmapPy.ss_x s + 1)|].
  intros s' Hs'. unfold sprite_ok.
  destruct (w <=? BitmapPy.ss_x s + 1); injection Hs' as <-;
    cbn [BitmapPy.ss_i BitmapPy.ss_x BitmapPy.ss_image];
    rewrite length_app; cbn [le_bytes length];
    (split; [lia|]); (split; [lia|]);
    (apply Nat.divide_add_r; [done|by exists 1%nat]).
Qed.

Lemma sprite_step_ok (w : Z) (buf : list byte) (s : BitmapPy.sprite_state) :
  0 < w -> sprite_ok (BitmapPy.ss_i s) s ->
  only_index_error (BitmapPy.sprite_step buf w s) /\
  forall s', BitmapPy.sprite_step buf w s = Ok s' ->
             sprite_ok (BitmapPy.ss_i s + 1) s'.
Proof.
  intros Hw (Hi & Hx & Hd). unfold BitmapPy.sprite_step.
  destruct (getitem buf (BitmapPy.ss_i s)) as [c|e|] eqn:Hc; simpl_bind.
  2: { pose proof (getitem_only_index_error buf (BitmapPy.ss_i s)) as H.
       rewrite Hc in H. by split. }
  2: { by apply getitem_not_Hang in Hc. }
  destruct (byte_val c =? 255).
  - destruct (getitem buf (BitmapPy.ss_i s + 1)) as [n|e|] eqn:Hn; simpl_bind.
    2: { pose proof (getitem_only_index_error buf (BitmapPy.ss_i s + 1)) as H.
         rewrite Hn in H. by split. }
    2: { by apply getitem_not_Hang in Hn. }
    change (to_bytes 4 0) with (Ok [x00; x00; x00; x00]). simpl_bind.
    pose proof (byte_val_range n) as Hnr.
    destruct (wrap_rows_spec (S (Z.to_nat (BitmapPy.ss_x s + byte_val n))) w
                (BitmapPy.ss_x s + byte_val n) (BitmapPy.ss_y s) Hw
                ltac:(lia) ltac:(nia)) as (x' & y' & -> & Hx' & _).
    simpl_bind. split; [done|]. intros s' [= <-]. unfold sprite_ok.
    cbn [BitmapPy.ss_i BitmapPy.ss_x BitmapPy.ss_image].
    split; [lia|]. split; [lia|].
    rewrite fold_left_append, length_app.
    apply Nat.divide_add_r; [done|].
    generalize (length (range (byte_val n))). intros k.
    induction k as [|k IH]; [by exists 0%nat|].
    cbn [replicate concat]. rewrite length_app. cbn [length].
    apply Nat.divide_add_r; [by exists 1%nat|done].
  - apply (for_each_only_index_error (sprite_ok (BitmapPy.ss_i s + 1))).
    + intros _ s1 Hs1. by apply sprite_pixel_ok.
    + unfold sprite_ok. cbn [BitmapPy.ss_i BitmapPy.ss_x BitmapPy.ss_image].
      split; [lia|]. by split.
Qed.

Lemma sprite_loop_ok (w : Z) (buf : list byte) (fuel : nat) (L : Z)
    (s : BitmapPy.sprite_state) :
  0 < w -> sprite_ok (BitmapPy.ss_i s) s ->
  (Z.to_nat (L - BitmapPy.ss_i s) <= fuel)%nat ->
  only_index_error (BitmapPy.sprite_loop fuel buf w L s) /\
  forall s', BitmapPy.sprite_loop fuel buf w L s = Ok s' ->
             Nat.divide 4 (length (BitmapPy.ss_image s')).
Proof.
  intros Hw. revert s. induction fuel as [|fuel IH]; intros s Hok Hfuel;
    cbn [BitmapPy.sprite_loop];
    destruct (Z.ltb_spec (BitmapPy.ss_i s) L); try lia.
  - split; [done|]. intros s' [= <-]. by destruct Hok as (_ & _ & Hd).
  - destruct (sprite_step_ok w buf s Hw Hok) as [Ho Hs].
    destruct (BitmapPy.sprite_step buf w s) as [sm|e|]; simpl_bind;
      [|by split|done].
    destruct (Hs sm eq_refl) as (Hi & Hx & Hd).
    apply IH; [|lia]. unfold sprite_ok. split; [lia|]. by split.
  - split; [done|]. intros s' [= <-]. by destruct Hok as (_ & _ & Hd).
Qed.

(** X21.  With a positive width the sprite branch of [Bitmap.read_images]
    always comes to an end, whatever the stream and the declared length:
    either the stream is too short and a subscript of the buffer raises
    [IndexError], or the loop ends and [Image.frombuffer] is called on a byte
    string made of whole four-byte pixels.  Unlike [writeTransparentImage]
    it has no grid to overrun. *)
Theorem eager_sprite_ends (pil : Type)
    (frombuffer : Z -> Z -> list byte -> result pil)
    (r : BitmapPy.record_header) (buffer : list byte) :
  0 < BitmapPy.r_width r ->
  (exists image,
     BitmapPy.read_sprite pil frombuffer r buffer
     = (p ← frombuffer (BitmapPy.r_width r) (BitmapPy.r_height r) image;
        Ok (BitmapPy.Built p)) /\
     Nat.divide 4 (length image)) \/
  BitmapPy.read_sprite pil frombuffer r buffer = Raise IndexError.
Proof.
  intros Hw. unfold BitmapPy.read_sprite.
  destruct (sprite_loop_ok (BitmapPy.r_width r) buffer
              (Z.to_nat (BitmapPy.r_length r)) (BitmapPy.r_length r)
              (BitmapPy.SpriteState 0 0 0 []) Hw) as [Ho Hd].
  { unfold sprite_ok. cbn. split; [lia|]. split; [lia|]. by exists 0%nat. }
  { cbn. lia. }
  destruct (BitmapPy.sprite_loop _ _ _ _ _) as [s|e|]; simpl_bind.
  - left. exists (BitmapPy.ss_image s). split; [done|]. by apply Hd.
  - right. cbn in Ho. by subst e.
  - done.
Qed.

Lemma eager_sprite_ends_witness :
  let r := {| BitmapPy.r_offset := 0; BitmapPy.r_length := 9;
              BitmapPy.r_uncompressed_length := 0;
              BitmapPy.r_invert_offset := 0; BitmapPy.r_width := 5;
              BitmapPy.r_height := 1; BitmapPy.r_imgType := 256;
              BitmapPy.r_flags := Samples.no_flags;
              BitmapPy.r_bitmap_id := 1; BitmapPy.r_alpha_length := 0 |} in
  let buffer := [x03; x00; x00; xff; x7f; x1f] in
  BitmapPy.read_sprite (list byte) Samples.keep_data r buffer
  = Raise IndexError.
Proof.
  intros r buffer.
  destruct (eager_sprite_ends (list byte) Samples.keep_data r buffer
              ltac:(cbn; lia)) as [(image & Hrun & _)|Hrun].
  - exfalso. revert Hrun. vm_compute. discriminate.
  - exact Hrun.
Defined.

(** ** The overlay pass against the decoder of the specification *)

Lemma getitem_Raise_inv {A} (l : list A) (k : Z) (e : exn) :
  0 <= k -> getitem l k = Raise e -> e = IndexError /\ l !! Z.to_nat k = None.
Proof.
  intros Hk Hg.
  pose proof (getitem_only_index_error l k) as Ho. rewrite Hg in Ho.
  split; [exact Ho|].
  destruct (l !! Z.to_nat k) as [a|] eqn:Ha; [|done].
  rewrite (getitem_lookup l k a Hk Ha) in Hg. discriminate.
Qed.

Lemma spec_paint_app (g : list quad) (ws rest : list (Z * quad)) :
  spec_paint g (ws ++ rest) = spec_paint g ws ≫= fun g' => spec_paint g' rest.
Proof.
  revert g. induction ws as [|[p v] ws IH]; intros g; [done|].
  cbn [app spec_paint]. destruct (_ && _); [apply IH|done].
Qed.

Section SpecSprite.
Variable w : Z.
Variable buf : list byte.
Hypothesis width_pos : 0 < w.

Lemma rle_pixels_match_spec (l : list Z) (s : rle_state) :
  cursor_ok w s ->
  matches_spec w s (for_each l (fun _ => rle_pixel w buf) s)
    (spec_opaque_run w buf (Z.to_nat (rs_i s)) (length l) (lin w s))
    (rs_i s + 2 * Z.of_nat (length l)) (lin w s + Z.of_nat (length l)).
Proof.
  revert s. induction l as [|a l IH]; intros s Hc.
  - cbn. exists []. rewrite app_nil_r.
    repeat split; try done; try lia; apply Hc.
  - pose proof Hc as (Hi & Hx & Hy).
    assert (Hlin : 0 <= lin w s) by (unfold lin; nia).
    cbn [for_each length spec_opaque_run]. unfold rle_pixel at 1.
    destruct (getitem buf (rs_i s)) as [lo|e|] eqn:Hlo; simpl_bind.
    2: { apply getitem_Raise_inv in Hlo as [-> Hn]; [|lia].
         split; [done|]. rewrite Hn. by intros ws [=]. }
    2: { by apply getitem_not_Hang in Hlo. }
    apply getitem_Ok_inv in Hlo; [|lia]. rewrite Hlo.
    destruct (getitem buf (rs_i s + 1)) as [hi|e|] eqn:Hhi; simpl_bind.
    2: { apply getitem_Raise_inv in Hhi as [-> Hn]; [|lia].
         replace (Z.to_nat (rs_i s + 1)) with (S (Z.to_nat (rs_i s))) in Hn
           by lia.
         split; [done|]. cbn. rewrite Hn. by intros ws [=]. }
    2: { by apply getitem_not_Hang in Hhi. }
    apply getitem_Ok_inv in Hhi; [|lia].
    replace (Z.to_nat (rs_i s + 1)) with (S (Z.to_nat (rs_i s))) in Hhi by lia.
    cbn [mbind option_bind]. rewrite Hhi. cbn [mbind option_bind].
    unfold spec_sample. rewrite <- sample16_value.
    set (q := rgba_tuple (set555Pixel (sample16 lo hi) w)).
    fold (lin w s).
    destruct (setitem (rs_image s) (lin w s) q) as [image'|e|] eqn:Hset;
      simpl_bind.
    3: { by apply setitem_not_Hang in Hset. }
    2: { pose proof (setitem_only_index_error (rs_image s) (lin w s) q) as Ho.
         rewrite Hset in Ho. cbn in Ho. subst e. split; [done|].
         intros ws Hws.
         destruct (spec_opaque_run _ _ _ _ _) as [rest|]; [|done].
         injection Hws as <-. cbn [spec_paint].
         destruct (Z.ltb_spec (lin w s) (Z.of_nat (length (rs_image s))))
           as [Hlt|]; [|by rewrite andb_false_r].
         by rewrite (setitem_nonneg (rs_image s) (lin w s) q) in Hset by lia. }
    apply setitem_Ok_inv in Hset as [Hlt ->]; [|done].
    set (s1 := RleState (rs_i s + 2)
                 (if w <=? rs_x s + 1 then 0 else rs_x s + 1)
                 (if w <=? rs_x s + 1 then rs_y s + 1 else rs_y s)
                 (<[Z.to_nat (lin w s) := q]> (rs_image s))
                 (rs_writes s ++ [(lin w s, q)])).
    assert (Hs1 : (let '(x, y) :=
                     if w <=? rs_x s + 1 then (0, rs_y s + 1)
                     else (rs_x s + 1, rs_y s) in
                   Ok (RleState (rs_i s + 2) x y
                         (<[Z.to_nat (lin w s) := q]> (rs_image s))
                         (rs_writes s ++ [(lin w s, q)]))) = Ok s1).
    { unfold s1. by destruct (w <=? rs_x s + 1). }
    rewrite Hs1. cbn [bind].
    assert (Hc1 : cursor_ok w s1).
    { unfold cursor_ok, s1. cbn [rs_i rs_x rs_y].
      destruct (Z.leb_spec w (rs_x s + 1)); lia. }
    assert (Hl1 : lin w s1 = lin w s + 1).
    { unfold lin, s1. cbn [rs_x rs_y].
      destruct (Z.leb_spec w (rs_x s + 1)); lia. }
    specialize (IH s1 Hc1). rewrite Hl1 in IH.
    replace (Z.to_nat (rs_i s1)) with (S (S (Z.to_nat (rs_i s)))) in IH
      by (unfold s1; cbn [rs_i]; lia).
    unfold matches_spec in *.
    destruct (for_each l _ s1) as [s'|e|].
    + destruct IH as (ws & -> & Hp & Hw & Hi' & Hl' & Hc').
      cbn [mbind option_bind]. eexists. split; [reflexivity|].
      cbn [spec_paint].
      destruct (Z.leb_spec 0 (lin w s)); [|lia].
      destruct (Z.ltb_spec (lin w s) (Z.of_nat (length (rs_image s)))); [|lia].
      cbn [andb]. split; [exact Hp|].
      split; [rewrite Hw; unfold s1; cbn [rs_writes];
              by rewrite <- app_assoc|].
      split; [rewrite Hi'; unfold s1; cbn [rs_i]; lia|].
      split; [lia|done].
    + destruct IH as [-> Hnone]. split; [done|].
      intros ws Hws.
      destruct (spec_opaque_run _ _ _ _ _) as [rest|]; [|done].
      injection Hws as <-. cbn [spec_paint].
      destruct (Z.leb_spec 0 (lin w s)); [|lia].
      destruct (Z.ltb_spec (lin w s) (Z.of_nat (length (rs_image s)))); [|lia].
      cbn [andb]. by apply Hnone.
    + done.
Qed.

Lemma rle_loop_matches_spec (fuel : nat) (L : Z) (s : rle_state) :
  cursor_ok w s -> (Z.to_nat (L - rs_i s) <= fuel)%nat ->
  match rle_loop fuel w buf L s with
  | Ok s' =>
      exists ws, spec_writes fuel w buf L (rs_i s) (lin w s) = Some ws /\
                 spec_paint (rs_image s) ws = Some (rs_image s') /\
                 rs_writes s' = rs_writes s ++ ws
  | Raise e =>
      e = IndexError /\
      forall ws, spec_writes fuel w buf L (rs_i s) (lin w s) = Some ws ->
                 spec_paint (rs_image s) ws = None
  | Hang => False
  end.
Proof.
  revert s. induction fuel as [|fuel IH]; intros s Hc Hfuel;
    cbn [rle_loop spec_writes];
    destruct (Z.ltb_spec (rs_i s) L) as [Hlt|Hge]; try lia.
  - destruct (Z.leb_spec L (rs_i s)); [|lia].
    exists []. by rewrite app_nil_r.
  - destruct (Z.leb_spec L (rs_i s)); [lia|].
    pose proof Hc as (Hi & Hx & Hy).
    assert (Hlin : 0 <= lin w s) by (unfold lin; nia).
    unfold rle_step.
    destruct (getitem buf (rs_i s)) as [c|e|] eqn:Hcb; simpl_bind.
    2: { apply getitem_Raise_inv in Hcb as [-> Hn]; [|lia].
         split; [done|]. rewrite Hn. by intros ws [=]. }
    2: { by apply getitem_not_Hang in Hcb. }
    apply getitem_Ok_inv in Hcb; [|lia]. rewrite Hcb.
    cbn [mbind option_bind].
    destruct (byte_val c =? 255) eqn:Hskip.
    + destruct (getitem buf (rs_i s + 1)) as [n|e|] eqn:Hnb; simpl_bind.
      2: { apply getitem_Raise_inv in Hnb as [-> Hn]; [|lia].
           split; [done|]. rewrite Hn. by intros ws [=]. }
      2: { by apply getitem_not_Hang in Hnb. }
      apply getitem_Ok_inv in Hnb; [|lia]. rewrite Hnb.
      cbn [mbind option_bind].
      pose proof (byte_val_range n) as Hnr.
      destruct (wrap_rows_spec (S (Z.to_nat (rs_x s + byte_val n))) w
                  (rs_x s + byte_val n) (rs_y s) width_pos ltac:(lia)
                  ltac:(nia)) as (x' & y' & -> & Hx' & Hy' & Hl').
      simpl_bind.
      set (s1 := RleState (rs_i s + 1 + 1) x' y' (rs_image s) (rs_writes s)).
      assert (Hc1 : cursor_ok w s1) by (unfold cursor_ok, s1; cbn; lia).
      specialize (IH s1 Hc1 ltac:(unfold s1; cbn [rs_i]; lia)).
      replace (lin w s1) with (lin w s + byte_val n) in IH
        by (unfold lin, s1; cbn [rs_x rs_y]; lia).
      replace (rs_i s1) with (rs_i s + 2) in IH
        by (unfold s1; cbn [rs_i]; lia).
      exact IH.
    + pose proof (byte_val_range c) as Hcr.
      pose proof (rle_pixels_match_spec (range (byte_val c))
                    (RleState (rs_i s + 1) (rs_x s) (rs_y s) (rs_image s)
                              (rs_writes s))
                    ltac:(unfold cursor_ok; cbn; lia)) as Hrun.
      rewrite range_length in Hrun. cbn [rs_i rs_image rs_writes] in Hrun.
      replace (lin w (RleState (rs_i s + 1) (rs_x s) (rs_y s) (rs_image s)
                               (rs_writes s))) with (lin w s) in Hrun
        by reflexivity.
      unfold matches_spec in Hrun. cbn [rs_image rs_writes] in Hrun.
      destruct (for_each _ _ _) as [sm|e|]; simpl_bind.
      * destruct Hrun as (ws & -> & Hp & Hw & Hi' & Hl' & Hcm).
        cbn [mbind option_bind].
        specialize (IH sm Hcm ltac:(lia)).
        replace (rs_i sm) with (rs_i s + 1 + 2 * byte_val c) in IH by lia.
        replace (lin w sm) with (lin w s + byte_val c) in IH by lia.
        destruct (rle_loop fuel w buf L sm) as [s'|e|].
        -- destruct IH as (rest & -> & Hp' & Hw').
           cbn [mbind option_bind]. eexists. split; [reflexivity|].
           rewrite spec_paint_app, Hp. cbn [mbind option_bind].
           split; [exact Hp'|]. by rewrite Hw', Hw, <- app_assoc.
        -- destruct IH as [-> Hnone]. split; [done|].
           intros ws' Hws'.
           destruct (spec_writes fuel w buf L _ _) as [rest|]; [|done].
           injection Hws' as <-.
           rewrite spec_paint_app, Hp. cbn [mbind option_bind].
           by apply Hnone.
        -- done.
      * destruct Hrun as [-> Hnone]. split; [done|].
        intros ws' Hws'.
        destruct (spec_opaque_run _ _ _ _ _) as [ws|]; [|done].
        cbn [mbind option_bind] in Hws'.
        destruct (spec_writes fuel w buf L _ _) as [rest|]; [|done].
        injection Hws' as <-.
        rewrite spec_paint_app, (Hnone ws eq_refl). done.
      * done.
  - destruct (Z.leb_spec L (rs_i s)); [|lia].
    exists []. by rewrite app_nil_r.
Qed.

End SpecSprite.

(** The call in the source against [spec_sprite]. *)
Lemma writeTransparentImage_spec (self : Image) (image : list quad)
    (buffer : list byte) (length : Z) :
  0 < width self ->
  writeTransparentImage self image buffer length
  = spec_sprite (width self) buffer length image.
Proof.
  intros Hw. unfold writeTransparentImage, rle_run, spec_sprite.
  rewrite Z.sub_0_r.
  pose proof (rle_loop_matches_spec (width self) buffer Hw
                (Z.to_nat length) length (RleState 0 0 0 image [])
                ltac:(unfold cursor_ok; cbn; lia) ltac:(cbn; lia)) as H.
  cbn [rs_i rs_image rs_writes] in H.
  change (lin (width self) (RleState 0 0 0 image [])) with (0 * width self + 0)
    in H.
  rewrite Z.mul_0_l, Z.add_0_l in H.
  destruct (rle_loop _ _ _ _ _) as [s'|e|]; simpl_bind.
  - destruct H as (ws & -> & Hp & _). cbn [mbind option_bind].
    by rewrite Hp.
  - destruct H as [-> Hnone].
    destruct (spec_writes _ _ _ _ _ _) as [ws|]; cbn [mbind option_bind];
      [|done].
    by rewrite (Hnone ws eq_refl).
  - done.
Qed.

(** What the writes of the specification's decoder do to a grid. *)
Lemma spec_sprite_effect (w : Z) (buf : list byte) (L : Z)
    (B O : list quad) (ws : list (Z * quad)) :
  0 < w ->
  spec_writes (Z.to_nat L) w buf L 0 0 = Some ws ->
  spec_paint B ws = Some O ->
  length O = length B /\
  (forall p v, (p, v) ∈ ws -> 0 <= p /\ O !! Z.to_nat p = Some v) /\
  (forall k : nat, (forall v, (Z.of_nat k, v) ∉ ws) -> O !! k = B !! k).
Proof.
  intros Hw Hws Hp.
  pose proof (rle_loop_matches_spec w buf Hw (Z.to_nat L) L
                (RleState 0 0 0 B [])
                ltac:(unfold cursor_ok; cbn; lia) ltac:(cbn; lia)) as H.
  cbn [rs_i rs_image rs_writes] in H.
  change (lin w (RleState 0 0 0 B [])) with (0 * w + 0) in H.
  rewrite Z.mul_0_l, Z.add_0_l, Hws in H.
  destruct (rle_loop (Z.to_nat L) w buf L (RleState 0 0 0 B []))
    as [s'|e|] eqn:Hrun.
  - destruct H as (ws' & [= <-] & Hp' & Hwr). cbn [app] in Hwr.
    rewrite Hp in Hp'. injection Hp' as ->.
    assert (Hrun' : rle_run w buf L 0 B = Ok s')
      by (unfold rle_run; by rewrite Z.sub_0_r).
    destruct (rle_run_effect w buf L B s' Hw Hrun') as (Hlen & Hwrit & Hfr).
    rewrite Hwr in Hwrit, Hfr. by split.
  - destruct H as [_ Hnone]. by rewrite (Hnone ws eq_refl) in Hp.
  - done.
Qed.

(** C4 (as the code has it).  For an isometric record that passes [verify]
    and the two geometry checks, what [read_isometric] returns is the base
    mosaic followed by one pass of the sprite decoder of the specification
    over the bytes of the slice from [uncompressedLength] on, bounded by
    [length - uncompressedLength], anchored at cursor [(0, 0)] on the grid
    that the mosaic produced: the writes are the decodes of the opaque
    samples of that stream, each at the position that the run counts before
    it add up to; an [IndexError] is raised exactly when the stream ends
    inside a record or a write falls outside the grid.  In the grid returned
    every written position holds its pixel, and every other position holds
    the value that the mosaic left there.  (The source decodes a prefix of
    the stream a second time, in the loop that follows the call; this
    rewrites pixels with the values they hold and does not show in the
    result.) *)
Theorem isometric_overlay_single_pass
    (self : Image) (buffer : list byte) (image : list quad) (f3 : byte)
    (size tileBytes tileHeight tileWidth : Z) (log : list event) :
  fst (verify self) = true ->
  flags self !! 3%nat = Some f3 ->
  let baseHeight := Z.quot (width self + 2) 2 in
  let tail := slice_from buffer (uncompressedLength self) in
  let n := length_ self - uncompressedLength self in
  derive_size (byte_val f3) baseHeight = (size, log) ->
  tile_profile size baseHeight = Some (tileBytes, tileHeight, tileWidth) ->
  (width self + 2) * baseHeight = uncompressedLength self ->
  read_isometric self buffer image =
    (log,
     B ← base_mosaic self buffer size tileBytes tileHeight tileWidth
           (height self - baseHeight) image;
     O ← spec_sprite (width self) tail n B;
     Ok (Some O)) /\
  forall B ws O,
    spec_writes (Z.to_nat n) (width self) tail n 0 0 = Some ws ->
    spec_paint B ws = Some O ->
    length O = length B /\
    (forall p v, (p, v) ∈ ws -> 0 <= p /\ O !! Z.to_nat p = Some v) /\
    (forall k : nat, (forall v, (Z.of_nat k, v) ∉ ws) -> O !! k = B !! k).
Proof.
  intros Hv Hf3 baseHeight tail n Hsize Hprof Hfoot.
  apply verify_true_iff in Hv as (Hw & Hh & Hl).
  assert (HuL : 0 <= uncompressedLength self).
  { rewrite <- Hfoot. apply Z.mul_nonneg_nonneg; [lia|].
    apply Z.quot_pos; lia. }
  split.
  - unfold read_isometric.
    rewrite (getitem_lookup (flags self) 3 f3) by (done || lia).
    fold baseHeight. rewrite Hsize, Hprof.
    destruct (Z.eqb_spec ((width self + 2) * baseHeight)
                (uncompressedLength self)); [|done].
    cbn [negb]. f_equal.
    destruct (base_mosaic _ _ _ _ _ _ _ _) as [B| |]; simpl_bind; [|done..].
    rewrite overlay_second_loop_idle by done.
    by rewrite writeTransparentImage_spec.
  - intros B ws O. by apply spec_sprite_effect.
Qed.

Lemma isometric_overlay_single_pass_witness :
  let self := Samples.image_of isometric 1807 1800 58 30 Samples.no_flags in
  let buffer :=
    replicate 1800 x00 ++ [x02; x1f; x00; xff; x7f; xff; x03] in
  let blank := replicate 1740 ((0, 0, 0, 0) : quad) in
  read_isometric self buffer blank =
    ([],
     B ← base_mosaic self buffer 1 1800 30 58 0 blank;
     O ← spec_sprite 58 (slice_from buffer 1800) 7 B;
     Ok (Some O)) /\
  spec_writes 7 58 (slice_from buffer 1800) 7 0 0
  = Some [(0, (0, 0, 255, 255)); (1, (255, 255, 255, 255))].
Proof.
  intros self buffer blank. split.
  - exact (proj1 (isometric_overlay_single_pass self buffer blank x00
                    1 1800 30 58 [] eq_refl eq_refl eq_refl eq_refl eq_refl)).
  - vm_compute. reflexivity.
Defined.

(** C4, refuted as stated: the stream is not decoded exactly once.  For the
    58x30 record with [uncompressedLength = 1800] and [length = 3603] the
    overlay stream is the three bytes of a one-pixel run followed by 900 skip
    runs of length 0.  The call of [writeTransparentImage] decodes it; the
    loop that follows the call in the source then starts at byte 1800 of the
    slice with the bound [length - uncompressedLength = 1803], decodes the
    one-pixel run again and writes its pixel to position 0 a second time. *)
Lemma isometric_overlay_decoded_twice :
  let self := Samples.image_of isometric 3603 1800 58 30 Samples.no_flags in
  let buffer :=
    replicate 1800 x00 ++ [x01; xff; x7f]
    ++ concat (replicate 900 [xff; x00]) in
  let blank := replicate 1740 ((0, 0, 0, 0) : quad) in
  match base_mosaic self buffer 1 1800 30 58 0 blank with
  | Ok B =>
      match rle_run 58 (slice_from buffer 1800) 1803 0 B with
      | Ok s1 =>
          rs_writes s1 = [(0, (255, 255, 255, 255))] /\
          match rle_run 58 buffer 1803 1800 (rs_image s1) with
          | Ok s2 =>
              rs_writes s2 = [(0, (255, 255, 255, 255))] /\
              rs_i s2 = 1803 /\
              overlay self buffer B = Ok (rs_image s2)
          | _ => False
          end
      | _ => False
      end
  | _ => False
  end.
Proof. vm_compute. repeat split. Qed.
